(** * Sensors proxy server: a shallow embedding of [sensors-server.cpp]

    The server multiplexes one hardware sensor device between several local
    clients.  This development embeds the bookkeeping of the server (client
    registry, per-handle reference counts, delay aggregation, command loop
    and event fan-out) as executable Rocq functions and proves properties
    of them.

    Conventions.
    - C [int], [int32_t] and [int64_t] values are modelled as [Z].  The
      counters of the server are only ever incremented once per enabled
      (client, handle) pair, so they stay far below [INT_MAX]; no
      arithmetic of the embedded functions can overflow.
    - A heap allocated [struct smodule_client] is named by an abstract
      pointer ([ptr]); the registry array and the epoll user data alias the
      client through this pointer, so the clients live in a heap indexed by
      pointers.
    - A C array is a list; reading or writing it outside of its bounds is
      undefined behaviour and is made explicit as the fault [OutOfBounds].
    - The hardware device and the sockets are outside of the program; calls
      to them are recorded as a list of [action]s, and their results are
      supplied by the environment where the code looks at them.  The
      results of [activate], [setDelay] and [epoll_ctl] are only logged by
      the code and are left out.
    - The event loop and the poll thread share the registry and the
      [sensor_enabled] arrays under [smod->mutex].  The fan-out of a poll
      round runs with the mutex held and everything it reads is written
      with the mutex held, so the two threads are modelled as one sequence
      of inputs: epoll events handled by the event loop and returns of
      [poll] handled by the poll thread. *)

From stdpp Require Import base numbers list strings gmap.

Local Open Scope Z_scope.

(** ** Constants of [sensors-proxy.h] and [sensors-server.cpp] *)

Definition SMODULE_CLIENT_MAX : nat := 8.
Definition SENSORS_CHARS_MAX : nat := 64.
Definition SENSORS_PROXY_CMD_ACTIVATE : Z := 0.
Definition SENSORS_PROXY_CMD_SET_DELAY : Z := 1.
Definition SENSORS_PROXY_CMD_BATCH : Z := 2.
Definition SENSORS_PROXY_CMD_FLUSH : Z := 3.
Definition LLONG_MAX : Z := 2 ^ 63 - 1.
(** [errno] value of a connection reset (Linux). *)
Definition ECONNRESET : Z := 104.

(** ** Data *)

Abbreviation ptr := nat.

(** [struct sensor_t] of the Android sensors HAL.  The floating point
    fields are carried as opaque bit patterns: the server never looks at
    them. *)
Record sensor_t := {
  name : string;
  vendor : string;
  version : Z;
  s_handle : Z;
  type : Z;
  maxRange : Z;
  resolution : Z;
  power : Z;
  minDelay : Z
}.

(** [struct sensors_strings_t]: two buffers of [SENSORS_CHARS_MAX] chars. *)
Record sensors_strings_t := {
  str_name : list Ascii.ascii;
  str_vendor : list Ascii.ascii
}.

(** [sensors_event_t]: only the [sensor] field is inspected. *)
Record sensors_event_t := {
  sensor : Z;
  timestamp : Z;
  payload : list Z
}.

(** [struct sensors_proxy_cmd].  The C struct ends in an anonymous union of
    [activate_enabled] (int32) and [set_delay_ns] (int64); a handler reads
    exactly one of the two views, chosen by [cmd]. *)
Record sensors_proxy_cmd := {
  cmd : Z;
  handle : Z;
  activate_enabled : Z;
  set_delay_ns : Z
}.

(** [struct smodule_client].  [sensor_enabled] is a [char] array that only
    ever holds 0 or 1. *)
Record smodule_client := {
  sock_fd : Z;
  client_sensors_enabled : Z;
  client_sensor_enabled : list bool;
  client_sensor_delay_ns : list Z
}.

(** [struct smodule], together with the heap of its clients. *)
Record smodule := {
  sensor_list : list sensor_t;
  sensor_count : Z;
  handle_last : Z;
  sensors_enabled : list Z;
  sensor_delay_ns : list Z;
  clients : list (option ptr);
  client_count : Z;
  heap : gmap ptr smodule_client;
  next_ptr : ptr
}.

Definition set_client_sensors_enabled (n : Z) (c : smodule_client) : smodule_client :=
  {| sock_fd := sock_fd c; client_sensors_enabled := n;
     client_sensor_enabled := client_sensor_enabled c;
     client_sensor_delay_ns := client_sensor_delay_ns c |}.

Definition set_client_sensor_enabled (l : list bool) (c : smodule_client) : smodule_client :=
  {| sock_fd := sock_fd c; client_sensors_enabled := client_sensors_enabled c;
     client_sensor_enabled := l;
     client_sensor_delay_ns := client_sensor_delay_ns c |}.

Definition set_client_sensor_delay_ns (l : list Z) (c : smodule_client) : smodule_client :=
  {| sock_fd := sock_fd c; client_sensors_enabled := client_sensors_enabled c;
     client_sensor_enabled := client_sensor_enabled c;
     client_sensor_delay_ns := l |}.

Definition set_sensors_enabled (l : list Z) (s : smodule) : smodule :=
  {| sensor_list := sensor_list s; sensor_count := sensor_count s;
     handle_last := handle_last s; sensors_enabled := l;
     sensor_delay_ns := sensor_delay_ns s; clients := clients s;
     client_count := client_count s; heap := heap s; next_ptr := next_ptr s |}.

Definition set_sensor_delay_ns (l : list Z) (s : smodule) : smodule :=
  {| sensor_list := sensor_list s; sensor_count := sensor_count s;
     handle_last := handle_last s; sensors_enabled := sensors_enabled s;
     sensor_delay_ns := l; clients := clients s;
     client_count := client_count s; heap := heap s; next_ptr := next_ptr s |}.

Definition set_registry (l : list (option ptr)) (n : Z) (s : smodule) : smodule :=
  {| sensor_list := sensor_list s; sensor_count := sensor_count s;
     handle_last := handle_last s; sensors_enabled := sensors_enabled s;
     sensor_delay_ns := sensor_delay_ns s; clients := l;
     client_count := n; heap := heap s; next_ptr := next_ptr s |}.

Definition set_heap (h : gmap ptr smodule_client) (s : smodule) : smodule :=
  {| sensor_list := sensor_list s; sensor_count := sensor_count s;
     handle_last := handle_last s; sensors_enabled := sensors_enabled s;
     sensor_delay_ns := sensor_delay_ns s; clients := clients s;
     client_count := client_count s; heap := h; next_ptr := next_ptr s |}.

Definition set_next_ptr (p : ptr) (s : smodule) : smodule :=
  {| sensor_list := sensor_list s; sensor_count := sensor_count s;
     handle_last := handle_last s; sensors_enabled := sensors_enabled s;
     sensor_delay_ns := sensor_delay_ns s; clients := clients s;
     client_count := client_count s; heap := heap s; next_ptr := p |}.

(** ** Actions on the outside world

    An action is a call made by the server, whether or not it succeeds;
    the [Send...] actions are the calls of [send] on the socket [fd] of
    the client [c]. *)

Inductive action :=
| DevActivate (h : Z) (enabled : Z)      (* device->activate *)
| DevSetDelay (h : Z) (ns : Z)           (* device->setDelay *)
| SendCount (c : ptr) (fd : Z) (n : Z)
| SendStrings (c : ptr) (fd : Z) (l : list sensors_strings_t)
| SendList (c : ptr) (fd : Z) (l : list sensor_t)
| SendEvent (c : ptr) (fd : Z) (ev : sensors_event_t)
| EpollAdd (fd : Z)
| EpollDel (fd : Z)
| Close (fd : Z).

(** ** The monad of the server: state, recorded actions, faults *)

Inductive fault := OutOfBounds | BadPointer | AssertFailed.

Inductive result (A : Type) :=
| Ok (a : A)
| Crash (f : fault).
Arguments Ok {A} a.
Arguments Crash {A} f.

#[export] Instance result_ret : MRet result := λ A x, Ok x.

#[export] Instance result_bind : MBind result := λ A B f r,
  match r with
  | Ok x => f x
  | Crash e => Crash e
  end.

Definition M (A : Type) : Type := smodule → result (A * smodule * list action).

#[export] Instance M_ret : MRet M := λ A x s, Ok (x, s, []).

#[export] Instance M_bind : MBind M := λ A B f m s,
  match m s with
  | Ok (x, s1, o1) =>
      match f x s1 with
      | Ok (y, s2, o2) => Ok (y, s2, o1 ++ o2)
      | Crash e => Crash e
      end
  | Crash e => Crash e
  end.

Definition get : M smodule := λ s, Ok (s, s, []).
Definition put (s : smodule) : M unit := λ _, Ok (tt, s, []).
Definition emit (a : action) : M unit := λ s, Ok (tt, s, [a]).
Definition crash {A} (f : fault) : M A := λ _, Crash f.

Definition lift {A} (r : result A) : M A := λ s,
  match r with Ok a => Ok (a, s, []) | Crash f => Crash f end.

(** Array access with the bounds of C made explicit. *)
Definition aget {A} (l : list A) (i : Z) : result A :=
  if 0 <=? i then
    match l !! Z.to_nat i with
    | Some x => Ok x
    | None => Crash OutOfBounds
    end
  else Crash OutOfBounds.

Definition aset {A} (l : list A) (i : Z) (x : A) : result (list A) :=
  if (0 <=? i) && (i <? Z.of_nat (length l)) then Ok (<[Z.to_nat i := x]> l)
  else Crash OutOfBounds.

(** Dereference of a client pointer. *)
Definition deref (c : ptr) : M smodule_client := λ s,
  match heap s !! c with
  | Some x => Ok (x, s, [])
  | None => Crash BadPointer
  end.

Definition store (c : ptr) (x : smodule_client) : M unit := λ s,
  Ok (tt, set_heap (<[c := x]> (heap s)) s, []).

(** [for (i = lo; i < hi; i++) body(i)] without [break]. *)
Fixpoint mfor (l : list Z) (body : Z → M unit) : M unit :=
  match l with
  | [] => mret tt
  | i :: l' => body i ;; mfor l' body
  end.

(** The environment of one [accept]ed connection: the descriptor returned
    by [accept] (negative on failure), whether each [calloc] succeeds, and
    whether the k-th [send] of the handshake succeeds. *)
Record accept_env := {
  accept_fd : Z;
  calloc_client_ok : bool;
  calloc_enabled_ok : bool;
  calloc_delay_ok : bool;
  send_ok : nat → bool
}.

(** What [recv] delivers for one command record. *)
Inductive recv_outcome :=
| Received (c : sensors_proxy_cmd)
| RecvError (errno : Z)      (* recv returned a negative value *)
| PeerShutdown.              (* recv returned 0 *)

(** An epoll event on a client socket: [EPOLLIN] with what the read gives,
    or an event without [EPOLLIN], for which the code looks at the value
    [errno] happens to hold. *)
Inductive client_event :=
| EvIn (r : recv_outcome)
| EvOther (errno : Z).

(** [recv_all]: the command, or the [errno] left for the caller. *)
Definition recv_all (r : recv_outcome) : sensors_proxy_cmd + Z :=
  match r with
  | Received c => inl c
  | RecvError e => inr e
  | PeerShutdown => inr ECONNRESET   (* handle orderly shutdown as error *)
  end.

(** [strncpy(dst, src, n)]: at most [n] chars, padded with NUL. *)
Definition strncpy (src : string) (n : nat) : list Ascii.ascii :=
  take n (String.list_ascii_of_string src ++ replicate n Ascii.zero).

Section Server.

(** [ALOG_ASSERT] of [cutils/log.h] aborts when the condition fails in a
    build with assertions and expands to nothing otherwise. *)
Variable log_assert : bool.

Definition ALOG_ASSERT (cond : bool) : M unit :=
  if log_assert && negb cond then crash AssertFailed else mret tt.

(** ** [smodule_client_send_list] *)

Definition sensor_strings (s : sensor_t) : sensors_strings_t :=
  {| str_name := strncpy (name s) SENSORS_CHARS_MAX;
     str_vendor := strncpy (vendor s) SENSORS_CHARS_MAX |}.

Definition smodule_client_send_list (ok : nat → bool) (client : ptr) : M Z :=
  c ← deref client;
  smod ← get;
  (* First we send the number of sensors *)
  emit (SendCount client (sock_fd c) (sensor_count smod));;
  if negb (ok 0%nat) then mret (-1) else
  (* Next we extract and send the name and vendor strings *)
  sl ← lift (mapM (aget (sensor_list smod)) (seqZ 0 (sensor_count smod)));
  emit (SendStrings client (sock_fd c) (sensor_strings <$> sl));;
  if negb (ok 1%nat) then mret (-1) else
  (* Finally we send the sensor list *)
  emit (SendList client (sock_fd c) sl);;
  if negb (ok 2%nat) then mret (-1) else
  mret 0.

(** ** [smodule_client_update_delay] *)

Fixpoint delay_min_loop (smod : smodule) (handle : Z) (idx : list Z)
    (delay_min : Z) : result Z :=
  match idx with
  | [] => Ok delay_min
  | i :: idx' =>
      p ← aget (clients smod) i;
      match p ≫= (heap smod !!.) with
      | None => Crash BadPointer
      | Some c =>
          delay ← aget (client_sensor_delay_ns c) handle;
          en ← aget (client_sensor_enabled c) handle;
          delay_min_loop smod handle idx'
            (if (en : bool) && (0 <? delay) && (delay <? delay_min)
             then delay else delay_min)
      end
  end.

Definition smodule_client_update_delay (client : ptr) (handle : Z) : M unit :=
  _ ← deref client;
  smod ← get;
  ALOG_ASSERT ((0 <=? handle) && (handle <=? handle_last smod));;
  (* Find the lowest delay value specified by the client(s) *)
  delay_min ← lift (delay_min_loop smod handle (seqZ 0 (client_count smod)) LLONG_MAX);
  if delay_min =? LLONG_MAX then mret tt
  else
    cur ← lift (aget (sensor_delay_ns smod) handle);
    if (cur =? 0) || negb (delay_min =? cur) then
      l ← lift (aset (sensor_delay_ns smod) handle delay_min);
      put (set_sensor_delay_ns l smod);;
      emit (DevSetDelay handle delay_min)
    else mret tt.

(** ** [smodule_client_update_activate]

    The function ends with a loop that only logs the enabled sensors; it is
    left out. *)

Definition smodule_client_update_activate (client : ptr) (handle : Z)
    (activate_enabled : Z) : M unit :=
  c ← deref client;
  smod ← get;
  ALOG_ASSERT ((0 <=? handle) && (handle <=? handle_last smod));;
  enabled_count ← lift (aget (sensors_enabled smod) handle);
  enabled ← lift (aget (client_sensor_enabled c) handle);
  do_activate ←
    (if negb (activate_enabled =? 0) then
       if (enabled : bool) then mret None  (* nop *)
       else
         en' ← lift (aset (client_sensor_enabled c) handle true);
         store client (set_client_sensor_enabled en'
                         (set_client_sensors_enabled (client_sensors_enabled c + 1) c));;
         cnt' ← lift (aset (sensors_enabled smod) handle (enabled_count + 1));
         s ← get; put (set_sensors_enabled cnt' s);;
         mret (Some (enabled_count =? 0))    (* enable sensor *)
     else
       if negb enabled then mret None  (* nop *)
       else
         en' ← lift (aset (client_sensor_enabled c) handle false);
         store client (set_client_sensor_enabled en'
                         (set_client_sensors_enabled (client_sensors_enabled c - 1) c));;
         cnt' ← lift (aset (sensors_enabled smod) handle (enabled_count - 1));
         s ← get; put (set_sensors_enabled cnt' s);;
         mret (Some (enabled_count - 1 =? 0)));  (* disable sensor *)
  match do_activate with
  | Some true =>
      emit (DevActivate handle activate_enabled);;
      (* Re-set the delay when the sensor is activated. *)
      if negb (activate_enabled =? 0) then
        delay ← lift (aget (sensor_delay_ns smod) handle);
        if negb (delay =? 0) then emit (DevSetDelay handle delay) else mret tt
      else mret tt
  | _ => mret tt
  end.

(** ** [smodule_add_client] and [smodule_remove_client] *)

Fixpoint first_free (cl : list (option ptr)) (idx : list Z) : result (option Z) :=
  match idx with
  | [] => Ok None
  | i :: idx' =>
      p ← aget cl i;
      match p with
      | None => Ok (Some i)
      | Some _ => first_free cl idx'
      end
  end.

Definition smodule_add_client (client : ptr) : M Z :=
  smod ← get;
  slot ← lift (first_free (clients smod) (seqZ 0 (Z.of_nat SMODULE_CLIENT_MAX)));
  err ← match slot with
        | Some i =>
            cl ← lift (aset (clients smod) i (Some client));
            put (set_registry cl (i + 1) smod);;
            mret 0
        | None => mret (-1)
        end;
  (* ALOGE_IF(err, "couldn't add client"); *)
  mret (-1).

Fixpoint find_client (cl : list (option ptr)) (client : ptr) (idx : list Z)
    : result (option Z) :=
  match idx with
  | [] => Ok None
  | i :: idx' =>
      p ← aget cl i;
      if decide (p = Some client) then Ok (Some i)
      else find_client cl client idx'
  end.

Fixpoint shift_clients (idx : list Z) (cl : list (option ptr))
    : result (list (option ptr)) :=
  match idx with
  | [] => Ok cl
  | j :: idx' =>
      x ← aget cl (j + 1);
      cl' ← aset cl j x;
      shift_clients idx' cl'
  end.

Definition smodule_remove_client (client : ptr) : M Z :=
  smod ← get;
  pos ← lift (find_client (clients smod) client (seqZ 0 (client_count smod)));
  match pos with
  | Some i =>
      let n := client_count smod - 1 in
      cl ← lift (shift_clients (seqZ i (n - i)) (clients smod));
      cl' ← lift (aset cl n None);
      put (set_registry cl' n smod);;
      mret 0
  | None => mret (-1)
  end.

(** ** [smodule_client_new] and [smodule_client_free] *)

Definition new_client (fd : Z) (n : nat) : smodule_client :=
  {| sock_fd := fd; client_sensors_enabled := 0;
     client_sensor_enabled := replicate n false;
     client_sensor_delay_ns := replicate n 0 |}.

Definition smodule_client_new (env : accept_env) : M (option ptr) :=
  let fd := accept_fd env in
  if fd <? 0 then mret None
  else if negb (calloc_client_ok env && calloc_enabled_ok env && calloc_delay_ok env)
  then emit (Close fd);; mret None
  else
    smod ← get;
    let client := next_ptr smod in
    put (set_next_ptr (S client)
           (set_heap (<[client := new_client fd (Z.to_nat (handle_last smod + 1))]>
                        (heap smod)) smod));;
    emit (EpollAdd fd);;
    err ← smodule_client_send_list (send_ok env) client;
    mret (Some client).

(** The loop of [smodule_client_free] over the handles. *)
Definition free_loop (client : ptr) (hs : list Z) : M unit :=
  mfor hs (λ i,
    c ← deref client;
    en ← lift (aget (client_sensor_enabled c) i);
    if (en : bool) then smodule_client_update_activate client i 0 else mret tt).

Definition smodule_client_free (client : ptr) : M Z :=
  c0 ← deref client;
  smod ← get;
  (* First disable sensors if necessary *)
  free_loop client (seqZ 0 (handle_last smod + 1));;
  emit (EpollDel (sock_fd c0));;
  smodule_remove_client client;;
  s ← get;
  put (set_heap (delete client (heap s)) s);;
  mret 0.

(** ** [smodule_client_handle_event] *)

Definition handle_cmd (client : ptr) (c : sensors_proxy_cmd) : M unit :=
  if cmd c =? SENSORS_PROXY_CMD_ACTIVATE then
    smodule_client_update_activate client (handle c) (activate_enabled c);;
    (* We also may need to update the sensor delay *)
    smodule_client_update_delay client (handle c)
  else if cmd c =? SENSORS_PROXY_CMD_SET_DELAY then
    (* First store the clients delay setting *)
    x ← deref client;
    l ← lift (aset (client_sensor_delay_ns x) (handle c) (set_delay_ns c));
    store client (set_client_sensor_delay_ns l x);;
    smodule_client_update_delay client (handle c)
  else mret tt.

Definition smodule_client_handle_event (client : ptr) (ev : client_event) : M unit :=
  match ev with
  | EvIn r =>
      match recv_all r with
      | inr errno =>
          if errno =? ECONNRESET then
            (* Peer resetted the connection, remove client and clean up *)
            smodule_client_free client;; mret tt
          else mret tt  (* only logged *)
      | inl c => handle_cmd client c
      end
  | EvOther errno =>
      if errno =? ECONNRESET then smodule_client_free client;; mret tt
      else mret tt
  end.

(** ** One round of [smodule_poll_thread] *)

Fixpoint send_events (fails : ptr → Z → bool) (client : ptr) (c : smodule_client)
    (events : list sensors_event_t) (idx : list Z) : M unit :=
  match idx with
  | [] => mret tt
  | j :: idx' =>
      ev ← lift (aget events j);
      en ← lift (aget (client_sensor_enabled c) (sensor ev));
      if (en : bool) then
        emit (SendEvent client (sock_fd c) ev);;
        if fails client j then mret tt  (* break *)
        else send_events fails client c events idx'
      else send_events fails client c events idx'
  end.

Definition smodule_poll_round (n : Z) (events : list sensors_event_t)
    (fails : ptr → Z → bool) : M unit :=
  if n <=? 0 then mret tt  (* sensor poll failed *)
  else
    smod ← get;
    (* Policy: send sensor data to clients with at least one sensor enabled *)
    mfor (seqZ 0 (client_count smod)) (λ i,
      p ← lift (aget (clients smod) i);
      match p with
      | None => crash BadPointer
      | Some client =>
          c ← deref client;
          if client_sensors_enabled c <=? 0 then mret tt
          else send_events fails client c events (seqZ 0 n)
      end).

(** ** [smodule_handle_event] and the two loops *)

Definition smodule_handle_event (epollin : bool) (env : accept_env) : M unit :=
  if epollin then
    client ← smodule_client_new env;
    match client with
    | Some c => smodule_add_client c;; mret tt
    | None => mret tt
    end
  else mret tt.

(** What happens next: an epoll event of the listening socket, an epoll
    event of a client socket, or a return of the device's [poll]. *)
Inductive input :=
| InListen (epollin : bool) (env : accept_env)
| InClient (client : ptr) (ev : client_event)
| InPoll (n : Z) (events : list sensors_event_t) (fails : ptr → Z → bool).

Definition step (i : input) : M unit :=
  match i with
  | InListen epollin env => smodule_handle_event epollin env
  | InClient client ev => smodule_client_handle_event client ev
  | InPoll n events fails => smodule_poll_round n events fails
  end.

(** A run of the server; the actions of each input are kept apart. *)
Fixpoint run (ins : list input) (s : smodule) : result (smodule * list (list action)) :=
  match ins with
  | [] => Ok (s, [])
  | i :: ins' =>
      '(_, s1, o) ← step i s;
      '(s2, os) ← run ins' s1;
      Ok (s2, o :: os)
  end.

End Server.

(** ** [smodule_new]: the state after start-up *)

Definition last_handle (sl : list sensor_t) : Z :=
  fold_left (λ hl s, if hl <? s_handle s then s_handle s else hl) sl 0.

Definition smodule_new (sl : list sensor_t) : option smodule :=
  if Z.of_nat (length sl) <=? 0 then None
  else
    let hl := last_handle sl in
    Some {| sensor_list := sl; sensor_count := Z.of_nat (length sl);
            handle_last := hl;
            sensors_enabled := replicate (Z.to_nat (hl + 1)) 0;
            sensor_delay_ns := replicate (Z.to_nat (hl + 1)) 0;
            clients := replicate SMODULE_CLIENT_MAX None;
            client_count := 0; heap := ∅; next_ptr := 1%nat |}.

(** ** The paths of [smodule_new]

    [smodule_new] acquires its resources one after the other and leaves
    through a chain of labels when a step fails.  The trace below records
    what is acquired and what is released, in the order of the code. *)

Module Boot.

Inductive resource :=
| RSmod          (* calloc of the struct smodule *)
| RDevice        (* sensors_open / sensors_close *)
| REnabled       (* calloc of sensors_enabled *)
| RDelay         (* calloc of sensor_delay_ns *)
| REpoll         (* epoll_create / close *)
| RSock          (* socket / close *)
| RMutex         (* pthread_mutex_init *)
| RThread.       (* pthread_create / pthread_join *)

Inductive sys :=
| Acquire (r : resource)
| Release (r : resource).

(** What each step of [smodule_new] meets. *)
Record env := {
  calloc_smod_ok : bool;
  hw_get_module_ok : bool;
  sensors_open_ok : bool;
  sensors : list sensor_t;          (* get_sensors_list *)
  calloc_sensors_enabled_ok : bool;
  calloc_sensor_delay_ns_ok : bool;
  epoll_create_ok : bool;
  socket_ok : bool;
  bind_ok : bool;
  listen_ok : bool;
  epoll_add_fd_ok : bool;
  pthread_mutex_init_ok : bool;
  pthread_create_ok : bool
}.

(** The labels at the end of [smodule_new]; each falls through to the
    next.  [free] of a pointer that was never set frees nothing, but is
    recorded. *)
Definition err_calloc_smod : list sys := [Release RSmod].
Definition err_sensors_open : list sys := Release RDevice :: err_calloc_smod.
Definition err_calloc_sensor_delay_ns : list sys := Release RDelay :: err_sensors_open.
Definition err_calloc_sensors_enabled : list sys :=
  Release REnabled :: err_calloc_sensor_delay_ns.
Definition err_epoll_create : list sys := Release REpoll :: err_calloc_sensors_enabled.
Definition err_socket : list sys := Release RSock :: err_epoll_create.

(** [smodule_new], lines 494-631: the state of the server, or [None] for
    [NULL], and the trace. *)
Definition smodule_new (e : env) : option smodule * list sys :=
  if negb (calloc_smod_ok e) then (None, [])
  else if negb (hw_get_module_ok e) then (None, [Acquire RSmod])   (* return NULL *)
  else if negb (sensors_open_ok e) then (None, [Acquire RSmod] ++ err_calloc_smod)
  else
    match smodule_new (sensors e) with
    | None => (None, [Acquire RSmod; Acquire RDevice] ++ err_sensors_open)
    | Some s =>
        if negb (calloc_sensors_enabled_ok e) then
          (None, [Acquire RSmod; Acquire RDevice] ++ err_sensors_open)
        else if negb (calloc_sensor_delay_ns_ok e) then
          (None, [Acquire RSmod; Acquire RDevice; Acquire REnabled]
                 ++ err_calloc_sensors_enabled)
        else if negb (epoll_create_ok e) then
          (None, [Acquire RSmod; Acquire RDevice; Acquire REnabled; Acquire RDelay]
                 ++ err_calloc_sensor_delay_ns)
        else if negb (socket_ok e) then
          (None, [Acquire RSmod; Acquire RDevice; Acquire REnabled; Acquire RDelay;
                  Acquire REpoll] ++ err_epoll_create)
        else if negb (bind_ok e) || negb (listen_ok e) || negb (epoll_add_fd_ok e)
                || negb (pthread_mutex_init_ok e) then
          (None, [Acquire RSmod; Acquire RDevice; Acquire REnabled; Acquire RDelay;
                  Acquire REpoll; Acquire RSock] ++ err_socket)
        else if negb (pthread_create_ok e) then
          (None, [Acquire RSmod; Acquire RDevice; Acquire REnabled; Acquire RDelay;
                  Acquire REpoll; Acquire RSock; Acquire RMutex] ++ err_socket)
        else
          (Some s, [Acquire RSmod; Acquire RDevice; Acquire REnabled; Acquire RDelay;
                    Acquire REpoll; Acquire RSock; Acquire RMutex; Acquire RThread])
    end.

End Boot.

(** * The client: a shallow embedding of [sensors-client.cpp]

    The client is the sensors HAL module of the guest.  Its constructor
    connects to the server and reads the handshake; [activate] and
    [setDelay] send one command record each; [pollEvents] reads events.
    Memory that [recv] fills is a list of bytes; what [recv] returns comes
    from the environment, one entry per call. *)

Module Client.

Definition SENSORS_MAX : nat := 32.

(** [sizeof(struct sensors_strings_t)]: two [char] arrays, no padding. *)
Definition sizeof_strings : nat := 2 * SENSORS_CHARS_MAX.

(** System calls of the client. *)
Inductive call :=
| SysSocket
| SysConnect (fd : Z)
| SysRecv (fd : Z) (room : nat)
| SysSend (fd : Z) (c : sensors_proxy_cmd)
| SysClose (fd : Z).

(** What one call of [recv] gives: the bytes of a record (none for an
    orderly shutdown of the peer), or a negative value with [errno]. *)
Inductive recv_ret :=
| Chunk (bs : list Ascii.ascii)
| Fail (errno : Z).

(** [recv(fd, buf, room, 0)]: the value returned and the bytes written.
    At most [room] bytes are written; the rest of a longer record is
    lost. *)
Definition recv (r : recv_ret) (room : nat) : Z * list Ascii.ascii :=
  match r with
  | Chunk bs => (Z.of_nat (length (take room bs)), take room bs)
  | Fail _ => (-1, [])
  end.

(** [recv_all], the loop of lines 96-113 (and of lines 82-100 of the
    server).  [buf] holds the [done] bytes read so far.  The result is the
    value returned, the [errno] left for the caller, the bytes written,
    the calls made and the entries of the environment not consumed;
    [None] when the environment is used up while the loop still waits. *)
Fixpoint recv_all (fd : Z) (rets : list recv_ret) (len : nat) (buf : list Ascii.ascii)
  : option (Z * option Z * list Ascii.ascii * list call * list recv_ret) :=
  if (length buf <? len)%nat then
    match rets with
    | [] => None
    | r :: rets' =>
        let room := (len - length buf)%nat in
        let '(n, bs) := recv r room in
        if n <=? 0 then
          Some (-1, Some (match r with Fail e => e | Chunk _ => ECONNRESET end),
                buf, [SysRecv fd room], rets')
        else
          match recv_all fd rets' len (buf ++ bs) with
          | Some (ret, e, buf', cs, rest) => Some (ret, e, buf', SysRecv fd room :: cs, rest)
          | None => None
          end
    end
  else Some (0, None, buf, [], rets).

(** The memory of the client: the member [sock_fd], the static
    [sensors_count] as its four bytes, the member [sensors_strings_list]
    and the static [sensors_list] as bytes, and the pairs of offsets into
    [sensors_strings_list] that the constructor stores as [name] and
    [vendor] of each descriptor. *)
Record sensors_poll_context_t := {
  sock_fd : Z;
  sensors_count_bytes : list Ascii.ascii;
  sensors_strings_list : list Ascii.ascii;
  sensors_list : list Ascii.ascii;
  string_ptrs : list (nat * nat)
}.

Definition set_sock_fd (fd : Z) (x : sensors_poll_context_t) : sensors_poll_context_t :=
  {| sock_fd := fd; sensors_count_bytes := sensors_count_bytes x;
     sensors_strings_list := sensors_strings_list x;
     sensors_list := sensors_list x; string_ptrs := string_ptrs x |}.

(** A 32-bit [int] from its bytes, little endian, two's complement. *)
Definition wrap32 (z : Z) : Z := (z + 2 ^ 31) mod 2 ^ 32 - 2 ^ 31.

Definition int_of_bytes (bs : list Ascii.ascii) : Z :=
  wrap32 (fold_right (λ b acc, Z.of_N (Ascii.N_of_ascii b) + 256 * acc) 0 bs).

Definition sensors_count (x : sensors_poll_context_t) : Z :=
  int_of_bytes (sensors_count_bytes x).

(** [sensors__get_sensors_list] returns the static count. *)
Definition sensors__get_sensors_list (x : sensors_poll_context_t) : Z := sensors_count x.

(** Bytes [buf] written at the start of the memory [mem]. *)
Definition overwrite (buf mem : list Ascii.ascii) : list Ascii.ascii :=
  buf ++ drop (length buf) mem.

(** The result of [sizeof(...) * sensors_count] as a [size_t] of [width]
    bits. *)
Definition size_t (width : Z) (z : Z) : nat := Z.to_nat (z mod 2 ^ width).

(** Offsets of [sensors_strings_list[i].name] and [.vendor]. *)
Definition name_ptr (i : nat) : nat := (sizeof_strings * i)%nat.
Definition vendor_ptr (i : nat) : nat := (sizeof_strings * i + SENSORS_CHARS_MAX)%nat.

(** The C string that starts at the head of [mem]: the chars before the
    first NUL; [None] when [mem] ends before a NUL is found. *)
Fixpoint c_string (mem : list Ascii.ascii) : option (list Ascii.ascii) :=
  match mem with
  | [] => None
  | a :: mem' =>
      if Ascii.eqb a Ascii.zero then Some []
      else match c_string mem' with
           | Some l => Some (a :: l)
           | None => None
           end
  end.

(** The name and the vendor of descriptor [i], as a reader of the
    pointers stored by the constructor sees them. *)
Definition name_of (x : sensors_poll_context_t) (i : nat) : option (list Ascii.ascii) :=
  match string_ptrs x !! i with
  | Some (n, _) => c_string (drop n (sensors_strings_list x))
  | None => None
  end.

Definition vendor_of (x : sensors_poll_context_t) (i : nat) : option (list Ascii.ascii) :=
  match string_ptrs x !! i with
  | Some (_, v) => c_string (drop v (sensors_strings_list x))
  | None => None
  end.

Section Constructor.

(** [sizeof(struct sensor_t)] and the width of [size_t] depend on the
    target. *)
Variable sizeof_sensor_t : nat.
Variable width : Z.

(** A [recv_all] into an array of [cap] bytes: writing past the array is a
    fault, whether or not the read succeeds in the end. *)
Definition recv_into (fd : Z) (rets : list recv_ret) (len cap : nat)
  : option (result (Z * list Ascii.ascii * list call * list recv_ret)) :=
  match recv_all fd rets len [] with
  | Some (ret, _, buf, cs, rest) =>
      if (length buf <=? cap)%nat then Some (Ok (ret, buf, cs, rest))
      else Some (Crash OutOfBounds)
  | None => None
  end.

(** The constructor of [sensors_poll_context_t], lines 117-181.
    [socket_ret] and [connect_ret] are what [socket] and [connect] return;
    [x] is the memory before the call. *)
Definition constructor (socket_ret connect_ret : Z) (rets : list recv_ret)
    (x : sensors_poll_context_t)
  : option (result (sensors_poll_context_t * list call * list recv_ret)) :=
  let fd := socket_ret in
  if fd <? 0 then Some (Ok (set_sock_fd fd x, [SysSocket], rets))
  else if negb (connect_ret =? 0) then
    Some (Ok (set_sock_fd (-1) x, [SysSocket; SysConnect fd; SysClose fd], rets))
  else
    match recv_into fd rets 4 4 with
    | None => None
    | Some (Crash f) => Some (Crash f)
    | Some (Ok (ret1, b1, cs1, rets1)) =>
        let x1 := {| sock_fd := fd;
                     sensors_count_bytes := overwrite b1 (sensors_count_bytes x);
                     sensors_strings_list := sensors_strings_list x;
                     sensors_list := sensors_list x;
                     string_ptrs := string_ptrs x |} in
        if negb (ret1 =? 0) then
          Some (Ok (set_sock_fd (-1) x1,
                    [SysSocket; SysConnect fd] ++ cs1 ++ [SysClose fd], rets1))
        else
          let n := sensors_count x1 in
          match recv_into fd rets1 (size_t width (Z.of_nat sizeof_strings * n))
                  (sizeof_strings * SENSORS_MAX) with
          | None => None
          | Some (Crash f) => Some (Crash f)
          | Some (Ok (ret2, b2, cs2, rets2)) =>
              let x2 := {| sock_fd := fd;
                           sensors_count_bytes := sensors_count_bytes x1;
                           sensors_strings_list := overwrite b2 (sensors_strings_list x1);
                           sensors_list := sensors_list x1;
                           string_ptrs := string_ptrs x1 |} in
              if negb (ret2 =? 0) then
                Some (Ok (set_sock_fd (-1) x2,
                          [SysSocket; SysConnect fd] ++ cs1 ++ cs2 ++ [SysClose fd], rets2))
              else
                match recv_into fd rets2 (size_t width (Z.of_nat sizeof_sensor_t * n))
                        (sizeof_sensor_t * SENSORS_MAX) with
                | None => None
                | Some (Crash f) => Some (Crash f)
                | Some (Ok (ret3, b3, cs3, rets3)) =>
                    let x3 := {| sock_fd := fd;
                                 sensors_count_bytes := sensors_count_bytes x2;
                                 sensors_strings_list := sensors_strings_list x2;
                                 sensors_list := overwrite b3 (sensors_list x2);
                                 string_ptrs := string_ptrs x2 |} in
                    if negb (ret3 =? 0) then
                      Some (Ok (set_sock_fd (-1) x3,
                                [SysSocket; SysConnect fd] ++ cs1 ++ cs2 ++ cs3 ++ [SysClose fd],
                                rets3))
                    else if Z.of_nat SENSORS_MAX <? n then
                      (* for (i = 0; i < sensors_count; i++): the store to
                         sensors_list[i] leaves the array at i = SENSORS_MAX *)
                      Some (Crash OutOfBounds)
                    else
                      Some (Ok ({| sock_fd := fd;
                                   sensors_count_bytes := sensors_count_bytes x3;
                                   sensors_strings_list := sensors_strings_list x3;
                                   sensors_list := sensors_list x3;
                                   string_ptrs :=
                                     (λ i, (name_ptr i, vendor_ptr i)) <$> seq 0 (Z.to_nat n) |},
                                [SysSocket; SysConnect fd] ++ cs1 ++ cs2 ++ cs3, rets3))
                end
          end
    end.

End Constructor.

(** The destructor, lines 183-188. *)
Definition destructor (x : sensors_poll_context_t) : list call :=
  if 0 <=? sock_fd x then [SysClose (sock_fd x)] else [].

(** [activate], lines 190-206.  The record ends in a union: [stale] is
    what the [set_delay_ns] view of it holds after [activate_enabled] was
    stored.  The value returned by [send] is only logged. *)
Definition activate (stale : Z) (h enabled : Z) (x : sensors_poll_context_t) : Z * list call :=
  if 0 <=? sock_fd x then
    (0, [SysSend (sock_fd x)
           {| cmd := SENSORS_PROXY_CMD_ACTIVATE; handle := h;
              activate_enabled := enabled; set_delay_ns := stale |}])
  else (0, []).

(** [setDelay], lines 208-226.  The [activate_enabled] view of the union
    is the low half of [ns]. *)
Definition setDelay (h ns : Z) (x : sensors_poll_context_t) : Z * list call :=
  if 0 <=? sock_fd x then
    (0, [SysSend (sock_fd x)
           {| cmd := SENSORS_PROXY_CMD_SET_DELAY; handle := h;
              activate_enabled := wrap32 ns; set_delay_ns := ns |}])
  else (0, []).

Section PollEvents.

(** [sizeof(sensors_event_t)]. *)
Variable sizeof_event : nat.

(** The [do ... while] loop of [pollEvents]: whether it ended without a
    failed [recv], the bytes written to [data], the calls and the rest of
    the environment. *)
Fixpoint poll_loop (fd : Z) (rets : list recv_ret) (size : nat) (buf : list Ascii.ascii)
  : option (bool * list Ascii.ascii * list call * list recv_ret) :=
  match rets with
  | [] => None
  | r :: rets' =>
      let room := (size - length buf)%nat in
      let '(ret, bs) := recv r room in
      if ret <=? 0 then Some (false, buf, [SysRecv fd room; SysClose fd], rets')
      else
        let buf' := buf ++ bs in
        if (length buf' mod sizeof_event =? 0)%nat then
          Some (true, buf', [SysRecv fd room], rets')
        else
          match poll_loop fd rets' size buf' with
          | Some (ok, d, cs, rest) => Some (ok, d, SysRecv fd room :: cs, rest)
          | None => None
          end
  end.

(** [pollEvents(data, count)], lines 228-255, for a [count] that is not
    negative: the value returned, the memory of the client, the bytes
    written to [data], the calls and the rest of the environment. *)
Definition pollEvents (count : nat) (rets : list recv_ret) (x : sensors_poll_context_t)
  : option (Z * sensors_poll_context_t * list Ascii.ascii * list call * list recv_ret) :=
  if 0 <=? sock_fd x then
    match poll_loop (sock_fd x) rets (sizeof_event * count) [] with
    | Some (ok, d, cs, rest) =>
        Some (Z.of_nat (length d / sizeof_event),
              if ok then x else set_sock_fd (-1) x, d, cs, rest)
    | None => None
    end
  else Some (0, x, [], [], rets).

(** A request of the HAL user to the client. *)
Inductive request :=
| Activate (stale : Z) (h enabled : Z)
| SetDelay (h ns : Z)
| PollEvents (count : nat)
| Query
| Batch.

(** One request: the value returned, the memory, the calls and the rest
    of the environment.  [query] and [batch] only return 0. *)
Definition serve (q : request) (rets : list recv_ret) (x : sensors_poll_context_t)
  : option (Z * sensors_poll_context_t * list call * list recv_ret) :=
  match q with
  | Activate stale h en => let '(r, cs) := activate stale h en x in Some (r, x, cs, rets)
  | SetDelay h ns => let '(r, cs) := setDelay h ns x in Some (r, x, cs, rets)
  | PollEvents count =>
      match pollEvents count rets x with
      | Some (r, x', _, cs, rest) => Some (r, x', cs, rest)
      | None => None
      end
  | Query | Batch => Some (0, x, [], rets)
  end.

(** A sequence of requests: the values returned and the calls of each. *)
Fixpoint serve_all (qs : list request) (rets : list recv_ret) (x : sensors_poll_context_t)
  : option (list Z * sensors_poll_context_t * list (list call)) :=
  match qs with
  | [] => Some ([], x, [])
  | q :: qs' =>
      match serve q rets x with
      | Some (r, x', cs, rest) =>
          match serve_all qs' rest x' with
          | Some (rs, x'', css) => Some (r :: rs, x'', cs :: css)
          | None => None
          end
      | None => None
      end
  end.

End PollEvents.

End Client.

(** * Specification

    Well-formed states, the closed forms of the operations and the notions
    the properties are stated with. *)

(** ** Well-formed states

    The per-handle arrays have [handle_last + 1] fields, the registry has
    [SMODULE_CLIENT_MAX] slots of which the first [client_count] hold
    distinct live clients, and the allocator has never handed out a
    pointer at or above [next_ptr]. *)

Definition nfields (s : smodule) : nat := Z.to_nat (handle_last s + 1).

(** The layout of a well-formed registry holding the clients [cs]. *)
Definition slots (cs : list ptr) : list (option ptr) :=
  (Some <$> cs) ++ replicate (SMODULE_CLIENT_MAX - length cs) None.

Record wf_client (n : nat) (c : smodule_client) : Prop := {
  wf_c_enabled : length (client_sensor_enabled c) = n;
  wf_c_delay : length (client_sensor_delay_ns c) = n
}.

Record wf (s : smodule) : Prop := {
  wf_handle_last : 0 ≤ handle_last s;
  wf_sensors : sensor_count s = Z.of_nat (length (sensor_list s));
  wf_enabled : length (sensors_enabled s) = nfields s;
  wf_delay : length (sensor_delay_ns s) = nfields s;
  wf_heap : ∀ p c, heap s !! p = Some c → wf_client (nfields s) c;
  wf_fresh : ∀ p, is_Some (heap s !! p) → (p < next_ptr s)%nat;
  wf_registry : ∃ cs : list ptr,
      clients s = slots cs
      ∧ NoDup cs ∧ (length cs ≤ SMODULE_CLIENT_MAX)%nat
      ∧ client_count s = Z.of_nat (length cs)
      ∧ ∀ p, p ∈ cs → is_Some (heap s !! p)
}.

Definition in_range (s : smodule) (h : Z) : Prop := 0 ≤ h ≤ handle_last s.

(** Reading the per-handle state. *)
Definition enabled_count (s : smodule) (h : Z) : Z :=
  default 0 (sensors_enabled s !! Z.to_nat h).

Definition effective_delay (s : smodule) (h : Z) : Z :=
  default 0 (sensor_delay_ns s !! Z.to_nat h).

Definition is_enabled (c : smodule_client) (h : Z) : bool :=
  default false (client_sensor_enabled c !! Z.to_nat h).

Definition requested_delay (c : smodule_client) (h : Z) : Z :=
  default 0 (client_sensor_delay_ns c !! Z.to_nat h).

(** ** Unfolding the monad *)

Ltac munfold :=
  unfold mbind, M_bind, result_bind, mret, M_ret, result_ret, get, put, emit,
    lift, deref, store, crash, ALOG_ASSERT in *.

Ltac munfoldM :=
  unfold mbind, M_bind, mret, M_ret, get, put, emit, lift, deref, store, crash,
    ALOG_ASSERT in *.

(** ** The operations in closed form

    What each operation returns in a well-formed state, as a function of
    the state; the lemmas below prove that the code computes this. *)

(** The record of a client after it enabled or disabled handle [h]. *)
Definition client_set_enabled (c : smodule_client) (h : Z) (b : bool) : smodule_client :=
  set_client_sensor_enabled (<[Z.to_nat h := b]> (client_sensor_enabled c))
    (set_client_sensors_enabled
       (client_sensors_enabled c + (if b then 1 else -1)) c).

(** A request is redundant when the session already is in the state asked
    for. *)
Definition redundant (c : smodule_client) (h v : Z) : bool :=
  eqb (is_enabled c h) (negb (v =? 0)).

(** State and device calls after [smodule_client_update_activate]. *)
Definition activate_post (p : ptr) (c : smodule_client) (h v : Z) (s : smodule) : smodule :=
  if redundant c h v then s
  else
    set_sensors_enabled
      (<[Z.to_nat h := enabled_count s h + (if v =? 0 then -1 else 1)]> (sensors_enabled s))
      (set_heap (<[p := client_set_enabled c h (negb (v =? 0))]> (heap s)) s).

Definition activate_calls (c : smodule_client) (h v : Z) (s : smodule) : list action :=
  if redundant c h v then []
  else if v =? 0 then
    (if enabled_count s h =? 1 then [DevActivate h v] else [])
  else if enabled_count s h =? 0 then
    DevActivate h v ::
      (if effective_delay s h =? 0 then [] else [DevSetDelay h (effective_delay s h)])
  else [].

(** The clients of the registry, in slot order. *)
Definition registered_ptrs (s : smodule) : list ptr :=
  omap id (take (Z.to_nat (client_count s)) (clients s)).

Definition registered (s : smodule) : list smodule_client :=
  omap (heap s !!.) (registered_ptrs s).

(** One round of the loop that looks for the lowest delay. *)
Definition delay_step (h : Z) (m : Z) (c : smodule_client) : Z :=
  if is_enabled c h && (0 <? requested_delay c h) && (requested_delay c h <? m)
  then requested_delay c h else m.

(** The value of [delay_min] after the loop, and what
    [smodule_client_update_delay] does with it. *)
Definition delay_min_of (s : smodule) (h : Z) : Z :=
  fold_left (delay_step h) (registered s) LLONG_MAX.

Definition delay_changes (s : smodule) (h : Z) : bool :=
  negb (delay_min_of s h =? LLONG_MAX)
  && ((effective_delay s h =? 0) || negb (delay_min_of s h =? effective_delay s h)).

Definition delay_post (h : Z) (s : smodule) : smodule :=
  if delay_changes s h
  then set_sensor_delay_ns (<[Z.to_nat h := delay_min_of s h]> (sensor_delay_ns s)) s
  else s.

Definition delay_calls (h : Z) (s : smodule) : list action :=
  if delay_changes s h then [DevSetDelay h (delay_min_of s h)] else [].

(** The registry after [smodule_add_client]. *)
Definition add_post (p : ptr) (cs : list ptr) (s : smodule) : smodule :=
  if decide (length cs < SMODULE_CLIENT_MAX)%nat
  then set_registry (slots (cs ++ [p])) (Z.of_nat (length cs) + 1) s
  else s.

(** The registry after [smodule_remove_client] found the client. *)
Definition remove_post (l1 l2 : list ptr) (s : smodule) : smodule :=
  set_registry (slots (l1 ++ l2)) (Z.of_nat (length (l1 ++ l2))) s.

(** The [send] calls of the handshake, up to the first that fails, and
    the result of [smodule_client_send_list]. *)
Definition handshake (ok : nat → bool) (p : ptr) (fd : Z) (s : smodule) : list action :=
  SendCount p fd (sensor_count s) ::
    (if ok 0%nat then
       SendStrings p fd (sensor_strings <$> sensor_list s) ::
         (if ok 1%nat then [SendList p fd (sensor_list s)] else [])
     else []).

Definition handshake_result (ok : nat → bool) : Z :=
  if ok 0%nat && ok 1%nat && ok 2%nat then 0 else -1.

Definition alloc_ok (env : accept_env) : bool :=
  calloc_client_ok env && calloc_enabled_ok env && calloc_delay_ok env.

(** The state after [smodule_client_new] allocated the client. *)
Definition new_post (env : accept_env) (s : smodule) : smodule :=
  set_next_ptr (S (next_ptr s))
    (set_heap (<[next_ptr s := new_client (accept_fd env) (nfields s)]> (heap s)) s).

(** The loop that disables the sensors of a departing client. *)
Fixpoint disable_handles (p : ptr) (hs : list Z) (s : smodule) : smodule * list action :=
  match hs with
  | [] => (s, [])
  | h :: hs' =>
      match heap s !! p with
      | Some c =>
          let '(s', o) := disable_handles p hs' (activate_post p c h 0 s) in
          (s', activate_calls c h 0 s ++ o)
      | None => (s, [])
      end
  end.

(** The change of [enabled_count] made by a request. *)
Definition count_delta (c : smodule_client) (h v : Z) : Z :=
  if redundant c h v then 0 else if v =? 0 then -1 else 1.

Definition activate_client (c : smodule_client) (h v : Z) : smodule_client :=
  if redundant c h v then c else client_set_enabled c h (negb (v =? 0)).

(** The calls made while the sensors of a client are disabled one by one. *)
Definition teardown_calls (c : smodule_client) (s : smodule) (hs : list Z) : list action :=
  hs ≫= (λ h, if is_enabled c h && (enabled_count s h =? 1)
               then [DevActivate h 0] else []).

(** The state after the sensors [hs] of client [p] were disabled. *)
Record disabled_all (p : ptr) (c : smodule_client) (hs : list Z) (s s' : smodule) : Prop := {
  da_wf : wf s';
  da_handle_last : handle_last s' = handle_last s;
  da_registry : clients s' = clients s ∧ client_count s' = client_count s;
  da_next : next_ptr s' = next_ptr s;
  da_delay : sensor_delay_ns s' = sensor_delay_ns s;
  da_sensors : sensor_list s' = sensor_list s ∧ sensor_count s' = sensor_count s;
  da_others : ∀ q, q ≠ p → heap s' !! q = heap s !! q;
  da_self : ∃ c', heap s' !! p = Some c' ∧ sock_fd c' = sock_fd c
        ∧ ∀ h, 0 ≤ h → is_enabled c' h
                      = is_enabled c h && negb (bool_decide (h ∈ hs));
  da_count : ∀ h, 0 ≤ h →
      enabled_count s' h
      = enabled_count s h - (if is_enabled c h && bool_decide (h ∈ hs) then 1 else 0)
}.

(** What [smodule_client_free] leaves behind: the client [p], whose record
    was [c], is gone from the heap and from the registry, the other
    clients keep their place, and every handle that [c] had enabled has
    lost one reference. *)
Record torn_down (p : ptr) (c : smodule_client) (s s' : smodule) : Prop := {
  td_wf : wf s';
  td_heap : heap s' = delete p (heap s);
  td_registry : registered_ptrs s' = filter (λ q, q ≠ p) (registered_ptrs s);
  td_count : ∀ h, in_range s h →
      enabled_count s' h = enabled_count s h - (if is_enabled c h then 1 else 0);
  td_handle_last : handle_last s' = handle_last s;
  td_delay : sensor_delay_ns s' = sensor_delay_ns s;
  td_next : next_ptr s' = next_ptr s
}.

Definition all_handles (s : smodule) : list Z := seqZ 0 (handle_last s + 1).

(** A sent event was wanted: the receiving client has the sensor of the
    event enabled. *)
Definition wanted (s : smodule) (a : action) : Prop :=
  match a with
  | SendEvent p fd ev =>
      ∃ c, heap s !! p = Some c ∧ fd = sock_fd c ∧ 0 ≤ sensor ev
           ∧ client_sensor_enabled c !! Z.to_nat (sensor ev) = Some true
  | _ => False
  end.

(** State and device calls after a command. *)
Definition store_delay (p : ptr) (c : smodule_client) (h d : Z) (s : smodule) : smodule :=
  set_heap (<[p := set_client_sensor_delay_ns
                     (<[Z.to_nat h := d]> (client_sensor_delay_ns c)) c]> (heap s)) s.

Definition cmd_post (p : ptr) (c : smodule_client) (x : sensors_proxy_cmd) (s : smodule)
    : smodule :=
  if cmd x =? SENSORS_PROXY_CMD_ACTIVATE then
    delay_post (handle x) (activate_post p c (handle x) (activate_enabled x) s)
  else if cmd x =? SENSORS_PROXY_CMD_SET_DELAY then
    delay_post (handle x) (store_delay p c (handle x) (set_delay_ns x) s)
  else s.

Definition cmd_calls (p : ptr) (c : smodule_client) (x : sensors_proxy_cmd) (s : smodule)
    : list action :=
  if cmd x =? SENSORS_PROXY_CMD_ACTIVATE then
    activate_calls c (handle x) (activate_enabled x) s
    ++ delay_calls (handle x) (activate_post p c (handle x) (activate_enabled x) s)
  else if cmd x =? SENSORS_PROXY_CMD_SET_DELAY then
    delay_calls (handle x) (store_delay p c (handle x) (set_delay_ns x) s)
  else [].

(** A command that names a handle. *)
Definition uses_handle (x : sensors_proxy_cmd) : bool :=
  (cmd x =? SENSORS_PROXY_CMD_ACTIVATE) || (cmd x =? SENSORS_PROXY_CMD_SET_DELAY).

(** The events on which the code tears the client down: a failed read or
    an event without [EPOLLIN], with [errno] equal to [ECONNRESET]. *)
Definition is_reset (ev : client_event) : bool :=
  match ev with
  | EvIn r => match recv_all r with inr e => e =? ECONNRESET | inl _ => false end
  | EvOther e => e =? ECONNRESET
  end.

Definition command_of (ev : client_event) : option sensors_proxy_cmd :=
  match ev with
  | EvIn (Received x) => Some x
  | _ => None
  end.

(** The state a run ends in (the start state if the run faults). *)
Definition after (la : bool) (ins : list input) (s : smodule) : smodule :=
  match run la ins s with
  | Ok (s', _) => s'
  | Crash _ => s
  end.

(** The actions of a run, input by input. *)
Definition actions_of (la : bool) (ins : list input) (s : smodule) : list (list action) :=
  match run la ins s with
  | Ok (_, os) => os
  | Crash _ => []
  end.

(** ** Notions of the delay aggregation property *)

(** The requests that take part in the aggregation for handle [h]: those
    of the registered sessions that have [h] enabled and whose requested
    delay is accepted by [counts]. *)
Definition asks (counts : Z → bool) (h : Z) (c : smodule_client) : bool :=
  is_enabled c h && counts (requested_delay c h).

Definition requests (counts : Z → bool) (s : smodule) (h : Z) : list Z :=
  (λ c, requested_delay c h) <$> filter (λ c, asks counts h c = true) (registered s).

Definition is_minimum (m : Z) (ds : list Z) : Prop :=
  m ∈ ds ∧ ∀ d, d ∈ ds → m ≤ d.

(** The policy of [update_delay], for a given notion of a request that
    counts: nothing happens without such a request; otherwise the minimum
    is pushed to the device and stored exactly when it differs from the
    stored delay or no delay was stored, and nothing else changes. *)
Definition update_delay_policy (counts : Z → bool) (la : bool) (s : smodule)
    (p : ptr) (h : Z) : Prop :=
  ∃ s' o,
    smodule_client_update_delay la p h s = Ok (tt, s', o)
    ∧ (requests counts s h = [] → s' = s ∧ o = [])
    ∧ ∀ m, is_minimum m (requests counts s h) →
        if decide (m ≠ effective_delay s h ∨ effective_delay s h = 0)
        then o = [DevSetDelay h m]
             ∧ s' = set_sensor_delay_ns (<[Z.to_nat h := m]> (sensor_delay_ns s)) s
        else o = [] ∧ s' = s.

(** A positive request, as the specification words it. *)
Definition positive (d : Z) : bool := 0 <? d.

(** A request the loop of the code can see: positive and below the
    sentinel [LLONG_MAX] it starts from. *)
Definition below_sentinel (d : Z) : bool := (0 <? d) && (d <? LLONG_MAX).

(** ** Example states and inputs *)

(** A device with three sensors, handles 0, 1 and 3. *)
Definition demo_sensor (h : Z) : sensor_t :=
  {| name := "accelerometer"; vendor := "acme"; version := 1; s_handle := h;
     type := 1; maxRange := 0; resolution := 0; power := 0; minDelay := 0 |}.

Definition demo_sensors : list sensor_t := [demo_sensor 0; demo_sensor 1; demo_sensor 3].

Definition demo_boot : smodule :=
  {| sensor_list := demo_sensors; sensor_count := 3; handle_last := 3;
     sensors_enabled := [0; 0; 0; 0]; sensor_delay_ns := [0; 0; 0; 0];
     clients := replicate SMODULE_CLIENT_MAX None; client_count := 0;
     heap := ∅; next_ptr := 1%nat |}.

Definition all_ok (fd : Z) : accept_env :=
  {| accept_fd := fd; calloc_client_ok := true; calloc_enabled_ok := true;
     calloc_delay_ok := true; send_ok := λ _, true |}.

(** A connection whose handshake fails at the first [send]. *)
Definition no_handshake (fd : Z) : accept_env :=
  {| accept_fd := fd; calloc_client_ok := true; calloc_enabled_ok := true;
     calloc_delay_ok := true; send_ok := λ _, false |}.

Definition connect (fd : Z) : input := InListen true (all_ok fd).

Definition ACTIVATE (h v : Z) : sensors_proxy_cmd :=
  {| cmd := SENSORS_PROXY_CMD_ACTIVATE; handle := h; activate_enabled := v;
     set_delay_ns := 0 |}.

Definition SET_DELAY (h ns : Z) : sensors_proxy_cmd :=
  {| cmd := SENSORS_PROXY_CMD_SET_DELAY; handle := h; activate_enabled := 0;
     set_delay_ns := ns |}.

Definition command (p : ptr) (x : sensors_proxy_cmd) : input :=
  InClient p (EvIn (Received x)).

Definition ms (n : Z) : Z := n * 1000000.

Definition demo_event (h : Z) : sensors_event_t :=
  {| sensor := h; timestamp := 0; payload := [] |}.

(** One client, connected, with sensor 3 enabled. *)
Definition demo_enabled : smodule :=
  after true [connect 10; command 1%nat (ACTIVATE 3 1)] demo_boot.

(** One client that asked for 50 ms on sensor 3, enabled it and disabled
    it again: the stored delay stays. *)
Definition demo_idle : smodule :=
  after true [connect 10; command 1%nat (SET_DELAY 3 (ms 50));
              command 1%nat (ACTIVATE 3 1); command 1%nat (ACTIVATE 3 0)] demo_boot.

(** One client that asked for [LLONG_MAX] ns on sensor 3 and enabled it. *)
Definition demo_sentinel : smodule :=
  after true [connect 10; command 1%nat (SET_DELAY 3 LLONG_MAX);
              command 1%nat (ACTIVATE 3 1)] demo_boot.

Definition EIO : Z := 5.

(** The tear-down of client [p], whose record is [c], by the event [ev]. *)
Definition torn_down_by (la : bool) (s : smodule) (p : ptr) (c : smodule_client)
    (ev : client_event) : Prop :=
  ∃ s', smodule_client_handle_event la p ev s
        = Ok (tt, s', teardown_calls c s (all_handles s) ++ [EpollDel (sock_fd c)])
        ∧ torn_down p c s s'.

(** Three clients ask for 50 ms, 20 ms and 100 ms on sensor 3 and enable
    it. *)
Definition demo_three_inputs : list input :=
  [connect 10; connect 11; connect 12;
   command 1%nat (SET_DELAY 3 (ms 50)); command 2%nat (SET_DELAY 3 (ms 20));
   command 3%nat (SET_DELAY 3 (ms 100));
   command 1%nat (ACTIVATE 3 1); command 2%nat (ACTIVATE 3 1);
   command 3%nat (ACTIVATE 3 1)].

Definition demo_three : smodule := after true demo_three_inputs demo_boot.

(** The outcome of one more input: the stored delay of sensor 3, the
    clients left in the registry, and the actions. *)
Definition outcome (i : input) (s : smodule) : option (Z * list ptr * list action) :=
  match step true i s with
  | Ok (_, s', o) => Some (effective_delay s' 3, registered_ptrs s', o)
  | Crash _ => None
  end.

(** Eight clients: the registry is full. *)
Definition demo_full : smodule :=
  after true (connect <$> [10; 11; 12; 13; 14; 15; 16; 17]) demo_boot.

(** ** Notions of the isolation property *)

(** The input is a command of session [S] that enables handle [H]. *)
Definition enables (S : ptr) (H : Z) (i : input) : Prop :=
  match i with
  | InClient p (EvIn (Received x)) =>
      p = S ∧ cmd x = SENSORS_PROXY_CMD_ACTIVATE ∧ handle x = H
      ∧ activate_enabled x ≠ 0
  | _ => False
  end.

(** The action sends an event of sensor [H] to session [S]. *)
Definition sends_event_for (S : ptr) (H : Z) (a : action) : Prop :=
  match a with
  | SendEvent p _ ev => p = S ∧ sensor ev = H
  | _ => False
  end.

Definition is_send_event (a : action) : bool :=
  match a with SendEvent _ _ _ => true | _ => false end.

Definition not_enabled (S : ptr) (H : Z) (s : smodule) : Prop :=
  ∀ c, heap s !! S = Some c → is_enabled c H = false.

(** The record of the client after a command. *)
Definition cmd_client (c : smodule_client) (x : sensors_proxy_cmd) : smodule_client :=
  if cmd x =? SENSORS_PROXY_CMD_ACTIVATE then
    activate_client c (handle x) (activate_enabled x)
  else if cmd x =? SENSORS_PROXY_CMD_SET_DELAY then
    set_client_sensor_delay_ns
      (<[Z.to_nat (handle x) := set_delay_ns x]> (client_sensor_delay_ns c)) c
  else c.

(** Two clients; the first enables sensor 3, the second sensor 1, and a
    poll round delivers an event of each. *)
Definition demo_isolation : list input :=
  [connect 10; connect 11; command 1%nat (ACTIVATE 3 1); command 2%nat (ACTIVATE 1 1);
   InPoll 2 [demo_event 3; demo_event 1] (λ _ _, false)].

(** ** Notions of the reference counting property *)

(** The polarity of the [activate] calls for handle [H] among some
    actions, in order. *)
Definition activations (H : Z) (o : list action) : list bool :=
  omap (λ a, match a with
             | DevActivate h v => if decide (h = H) then Some (negb (v =? 0)) else None
             | _ => None
             end) o.

(** What a request does to a count: it takes it from 0 to 1, from 1 to 0,
    or neither. *)
Inductive edge := Rise | Fall | Flat.

#[export] Instance edge_eq_dec : EqDecision edge.
Proof. solve_decision. Defined.

Definition edge_of (before after : Z) : edge :=
  if (before =? 0) && (after =? 1) then Rise
  else if (before =? 1) && (after =? 0) then Fall
  else Flat.

(** The [activate] calls that belong to an edge. *)
Definition edge_calls (e : edge) : list bool :=
  match e with
  | Rise => [true]
  | Fall => [false]
  | Flat => []
  end.

Definition commands (reqs : list (ptr * sensors_proxy_cmd)) : list input :=
  (λ r, command r.1 r.2) <$> reqs.

(** The edges of [enabled_count[H]] along a run of commands. *)
Fixpoint counter_edges (la : bool) (H : Z) (reqs : list (ptr * sensors_proxy_cmd))
    (s : smodule) : list edge :=
  match reqs with
  | [] => []
  | r :: reqs' =>
      match step la (command r.1 r.2) s with
      | Ok (_, s', _) =>
          edge_of (enabled_count s H) (enabled_count s' H)
            :: counter_edges la H reqs' s'
      | Crash _ => []
      end
  end.

(** The demand for handle [H]: the set of sessions whose last request for
    [H] was to enable it. *)
Definition request_on (H : Z) (D : gset ptr) (r : ptr * sensors_proxy_cmd) : gset ptr :=
  if (cmd r.2 =? SENSORS_PROXY_CMD_ACTIVATE) && (handle r.2 =? H) then
    if activate_enabled r.2 =? 0 then D ∖ {[r.1]} else D ∪ {[r.1]}
  else D.

(** The edges of the net demand (the number of sessions in the demand)
    along a sequence of requests. *)
Fixpoint demand_edges (H : Z) (D : gset ptr) (reqs : list (ptr * sensors_proxy_cmd))
    : list edge :=
  match reqs with
  | [] => []
  | r :: reqs' =>
      edge_of (Z.of_nat (size D)) (Z.of_nat (size (request_on H D r)))
        :: demand_edges H (request_on H D r) reqs'
  end.

(** The net demand leaves zero once and comes back to zero once. *)
Definition crosses_zero_once (H : Z) (reqs : list (ptr * sensors_proxy_cmd)) : Prop :=
  length (filter (λ e, e = Rise) (demand_edges H ∅ reqs)) = 1%nat
  ∧ length (filter (λ e, e = Fall) (demand_edges H ∅ reqs)) = 1%nat.

(** No session has handle [H] enabled. *)
Definition idle (H : Z) (s : smodule) : Prop :=
  enabled_count s H = 0 ∧ ∀ p c, heap s !! p = Some c → is_enabled c H = false.

(** The demand [D] is what the state records for handle [H]. *)
Definition records_demand (H : Z) (D : gset ptr) (s : smodule) : Prop :=
  enabled_count s H = Z.of_nat (size D)
  ∧ ∀ p c, heap s !! p = Some c → (is_enabled c H = true ↔ p ∈ D).

(** Three connected clients, nothing enabled. *)
Definition demo_connected : smodule :=
  after true [connect 10; connect 11; connect 12] demo_boot.

(** The three clients enable sensor 3 (the first one twice) and disable it
    again in another order. *)
Definition demo_requests : list (ptr * sensors_proxy_cmd) :=
  [(1%nat, ACTIVATE 3 1); (2%nat, ACTIVATE 3 1); (1%nat, ACTIVATE 3 1);
   (3%nat, ACTIVATE 3 1); (2%nat, ACTIVATE 3 0); (1%nat, ACTIVATE 3 0);
   (2%nat, ACTIVATE 3 0); (3%nat, ACTIVATE 3 0)].

(** ** Notions of the further properties *)

(** The sessions that have handle [H] enabled. *)
Definition enabled_sessions (H : Z) (s : smodule) : gset ptr :=
  dom (filter (λ pc, is_enabled pc.2 H = true) (heap s)).

(** Whether sensor [H] is active in the device after the calls [tr], when
    it was [b0] before: the polarity of the last [activate] call for [H]. *)
Definition hw_active (H : Z) (b0 : bool) (tr : list action) : bool :=
  default b0 (last (activations H tr)).

Definition tracks_demand (H : Z) (D : gset ptr) (s : smodule) : Prop :=
  records_demand H D s ∧ D ⊆ dom (heap s).

(** [sensors_enabled] of a client is the number of sensors it has
    enabled. *)
Definition counter_ok (c : smodule_client) : Prop :=
  client_sensors_enabled c
  = Z.of_nat (length (filter (λ b, b = true) (client_sensor_enabled c))).

Definition counters_ok (s : smodule) : Prop :=
  ∀ p c, heap s !! p = Some c → counter_ok c.

(** The events of a batch that a client is sent, and the fan-out of the
    batch over the registry. *)
Definition deliveries (events : list sensors_event_t) (p : ptr) (c : smodule_client)
    : list action :=
  (λ ev, SendEvent p (sock_fd c) ev)
    <$> filter (λ ev, is_enabled c (sensor ev) = true) events.

Definition fan_out (s : smodule) (events : list sensors_event_t) : list action :=
  registered_ptrs s ≫= (λ p,
    match heap s !! p with
    | Some c => deliveries events p c
    | None => []
    end).

Definition delays_ok (s : smodule) : Prop :=
  Forall (λ d, 0 ≤ d < LLONG_MAX) (sensor_delay_ns s).

Definition set_delay_ok (a : action) : Prop :=
  match a with
  | DevSetDelay _ ns => 0 < ns < LLONG_MAX
  | _ => True
  end.

(** The calls of the handshake. *)
Definition handshake_calls (p : ptr) (fd : Z) (s : smodule) : list action :=
  [SendCount p fd (sensor_count s);
   SendStrings p fd (sensor_strings <$> sensor_list s);
   SendList p fd (sensor_list s)].

(** The calls of [recv] that read the records [chunks], [done] bytes
    being there already. *)
Fixpoint recv_calls (fd : Z) (len done : nat) (chunks : list (list Ascii.ascii))
  : list Client.call :=
  match chunks with
  | [] => []
  | c :: chunks' =>
      Client.SysRecv fd (len - done) :: recv_calls fd len (done + length c) chunks'
  end.

Definition is_recv (c : Client.call) : Prop :=
  match c with Client.SysRecv _ _ => True | _ => False end.


(** The bytes of a 32-bit [int], little endian. *)
Definition bytes_of_int (n : Z) : list Ascii.ascii :=
  (λ k : nat, Ascii.ascii_of_N (Z.to_N ((n mod 2 ^ 32) / 2 ^ (8 * Z.of_nat k) mod 256)))
    <$> seq 0 4.

(** The bytes of an array of [struct sensors_strings_t]. *)
Definition strings_image (blocks : list sensors_strings_t) : list Ascii.ascii :=
  blocks ≫= (λ b, str_name b ++ str_vendor b).

(** What the client reads for a [send] of the handshake; [layout] gives
    the bytes of the array of descriptors. *)
Definition wire (layout : list sensor_t → list Ascii.ascii) (a : action)
  : list Client.recv_ret :=
  match a with
  | SendCount _ _ n => [Client.Chunk (bytes_of_int n)]
  | SendStrings _ _ blocks => [Client.Chunk (strings_image blocks)]
  | SendList _ _ l => [Client.Chunk (layout l)]
  | _ => []
  end.

Definition chars (str : string) : list Ascii.ascii := String.list_ascii_of_string str.

(** A string that fits a buffer of [SENSORS_CHARS_MAX] chars with its
    terminator. *)
Definition short (l : list Ascii.ascii) : Prop :=
  (length l < SENSORS_CHARS_MAX)%nat ∧ Ascii.zero ∉ l.

(** The memory of the client after a complete handshake. *)
Definition connected (fd : Z) (layout : list sensor_t → list Ascii.ascii) (s : smodule)
    (x : Client.sensors_poll_context_t) : Client.sensors_poll_context_t :=
  {| Client.sock_fd := fd;
     Client.sensors_count_bytes := bytes_of_int (sensor_count s);
     Client.sensors_strings_list :=
       Client.overwrite (strings_image (sensor_strings <$> sensor_list s))
         (Client.sensors_strings_list x);
     Client.sensors_list :=
       Client.overwrite (layout (sensor_list s)) (Client.sensors_list x);
     Client.string_ptrs :=
       (λ i, (Client.name_ptr i, Client.vendor_ptr i)) <$> seq 0 (length (sensor_list s)) |}.

(** The conditions under which the handshake of the server fits the
    arrays of the client. *)
Record fits (szs : nat) (width : Z) (layout : list sensor_t → list Ascii.ascii)
    (s : smodule) (x : Client.sensors_poll_context_t) : Prop := {
  fits_some : sensor_list s ≠ [];
  fits_max : (length (sensor_list s) ≤ Client.SENSORS_MAX)%nat;
  fits_sensor : (0 < szs)%nat;
  fits_layout : length (layout (sensor_list s)) = (szs * length (sensor_list s))%nat;
  fits_strings_size : Z.of_nat (Client.sizeof_strings * Client.SENSORS_MAX) < 2 ^ width;
  fits_list_size : Z.of_nat (szs * Client.SENSORS_MAX) < 2 ^ width;
  fits_count : length (Client.sensors_count_bytes x) = 4%nat
}.

#[export] Instance resource_eq_dec : EqDecision Boot.resource.
Proof. solve_decision. Defined.

Definition acquired (tr : list Boot.sys) : list Boot.resource :=
  omap (λ a, match a with Boot.Acquire r => Some r | _ => None end) tr.

Definition released (tr : list Boot.sys) : list Boot.resource :=
  omap (λ a, match a with Boot.Release r => Some r | _ => None end) tr.


(** The resources a trace acquires and never releases. *)
Definition leaked (tr : list Boot.sys) : list Boot.resource :=
  filter (λ r, r ∉ released tr) (acquired tr).

Ltac boot_cases e :=
  destruct e as [b1 b2 b3 sl b4 b5 b6 b7 b8 b9 b10 b11 b12];
  unfold Boot.smodule_new; cbn [Boot.calloc_smod_ok Boot.hw_get_module_ok
    Boot.sensors_open_ok Boot.sensors Boot.calloc_sensors_enabled_ok
    Boot.calloc_sensor_delay_ns_ok Boot.epoll_create_ok Boot.socket_ok Boot.bind_ok
    Boot.listen_ok Boot.epoll_add_fd_ok Boot.pthread_mutex_init_ok Boot.pthread_create_ok];
  destruct b1, b2, b3; cbn [negb]; cbn match;
  try destruct (smodule_new sl) as [s0 |];
  try (destruct b4, b5, b6, b7; cbn [negb]; cbn match);
  try (destruct b8, b9, b10, b11, b12; cbn [negb orb]; cbn match).

(** The record of a client that has enabled nothing. *)
Definition demo_session (fd : Z) : smodule_client :=
  {| sock_fd := fd; client_sensors_enabled := 0;
     client_sensor_enabled := [false; false; false; false];
     client_sensor_delay_ns := [0; 0; 0; 0] |}.

(** A client before its constructor ran, and a connected one. *)
Definition demo_client0 : Client.sensors_poll_context_t :=
  {| Client.sock_fd := -1; Client.sensors_count_bytes := bytes_of_int 0;
     Client.sensors_strings_list := []; Client.sensors_list := [];
     Client.string_ptrs := [] |}.

Definition demo_client : Client.sensors_poll_context_t := Client.set_sock_fd 7 demo_client0.

(** Four bytes for each descriptor. *)
Definition demo_layout (l : list sensor_t) : list Ascii.ascii :=
  l ≫= (λ _, replicate 4 Ascii.zero).

(** A device whose one sensor has a name of 70 chars. *)
Definition demo_long : sensor_t :=
  {| name := "a-sensor-with-a-name-that-is-longer-than-the-sixty-four-chars-of-a-buf";
     vendor := "acme"; version := 1; s_handle := 0;
     type := 1; maxRange := 0; resolution := 0; power := 0; minDelay := 0 |}.

Definition demo_long_boot : smodule := default demo_boot (smodule_new [demo_long]).


Definition demo_env_no_module : Boot.env :=
  {| Boot.calloc_smod_ok := true; Boot.hw_get_module_ok := false;
     Boot.sensors_open_ok := true; Boot.sensors := demo_sensors;
     Boot.calloc_sensors_enabled_ok := true; Boot.calloc_sensor_delay_ns_ok := true;
     Boot.epoll_create_ok := true; Boot.socket_ok := true; Boot.bind_ok := true;
     Boot.listen_ok := true; Boot.epoll_add_fd_ok := true;
     Boot.pthread_mutex_init_ok := true; Boot.pthread_create_ok := true |}.

Definition demo_env_no_epoll : Boot.env :=
  {| Boot.calloc_smod_ok := true; Boot.hw_get_module_ok := true;
     Boot.sensors_open_ok := true; Boot.sensors := demo_sensors;
     Boot.calloc_sensors_enabled_ok := true; Boot.calloc_sensor_delay_ns_ok := true;
     Boot.epoll_create_ok := false; Boot.socket_ok := true; Boot.bind_ok := true;
     Boot.listen_ok := true; Boot.epoll_add_fd_ok := true;
     Boot.pthread_mutex_init_ok := true; Boot.pthread_create_ok := true |}.

Definition is_close (a : action) : bool :=
  match a with Close _ => true | _ => false end.

(** What a client is sent in a poll round when the [send] of event [j]
    fails for it exactly if [fails p j]: the events it has enabled, up to
    and including the first one whose [send] fails. *)
Fixpoint sent (fails : ptr → Z → bool) (p : ptr) (c : smodule_client) (j : Z)
    (evs : list sensors_event_t) : list action :=
  match evs with
  | [] => []
  | ev :: evs' =>
      if is_enabled c (sensor ev) then
        SendEvent p (sock_fd c) ev
          :: (if fails p j then [] else sent fails p c (j + 1) evs')
      else sent fails p c (j + 1) evs'
  end.

(** The input tears a client down. *)
Definition is_teardown (i : input) : bool :=
  match i with
  | InClient _ ev => is_reset ev
  | _ => false
  end.

(** The stored delay of every handle is up to date: recomputing it would
    change nothing. *)
Definition delays_current (s : smodule) : Prop :=
  ∀ h, in_range s h → delay_changes s h = false.

(** What the delay loop reads of a client for handle [h]. *)
Definition view (h : Z) (c : smodule_client) : bool * Z :=
  (is_enabled c h, requested_delay c h).

(** The three sessions of [demo_three], after the session that asked for
    20 ms has disconnected. *)
Definition demo_left : smodule :=
  after true (demo_three_inputs ++ [InClient 2%nat (EvIn PeerShutdown)]) demo_boot.

(** The same, had that session disabled the sensor by a command. *)
Definition demo_disabled : smodule :=
  after true (demo_three_inputs ++ [command 2%nat (ACTIVATE 3 0)]) demo_boot.

(** * Properties *)

(** ** The monad and the arrays *)

Lemma aget_Ok {A} (l : list A) (i : Z) (x : A) :
  aget l i = Ok x ↔ 0 ≤ i ∧ l !! Z.to_nat i = Some x.
Proof.
  unfold aget. destruct (Z.leb_spec 0 i).
  - destruct (l !! Z.to_nat i); split; intros; try done.
    + split; [lia | congruence].
    + destruct H0 as [_ [= ->]]. done.
    + by destruct H0.
  - split; [done | lia].
Qed.

Lemma aget_in {A} (l : list A) (i : Z) :
  0 ≤ i < Z.of_nat (length l) →
  ∃ x, l !! Z.to_nat i = Some x ∧ aget l i = Ok x.
Proof.
  intros Hi. destruct (lookup_lt_is_Some_2 l (Z.to_nat i)) as [x Hx]; [lia |].
  exists x. split; [done |]. apply aget_Ok. split; [lia | done].
Qed.

Lemma aget_out {A} (l : list A) (i : Z) :
  ¬ (0 ≤ i < Z.of_nat (length l)) → aget l i = Crash OutOfBounds.
Proof.
  intros Hi. unfold aget. destruct (Z.leb_spec 0 i); [| done].
  rewrite lookup_ge_None_2; [done | lia].
Qed.

Lemma aset_in {A} (l : list A) (i : Z) (x : A) :
  0 ≤ i < Z.of_nat (length l) → aset l i x = Ok (<[Z.to_nat i := x]> l).
Proof.
  intros Hi. unfold aset.
  destruct (Z.leb_spec 0 i); [| lia].
  destruct (Z.ltb_spec i (Z.of_nat (length l))); [done | lia].
Qed.

Lemma aset_out {A} (l : list A) (i : Z) (x : A) :
  ¬ (0 ≤ i < Z.of_nat (length l)) → aset l i x = Crash OutOfBounds.
Proof.
  intros Hi. unfold aset.
  destruct (Z.leb_spec 0 i); [| done].
  destruct (Z.ltb_spec i (Z.of_nat (length l))); [lia | done].
Qed.

Lemma aget_middle {A} (pre rest : list A) (x : A) :
  aget (pre ++ x :: rest) (Z.of_nat (length pre)) = Ok x.
Proof.
  apply aget_Ok. split; [lia |].
  rewrite Nat2Z.id, lookup_app_r by lia. by rewrite Nat.sub_diag.
Qed.

Lemma in_range_fields (s : smodule) (h : Z) :
  in_range s h ↔ 0 ≤ h < Z.of_nat (nfields s).
Proof. unfold in_range, nfields. lia. Qed.

(** ** [smodule_client_update_activate] in closed form *)

Lemma assert_in_range (la : bool) (s : smodule) (h : Z) :
  in_range s h → la && negb ((0 <=? h) && (h <=? handle_last s)) = false.
Proof.
  intros [H1 H2].
  destruct (Z.leb_spec 0 h), (Z.leb_spec h (handle_last s)); try lia.
  all: by destruct la.
Qed.

Lemma update_activate_eq (la : bool) (s : smodule) (p : ptr) (c : smodule_client) (h v : Z) :
  wf s → in_range s h → heap s !! p = Some c →
  smodule_client_update_activate la p h v s
  = Ok (tt, activate_post p c h v s, activate_calls c h v s).
Proof.
  intros Hwf Hh Hp.
  pose proof (wf_heap s Hwf p c Hp) as [Hce Hcd].
  apply in_range_fields in Hh as Hh'.
  destruct (aget_in (sensors_enabled s) h) as (cnt & Hcnt & Hgc);
    [rewrite (wf_enabled s Hwf); lia |].
  destruct (aget_in (sensor_delay_ns s) h) as (dl & Hdl & Hgd);
    [rewrite (wf_delay s Hwf); lia |].
  destruct (aget_in (client_sensor_enabled c) h) as (en & Hen & Hge);
    [rewrite Hce; lia |].
  unfold smodule_client_update_activate, activate_post, activate_calls, redundant,
    is_enabled, enabled_count, effective_delay.
  munfold. rewrite Hp, (assert_in_range la s h Hh). simpl.
  rewrite Hgc, Hge, Hcnt, Hen, Hdl. simpl.
  rewrite !aset_in by (rewrite ?Hce, ?(wf_enabled s Hwf); lia).
  destruct (v =? 0) eqn:Hv, en; simpl; try done.
  - destruct (cnt - 1 =? 0) eqn:E1, (cnt =? 1) eqn:E2; try lia; simpl; done.
  - rewrite Hgd. destruct (cnt =? 0); simpl; [| done].
    destruct (dl =? 0); done.
Qed.

(** ** [smodule_client_update_delay] in closed form *)

Lemma wf_registered_ptrs (s : smodule) (cs : list ptr) :
  clients s = slots cs →
  client_count s = Z.of_nat (length cs) →
  registered_ptrs s = cs.
Proof.
  intros Hcl Hn. unfold registered_ptrs. rewrite Hcl, Hn, Nat2Z.id. unfold slots.
  rewrite take_app_length' by (by rewrite length_fmap).
  clear. induction cs as [| p cs IH]; [done |]. csimpl. by rewrite IH.
Qed.

Lemma delay_min_loop_eq (s : smodule) (h : Z) (cs : list ptr) :
  wf s → in_range s h →
  ∀ (pre : list (option ptr)) (rest : list (option ptr)) (m : Z),
    clients s = pre ++ (Some <$> cs) ++ rest →
    (∀ p, p ∈ cs → is_Some (heap s !! p)) →
    delay_min_loop s h (seqZ (Z.of_nat (length pre)) (Z.of_nat (length cs))) m
    = Ok (fold_left (delay_step h) (omap (heap s !!.) cs) m).
Proof.
  intros Hwf Hh. pose proof (proj1 (in_range_fields s h) Hh) as Hh'.
  induction cs as [| p cs IH]; intros pre rest m Hcl Hlive; [done |].
  rewrite seqZ_cons by (simpl; lia). simpl.
  destruct (Hlive p) as [c Hc]; [set_solver |].
  pose proof (wf_heap s Hwf p c Hc) as [Hce Hcd].
  rewrite Hcl. csimpl. rewrite aget_middle.
  munfold. simpl. rewrite Hc.
  destruct (aget_in (client_sensor_delay_ns c) h) as (d & Hd & ->); [rewrite Hcd; lia |].
  destruct (aget_in (client_sensor_enabled c) h) as (en & Hen & ->); [rewrite Hce; lia |].
  replace (Z.succ (Z.of_nat (length pre))) with (Z.of_nat (length (pre ++ [Some p])))
    by (rewrite length_app; simpl; lia).
  replace (Z.pred (Z.of_nat (S (length cs)))) with (Z.of_nat (length cs)) by lia.
  rewrite (IH (pre ++ [Some p]) rest).
  - assert (delay_step h m c = if en && (0 <? d) && (d <? m) then d else m) as <-
      by (unfold delay_step, is_enabled, requested_delay; by rewrite Hen, Hd).
    done.
  - by rewrite Hcl, <- app_assoc.
  - intros q Hq. apply Hlive. set_solver.
Qed.

Lemma delay_min_loop_registered (s : smodule) (h : Z) :
  wf s → in_range s h →
  delay_min_loop s h (seqZ 0 (client_count s)) LLONG_MAX = Ok (delay_min_of s h).
Proof.
  intros Hwf Hh. destruct (wf_registry s Hwf) as (cs & Hcl & _ & _ & Hn & Hlive).
  unfold delay_min_of, registered. rewrite (wf_registered_ptrs s cs Hcl Hn), Hn.
  by apply (delay_min_loop_eq s h cs Hwf Hh [] _ LLONG_MAX Hcl).
Qed.

Lemma update_delay_eq (la : bool) (s : smodule) (p : ptr) (h : Z) :
  wf s → in_range s h → is_Some (heap s !! p) →
  smodule_client_update_delay la p h s = Ok (tt, delay_post h s, delay_calls h s).
Proof.
  intros Hwf Hh [c Hp].
  apply in_range_fields in Hh as Hh'.
  destruct (aget_in (sensor_delay_ns s) h) as (dl & Hdl & Hgd);
    [rewrite (wf_delay s Hwf); lia |].
  unfold smodule_client_update_delay, delay_post, delay_calls, delay_changes,
    effective_delay.
  munfold. rewrite Hp, (assert_in_range la s h Hh). simpl.
  rewrite (delay_min_loop_registered s h Hwf Hh). simpl.
  destruct (delay_min_of s h =? LLONG_MAX); simpl; [done |].
  rewrite Hgd, Hdl. simpl.
  destruct ((dl =? 0) || negb (delay_min_of s h =? dl)); [| done].
  rewrite aset_in by (rewrite (wf_delay s Hwf); lia). done.
Qed.

(** ** The registry: [smodule_add_client] and [smodule_remove_client] *)

Lemma length_slots (cs : list ptr) :
  (length cs ≤ SMODULE_CLIENT_MAX)%nat → length (slots cs) = SMODULE_CLIENT_MAX.
Proof. intros H. unfold slots. rewrite length_app, length_fmap, length_replicate. lia. Qed.

Lemma first_free_eq (cs : list ptr) (k : nat) :
  ∀ pre : list (option ptr),
    first_free (pre ++ (Some <$> cs) ++ replicate k None)
      (seqZ (Z.of_nat (length pre)) (Z.of_nat (length cs + k)))
    = Ok (if decide (k = 0%nat) then None
          else Some (Z.of_nat (length pre + length cs))).
Proof.
  induction cs as [| p cs IH]; intros pre.
  - csimpl. destruct k as [| k]; [done |].
    rewrite seqZ_cons by lia. csimpl.
    rewrite aget_middle.
    munfold. csimpl. do 3 f_equal. lia.
  - rewrite seqZ_cons by (simpl; lia). csimpl.
    rewrite aget_middle.
    munfold. csimpl.
    replace (Z.succ (Z.of_nat (length pre))) with (Z.of_nat (length (pre ++ [Some p])))
      by (rewrite length_app; simpl; lia).
    replace (Z.pred (Z.of_nat (S (length cs + k)))) with (Z.of_nat (length cs + k)) by lia.
    specialize (IH (pre ++ [Some p])). rewrite <- app_assoc in IH. simpl in IH.
    rewrite IH. rewrite length_app. csimpl. destruct (decide (k = 0%nat)); [done |].
    do 3 f_equal. lia.
Qed.

Lemma slots_snoc (cs : list ptr) (p : ptr) :
  (length cs < SMODULE_CLIENT_MAX)%nat →
  <[length cs := Some p]> (slots cs) = slots (cs ++ [p]).
Proof.
  intros Hlt. unfold slots.
  rewrite insert_app_r_alt by (rewrite length_fmap; lia).
  rewrite length_fmap, Nat.sub_diag, length_app. simpl.
  destruct (SMODULE_CLIENT_MAX - length cs)%nat as [| k] eqn:E; [lia |].
  replace (SMODULE_CLIENT_MAX - (length cs + 1))%nat with k by lia.
  simpl. rewrite fmap_app, <- app_assoc. done.
Qed.

Lemma add_client_eq (s : smodule) (cs : list ptr) (p : ptr) :
  clients s = slots cs → (length cs ≤ SMODULE_CLIENT_MAX)%nat →
  smodule_add_client p s = Ok (-1, add_post p cs s, []).
Proof.
  intros Hcl Hle. unfold smodule_add_client, add_post. munfold.
  assert (first_free (clients s) (seqZ 0 (Z.of_nat SMODULE_CLIENT_MAX))
          = Ok (if decide (SMODULE_CLIENT_MAX - length cs = 0)%nat then None
                else Some (Z.of_nat (length cs)))) as ->.
  { rewrite Hcl.
    replace (Z.of_nat SMODULE_CLIENT_MAX)
      with (Z.of_nat (length cs + (SMODULE_CLIENT_MAX - length cs))) by lia.
    apply (first_free_eq cs _ []). }
  simpl.
  destruct (decide (SMODULE_CLIENT_MAX - length cs = 0)%nat) as [E | E];
    destruct (decide (length cs < SMODULE_CLIENT_MAX)%nat); try lia; simpl; [done |].
  rewrite aset_in by (rewrite Hcl, length_slots; lia). simpl.
  rewrite Nat2Z.id, Hcl, slots_snoc by done. done.
Qed.

Lemma find_client_missing (cs : list ptr) (p : ptr) :
  p ∉ cs →
  ∀ (pre rest : list (option ptr)),
    find_client (pre ++ (Some <$> cs) ++ rest) p
      (seqZ (Z.of_nat (length pre)) (Z.of_nat (length cs))) = Ok None.
Proof.
  induction cs as [| q cs IH]; intros Hp pre rest; [done |].
  rewrite seqZ_cons by (simpl; lia). csimpl. rewrite aget_middle. munfold. simpl.
  destruct (decide (Some q = Some p)) as [[= ->] | _]; [set_solver |].
  replace (Z.succ (Z.of_nat (length pre))) with (Z.of_nat (length (pre ++ [Some q])))
    by (rewrite length_app; simpl; lia).
  replace (Z.pred (Z.of_nat (S (length cs)))) with (Z.of_nat (length cs)) by lia.
  specialize (IH ltac:(set_solver) (pre ++ [Some q]) rest).
  rewrite <- app_assoc in IH. apply IH.
Qed.

Lemma find_client_found (l1 : list ptr) (p : ptr) (k : nat) :
  p ∉ l1 →
  ∀ (pre rest : list (option ptr)),
    find_client (pre ++ (Some <$> l1) ++ Some p :: rest) p
      (seqZ (Z.of_nat (length pre)) (Z.of_nat (length l1 + S k)))
    = Ok (Some (Z.of_nat (length pre + length l1))).
Proof.
  induction l1 as [| q l1 IH]; intros Hp pre rest.
  - rewrite seqZ_cons by (simpl; lia). csimpl. rewrite aget_middle. munfold. simpl.
    rewrite decide_True by done. do 3 f_equal. lia.
  - rewrite seqZ_cons by (simpl; lia). csimpl. rewrite aget_middle. munfold. simpl.
    destruct (decide (Some q = Some p)) as [[= ->] | _]; [set_solver |].
    replace (Z.succ (Z.of_nat (length pre))) with (Z.of_nat (length (pre ++ [Some q])))
      by (rewrite length_app; simpl; lia).
    replace (Z.pred (Z.of_nat (S (length l1 + S k)))) with (Z.of_nat (length l1 + S k))
      by lia.
    specialize (IH ltac:(set_solver) (pre ++ [Some q]) rest).
    rewrite <- app_assoc in IH. simpl in IH. rewrite IH.
    rewrite length_app. simpl. do 3 f_equal. lia.
Qed.

Lemma shift_clients_eq (l2 : list (option ptr)) :
  ∀ (pre rest : list (option ptr)) (x : option ptr),
    ∃ y, shift_clients (seqZ (Z.of_nat (length pre)) (Z.of_nat (length l2)))
           (pre ++ x :: l2 ++ rest)
         = Ok (pre ++ l2 ++ y :: rest).
Proof.
  induction l2 as [| z l2 IH]; intros pre rest x; [by exists x |].
  rewrite seqZ_cons by (simpl; lia). simpl.
  replace (Z.of_nat (length pre) + 1) with (Z.of_nat (length (pre ++ [x])))
    by (rewrite length_app; simpl; lia).
  replace (pre ++ x :: z :: l2 ++ rest) with ((pre ++ [x]) ++ z :: l2 ++ rest)
    by (by rewrite <- app_assoc).
  rewrite aget_middle. munfold. simpl.
  rewrite <- app_assoc. simpl.
  rewrite aset_in by (rewrite length_app; simpl; lia).
  rewrite Nat2Z.id, insert_app_r_alt, Nat.sub_diag by lia. simpl.
  destruct (IH (pre ++ [z]) rest z) as [y Hy].
  exists y.
  replace (Z.succ (Z.of_nat (length pre))) with (Z.of_nat (length (pre ++ [z])))
    by (rewrite length_app; simpl; lia).
  replace (Z.pred (Z.of_nat (S (length l2)))) with (Z.of_nat (length l2)) by lia.
  rewrite <- !app_assoc in Hy. simpl in Hy. done.
Qed.

Lemma slots_remove (l1 l2 : list ptr) (p : ptr) (y : option ptr) :
  (length (l1 ++ p :: l2) ≤ SMODULE_CLIENT_MAX)%nat →
  <[(length l1 + length l2)%nat := None]>
    ((Some <$> l1) ++ (Some <$> l2) ++
       y :: replicate (SMODULE_CLIENT_MAX - length (l1 ++ p :: l2)) None)
  = slots (l1 ++ l2).
Proof.
  rewrite length_app. simpl. intros Hle. unfold slots.
  rewrite app_assoc, <- fmap_app.
  rewrite insert_app_r_alt by (rewrite length_fmap, length_app; lia).
  rewrite length_fmap, !length_app.
  replace (length l1 + length l2 - (length l1 + length l2))%nat with 0%nat by lia.
  simpl.
  replace (SMODULE_CLIENT_MAX - (length l1 + length l2))%nat
    with (S (SMODULE_CLIENT_MAX - (length l1 + S (length l2))))%nat by lia.
  done.
Qed.

Lemma remove_client_found (s : smodule) (l1 l2 : list ptr) (p : ptr) :
  clients s = slots (l1 ++ p :: l2) →
  client_count s = Z.of_nat (length (l1 ++ p :: l2)) →
  (length (l1 ++ p :: l2) ≤ SMODULE_CLIENT_MAX)%nat →
  p ∉ l1 →
  smodule_remove_client p s = Ok (0, remove_post l1 l2 s, []).
Proof.
  intros Hcl Hn Hle Hp. unfold smodule_remove_client, remove_post. munfold.
  assert (find_client (clients s) p (seqZ 0 (client_count s))
          = Ok (Some (Z.of_nat (length l1)))) as ->.
  { rewrite Hcl, Hn. unfold slots. rewrite fmap_app, <- app_assoc, length_app.
    csimpl. apply (find_client_found l1 p (length l2) Hp []). }
  simpl.
  destruct (shift_clients_eq (Some <$> l2) (Some <$> l1)
              (replicate (SMODULE_CLIENT_MAX - length (l1 ++ p :: l2)) None) (Some p))
    as [y Hy].
  rewrite !length_fmap in Hy.
  assert (shift_clients
            (seqZ (Z.of_nat (length l1)) (client_count s - 1 - Z.of_nat (length l1)))
            (clients s)
          = Ok ((Some <$> l1) ++ (Some <$> l2) ++
                  y :: replicate (SMODULE_CLIENT_MAX - length (l1 ++ p :: l2)) None)) as ->.
  { rewrite <- Hy, Hcl, Hn. unfold slots. rewrite fmap_app, <- app_assoc, length_app.
    csimpl. f_equal. f_equal. lia. }
  simpl. rewrite length_app in Hle. simpl in Hle.
  rewrite aset_in
    by (rewrite !length_app, !length_fmap; simpl; rewrite length_replicate, Hn, length_app;
        simpl; lia).
  simpl. rewrite Hn.
  replace (Z.to_nat (Z.of_nat (length (l1 ++ p :: l2)) - 1))
    with (length l1 + length l2)%nat by (rewrite length_app; simpl; lia).
  rewrite slots_remove by (rewrite length_app; simpl; lia).
  do 3 f_equal. f_equal. rewrite !length_app. simpl. lia.
Qed.

Lemma remove_client_missing (s : smodule) (cs : list ptr) (p : ptr) :
  clients s = slots cs → client_count s = Z.of_nat (length cs) → p ∉ cs →
  smodule_remove_client p s = Ok (-1, s, []).
Proof.
  intros Hcl Hn Hp. unfold smodule_remove_client. munfold.
  assert (find_client (clients s) p (seqZ 0 (client_count s)) = Ok None) as ->.
  { rewrite Hcl, Hn. apply (find_client_missing cs p Hp []). }
  done.
Qed.

(** ** Well-formedness is kept *)

Lemma wf_same_registry (s s' : smodule) :
  wf s →
  handle_last s' = handle_last s →
  sensor_list s' = sensor_list s → sensor_count s' = sensor_count s →
  length (sensors_enabled s') = length (sensors_enabled s) →
  length (sensor_delay_ns s') = length (sensor_delay_ns s) →
  clients s' = clients s → client_count s' = client_count s →
  next_ptr s' = next_ptr s →
  (∀ p c', heap s' !! p = Some c' →
     ∃ c, heap s !! p = Some c
          ∧ length (client_sensor_enabled c') = length (client_sensor_enabled c)
          ∧ length (client_sensor_delay_ns c') = length (client_sensor_delay_ns c)) →
  (∀ p, is_Some (heap s !! p) → is_Some (heap s' !! p)) →
  wf s'.
Proof.
  intros [H1 H2 H3 H4 H5 H6 (cs & Hc1 & Hc2 & Hc3 & Hc4 & Hc5)] Ehl Esl Esc Een Edl Ecl Ecc Enp Hh1 Hh2.
  split; unfold nfields in *; rewrite ?Ehl, ?Esl, ?Esc, ?Een, ?Edl, ?Enp; try done.
  - intros p c' Hp. destruct (Hh1 p c' Hp) as (c & Hc & E1 & E2).
    destruct (H5 p c Hc) as [G1 G2]. split; unfold nfields in *; rewrite ?Ehl; congruence.
  - intros p [c' Hp]. destruct (Hh1 p c' Hp) as (c & Hc & _). apply H6. by exists c.
  - exists cs. rewrite Ecl, Ecc. split_and!; try done. intros p Hp. by apply Hh2, Hc5.
Qed.

Lemma wf_activate_post (s : smodule) (p : ptr) (c : smodule_client) (h v : Z) :
  wf s → heap s !! p = Some c → wf (activate_post p c h v s).
Proof.
  intros Hwf Hp. unfold activate_post. destruct (redundant c h v); [done |].
  apply (wf_same_registry s); simpl; try done.
  - by rewrite length_insert.
  - intros q c' Hq. destruct (decide (q = p)) as [-> | Hne].
    + rewrite lookup_insert_eq in Hq. injection Hq as <-. exists c. simpl.
      by rewrite length_insert.
    + rewrite lookup_insert_ne in Hq by done. by exists c'.
  - intros q Hq. destruct (decide (q = p)) as [-> | Hne].
    + rewrite lookup_insert_eq. by eexists.
    + by rewrite lookup_insert_ne.
Qed.

Lemma wf_delay_post (s : smodule) (h : Z) : wf s → wf (delay_post h s).
Proof.
  intros Hwf. unfold delay_post. destruct (delay_changes s h); [| done].
  apply (wf_same_registry s); simpl; try done.
  - by rewrite length_insert.
  - intros q c' Hq. by exists c'.
Qed.

Lemma wf_store_delay (s : smodule) (p : ptr) (c : smodule_client) (h d : Z) :
  wf s → heap s !! p = Some c →
  wf (set_heap (<[p := set_client_sensor_delay_ns
                          (<[Z.to_nat h := d]> (client_sensor_delay_ns c)) c]> (heap s)) s).
Proof.
  intros Hwf Hp. apply (wf_same_registry s); simpl; try done.
  - intros q c' Hq. destruct (decide (q = p)) as [-> | Hne].
    + rewrite lookup_insert_eq in Hq. injection Hq as <-. exists c. simpl.
      by rewrite length_insert.
    + rewrite lookup_insert_ne in Hq by done. by exists c'.
  - intros q Hq. destruct (decide (q = p)) as [-> | Hne].
    + rewrite lookup_insert_eq. by eexists.
    + by rewrite lookup_insert_ne.
Qed.

Lemma wf_add_post (s : smodule) (p : ptr) :
  wf s → is_Some (heap s !! p) → p ∉ registered_ptrs s →
  wf (add_post p (registered_ptrs s) s).
Proof.
  intros Hwf Hp Hnew.
  destruct Hwf as [H1 H2 H3 H4 H5 H6 (cs & Hc1 & Hc2 & Hc3 & Hc4 & Hc5)].
  rewrite (wf_registered_ptrs s cs Hc1 Hc4) in *.
  unfold add_post. destruct (decide (length cs < SMODULE_CLIENT_MAX)%nat) as [Hlt | _].
  - split; simpl; try done.
    exists (cs ++ [p]). rewrite length_app. simpl.
    split_and!; try lia.
    + unfold slots. by rewrite length_app.
    + apply NoDup_app. split_and!; [done | set_solver | apply NoDup_singleton].
    + intros q [Hq | ->%list_elem_of_singleton]%elem_of_app; [by apply Hc5 | done].
  - split; try done. by exists cs.
Qed.

Lemma wf_remove_post (s : smodule) (l1 l2 : list ptr) (p : ptr) :
  wf s → registered_ptrs s = l1 ++ p :: l2 →
  wf (set_heap (delete p (heap s)) (remove_post l1 l2 s)).
Proof.
  intros Hwf Hreg.
  destruct Hwf as [H1 H2 H3 H4 H5 H6 (cs & Hc1 & Hc2 & Hc3 & Hc4 & Hc5)].
  rewrite (wf_registered_ptrs s cs Hc1 Hc4) in Hreg. subst cs.
  apply NoDup_app in Hc2 as (Hn1 & Hn2 & Hn3). apply NoDup_cons in Hn3 as [Hn3 Hn4].
  split; simpl; try done.
  - intros q c Hq. apply lookup_delete_Some in Hq as [_ Hq]. by apply (H5 q c).
  - intros q [c Hq]. apply lookup_delete_Some in Hq as [_ Hq]. apply H6. by exists c.
  - exists (l1 ++ l2). rewrite length_app in *. simpl in *. split_and!; try lia.
    + unfold slots. by rewrite length_app.
    + apply NoDup_app. split_and!; [done | | done]. intros x Hx Hx'. apply (Hn2 x Hx). set_solver.
    + intros q Hq. assert (q ≠ p) by (intros ->; set_solver).
      rewrite lookup_delete_ne by done. apply Hc5. set_solver.
Qed.

Lemma wf_delete_unregistered (s : smodule) (p : ptr) :
  wf s → p ∉ registered_ptrs s → wf (set_heap (delete p (heap s)) s).
Proof.
  intros Hwf Hp.
  destruct Hwf as [H1 H2 H3 H4 H5 H6 (cs & Hc1 & Hc2 & Hc3 & Hc4 & Hc5)].
  rewrite (wf_registered_ptrs s cs Hc1 Hc4) in Hp.
  split; simpl; try done.
  - intros q c Hq. apply lookup_delete_Some in Hq as [_ Hq]. by apply (H5 q c).
  - intros q [c Hq]. apply lookup_delete_Some in Hq as [_ Hq]. apply H6. by exists c.
  - exists cs. split_and!; try done. intros q Hq.
    assert (q ≠ p) by (intros ->; done). rewrite lookup_delete_ne by done. by apply Hc5.
Qed.

(** ** The handshake and [smodule_client_new] in closed form *)

Lemma mapM_aget {A} (l : list A) :
  ∀ pre : list A,
    mapM (aget (pre ++ l)) (seqZ (Z.of_nat (length pre)) (Z.of_nat (length l))) = Ok l.
Proof.
  induction l as [| x l IH]; intros pre; [done |].
  rewrite seqZ_cons by (simpl; lia). simpl. rewrite aget_middle. munfold. simpl.
  replace (Z.succ (Z.of_nat (length pre))) with (Z.of_nat (length (pre ++ [x])))
    by (rewrite length_app; simpl; lia).
  replace (Z.pred (Z.of_nat (S (length l)))) with (Z.of_nat (length l)) by lia.
  specialize (IH (pre ++ [x])). rewrite <- app_assoc in IH. simpl in IH.
  by rewrite IH.
Qed.

Lemma send_list_eq (ok : nat → bool) (s : smodule) (p : ptr) (c : smodule_client) :
  wf s → heap s !! p = Some c →
  smodule_client_send_list ok p s
  = Ok (handshake_result ok, s, handshake ok p (sock_fd c) s).
Proof.
  intros Hwf Hp. unfold smodule_client_send_list, handshake, handshake_result.
  munfoldM. rewrite Hp. simpl.
  destruct (ok 0%nat); simpl; [| done].
  rewrite (wf_sensors s Hwf).
  assert (mapM (aget (sensor_list s)) (seqZ 0 (Z.of_nat (length (sensor_list s))))
          = Ok (sensor_list s)) as -> by apply (mapM_aget (sensor_list s) []).
  simpl.
  destruct (ok 1%nat); simpl; [| done].
  destruct (ok 2%nat); done.
Qed.

Lemma wf_new_post (env : accept_env) (s : smodule) : wf s → wf (new_post env s).
Proof.
  intros [H1 H2 H3 H4 H5 H6 (cs & Hc1 & Hc2 & Hc3 & Hc4 & Hc5)].
  split; simpl; try done.
  - intros q c Hq. destruct (decide (q = next_ptr s)) as [-> | Hne].
    + rewrite lookup_insert_eq in Hq. injection Hq as <-.
      split; simpl; by rewrite length_replicate.
    + rewrite lookup_insert_ne in Hq by done. by apply (H5 q c).
  - intros q Hq. destruct (decide (q = next_ptr s)) as [-> | Hne]; [lia |].
    rewrite lookup_insert_ne in Hq by done. apply H6 in Hq. lia.
  - exists cs. split_and!; try done. intros q Hq.
    destruct (decide (q = next_ptr s)) as [-> | Hne].
    + rewrite lookup_insert_eq. by eexists.
    + rewrite lookup_insert_ne by done. by apply Hc5.
Qed.

Lemma new_post_unregistered (env : accept_env) (s : smodule) :
  wf s → next_ptr s ∉ registered_ptrs (new_post env s).
Proof.
  intros Hwf Hin.
  destruct (wf_registry s Hwf) as (cs & Hc1 & Hc2 & Hc3 & Hc4 & Hc5).
  unfold registered_ptrs in Hin. simpl in Hin.
  fold (registered_ptrs s) in Hin. rewrite (wf_registered_ptrs s cs Hc1 Hc4) in Hin.
  apply Hc5, (wf_fresh s Hwf) in Hin. lia.
Qed.

Lemma client_new_eq (env : accept_env) (s : smodule) :
  wf s →
  smodule_client_new env s =
    if accept_fd env <? 0 then Ok (None, s, [])
    else if alloc_ok env then
      Ok (Some (next_ptr s), new_post env s,
          EpollAdd (accept_fd env)
            :: handshake (send_ok env) (next_ptr s) (accept_fd env) s)
    else Ok (None, s, [Close (accept_fd env)]).
Proof.
  intros Hwf. unfold smodule_client_new, alloc_ok.
  destruct (accept_fd env <? 0); [done |].
  destruct (calloc_client_ok env && calloc_enabled_ok env && calloc_delay_ok env);
    simpl; [| done].
  munfold. simpl. change (set_next_ptr _ _) with (new_post env s).
  rewrite (send_list_eq (send_ok env) (new_post env s) (next_ptr s)
             (new_client (accept_fd env) (nfields s)) (wf_new_post env s Hwf))
    by (simpl; by rewrite lookup_insert_eq).
  by rewrite app_nil_r.
Qed.

(** ** [smodule_client_free] in closed form *)

Lemma activate_post_handle_last (p : ptr) (c : smodule_client) (h v : Z) (s : smodule) :
  handle_last (activate_post p c h v s) = handle_last s.
Proof. unfold activate_post. by destruct (redundant c h v). Qed.

Lemma activate_post_live (p : ptr) (c : smodule_client) (h v : Z) (s : smodule) :
  heap s !! p = Some c → is_Some (heap (activate_post p c h v s) !! p).
Proof.
  intros Hp. unfold activate_post. destruct (redundant c h v); simpl; [by eexists |].
  rewrite lookup_insert_eq. by eexists.
Qed.

Lemma activate_post_registry (p : ptr) (c : smodule_client) (h v : Z) (s : smodule) :
  clients (activate_post p c h v s) = clients s
  ∧ client_count (activate_post p c h v s) = client_count s
  ∧ next_ptr (activate_post p c h v s) = next_ptr s.
Proof. unfold activate_post. by destruct (redundant c h v). Qed.

Lemma free_loop_eq (la : bool) (p : ptr) (hs : list Z) :
  ∀ s, wf s → is_Some (heap s !! p) → Forall (in_range s) hs →
    free_loop la p hs s
    = Ok (tt, (disable_handles p hs s).1, (disable_handles p hs s).2).
Proof.
  induction hs as [| h hs IH]; intros s Hwf [c Hp] Hhs; [done |].
  apply Forall_cons in Hhs as [Hh Hhs].
  pose proof (wf_heap s Hwf p c Hp) as [Hce Hcd].
  apply in_range_fields in Hh as Hh'.
  destruct (aget_in (client_sensor_enabled c) h) as (en & Hen & Hge); [rewrite Hce; lia |].
  unfold free_loop in *. simpl. rewrite Hp.
  assert (IH' : mfor hs (λ i, c ← deref p;
                  en ← lift (aget (client_sensor_enabled c) i);
                  if (en : bool) then smodule_client_update_activate la p i 0 else mret tt)
                (activate_post p c h 0 s)
                = Ok (tt, (disable_handles p hs (activate_post p c h 0 s)).1,
                      (disable_handles p hs (activate_post p c h 0 s)).2)).
  { apply IH.
    - by apply wf_activate_post.
    - by apply activate_post_live.
    - eapply Forall_impl; [exact Hhs |]. intros x. unfold in_range.
      by rewrite activate_post_handle_last. }
  destruct (disable_handles p hs (activate_post p c h 0 s)) as [s' o] eqn:Ed.
  munfoldM. rewrite Hp. simpl. rewrite Hge. simpl.
  destruct en.
  - rewrite (update_activate_eq la s p c h 0 Hwf Hh Hp). rewrite IH'. done.
  - assert (activate_post p c h 0 s = s) as Es
      by (unfold activate_post, redundant, is_enabled; by rewrite Hen).
    assert (activate_calls c h 0 s = []) as Ec
      by (unfold activate_calls, redundant, is_enabled; by rewrite Hen).
    rewrite Es in IH'. rewrite IH', Ec. done.
Qed.

(** ** What an activation request changes *)

Lemma activate_post_count (s : smodule) (p : ptr) (c : smodule_client) (h v h' : Z) :
  wf s → in_range s h → 0 ≤ h' →
  enabled_count (activate_post p c h v s) h'
  = enabled_count s h' + (if decide (h' = h) then count_delta c h v else 0).
Proof.
  intros Hwf Hh Hh'. apply in_range_fields in Hh.
  unfold activate_post, count_delta. destruct (redundant c h v).
  { destruct (decide (h' = h)); lia. }
  unfold enabled_count. simpl. destruct (decide (h' = h)) as [-> | Hne].
  - rewrite list_lookup_insert_eq by (rewrite (wf_enabled s Hwf); lia). simpl.
    destruct (v =? 0); lia.
  - rewrite list_lookup_insert_ne by lia. lia.
Qed.

Lemma activate_post_delay (s : smodule) (p : ptr) (c : smodule_client) (h v : Z) :
  sensor_delay_ns (activate_post p c h v s) = sensor_delay_ns s
  ∧ sensor_list (activate_post p c h v s) = sensor_list s
  ∧ sensor_count (activate_post p c h v s) = sensor_count s.
Proof. unfold activate_post. by destruct (redundant c h v). Qed.

Lemma activate_post_heap_other (s : smodule) (p q : ptr) (c : smodule_client) (h v : Z) :
  q ≠ p → heap (activate_post p c h v s) !! q = heap s !! q.
Proof.
  intros Hne. unfold activate_post. destruct (redundant c h v); [done |].
  simpl. by rewrite lookup_insert_ne.
Qed.

Lemma activate_post_heap_self (s : smodule) (p : ptr) (c : smodule_client) (h v : Z) :
  heap s !! p = Some c →
  heap (activate_post p c h v s) !! p = Some (activate_client c h v).
Proof.
  intros Hp. unfold activate_post, activate_client. destruct (redundant c h v); [done |].
  simpl. by rewrite lookup_insert_eq.
Qed.

Lemma activate_client_enabled (n : nat) (c : smodule_client) (h v h' : Z) :
  wf_client n c → 0 ≤ h < Z.of_nat n → 0 ≤ h' →
  is_enabled (activate_client c h v) h'
  = if decide (h' = h) then negb (v =? 0) else is_enabled c h'.
Proof.
  intros [Hce Hcd] Hh Hh'. unfold activate_client, redundant.
  destruct (eqb (is_enabled c h) (negb (v =? 0))) eqn:E.
  - apply eqb_prop in E. destruct (decide (h' = h)) as [-> | _]; done.
  - unfold is_enabled. simpl. destruct (decide (h' = h)) as [-> | Hne].
    + by rewrite list_lookup_insert_eq by lia.
    + by rewrite list_lookup_insert_ne by lia.
Qed.

Lemma activate_client_delay (c : smodule_client) (h v : Z) :
  client_sensor_delay_ns (activate_client c h v) = client_sensor_delay_ns c
  ∧ sock_fd (activate_client c h v) = sock_fd c.
Proof. unfold activate_client. by destruct (redundant c h v). Qed.

Lemma activate_calls_disable (c : smodule_client) (s : smodule) (h : Z) :
  activate_calls c h 0 s
  = if is_enabled c h && (enabled_count s h =? 1) then [DevActivate h 0] else [].
Proof.
  unfold activate_calls, redundant. simpl.
  destruct (is_enabled c h); simpl; [| done].
  by destruct (enabled_count s h =? 1).
Qed.

Lemma bind_ext_in {A B} (f g : A → list B) (l : list A) :
  (∀ x, x ∈ l → f x = g x) → l ≫= f = l ≫= g.
Proof.
  induction l as [| x l IH]; intros Hfg; [done |]. csimpl.
  rewrite Hfg by set_solver. f_equal. apply IH. intros y Hy. apply Hfg. set_solver.
Qed.

Lemma disable_handles_spec (p : ptr) (hs : list Z) :
  NoDup hs →
  ∀ (s : smodule) (c : smodule_client),
    wf s → heap s !! p = Some c → Forall (in_range s) hs →
    disabled_all p c hs s (disable_handles p hs s).1
    ∧ (disable_handles p hs s).2 = teardown_calls c s hs.
Proof.
  induction 1 as [| h hs Hnotin Hnd IH]; intros s c Hwf Hp Hhs.
  - split; [| done]. split; try done.
    + exists c. split_and!; try done. intros h _.
      rewrite bool_decide_eq_false_2 by set_solver. by rewrite andb_true_r.
    + intros h _. rewrite bool_decide_eq_false_2 by set_solver.
      rewrite andb_false_r. simpl. lia.
  - apply Forall_cons in Hhs as [Hh Hhs]. simpl. rewrite Hp.
    pose proof (wf_heap s Hwf p c Hp) as Hwc.
    apply in_range_fields in Hh as Hh'.
    set (s1 := activate_post p c h 0 s).
    assert (Hwf1 : wf s1) by (by apply wf_activate_post).
    assert (Hp1 : heap s1 !! p = Some (activate_client c h 0))
      by (by apply activate_post_heap_self).
    assert (Hhs1 : Forall (in_range s1) hs).
    { eapply Forall_impl; [exact Hhs |]. intros x. unfold in_range, s1.
      by rewrite activate_post_handle_last. }
    destruct (IH s1 (activate_client c h 0) Hwf1 Hp1 Hhs1) as [Hda Hcalls].
    destruct (disable_handles p hs s1) as [s' o] eqn:Ed. simpl in *.
    assert (Hcnt1 : ∀ x, x ∈ hs → enabled_count s1 x = enabled_count s x).
    { intros x Hx. unfold s1. rewrite (activate_post_count s p c h 0 x Hwf Hh).
      - rewrite decide_False by (intros ->; done). lia.
      - rewrite Forall_forall in Hhs. by destruct (Hhs x Hx). }
    assert (Hen1 : ∀ x, 0 ≤ x → x ≠ h →
                   is_enabled (activate_client c h 0) x = is_enabled c x).
    { intros x Hx Hne.
      rewrite (activate_client_enabled (nfields s) c h 0 x Hwc Hh' Hx).
      by rewrite decide_False. }
    split.
    + destruct Hda as [D1 D2 [D3 D3'] D4 D5 [D6 D6'] D7 (c' & D8 & D8' & D8'') D9].
      destruct (activate_post_registry p c h 0 s) as (R1 & R2 & R3).
      destruct (activate_post_delay s p c h 0) as (R4 & R5 & R6).
      split; fold s1 in R1, R2, R3, R4, R5, R6; try congruence.
      * rewrite D2. apply activate_post_handle_last.
      * split; congruence.
      * split; congruence.
      * intros q Hq. rewrite (D7 q Hq). by apply activate_post_heap_other.
      * exists c'. split_and!; [done | |].
        { rewrite D8'. apply activate_client_delay. }
        intros x Hx. rewrite (D8'' x Hx).
        rewrite (activate_client_enabled (nfields s) c h 0 x Hwc Hh' Hx).
        destruct (decide (x = h)) as [-> | Hne].
        -- rewrite (bool_decide_eq_true_2 (h ∈ h :: hs)) by set_solver.
           simpl. by rewrite andb_false_r.
        -- destruct (bool_decide (x ∈ hs)) eqn:E1.
           ++ apply bool_decide_eq_true_1 in E1.
              rewrite (bool_decide_eq_true_2 (x ∈ h :: hs)) by set_solver. done.
           ++ apply bool_decide_eq_false_1 in E1.
              rewrite (bool_decide_eq_false_2 (x ∈ h :: hs)) by set_solver. done.
      * intros x Hx. rewrite (D9 x Hx).
        unfold s1. rewrite (activate_post_count s p c h 0 x Hwf Hh Hx).
        rewrite (activate_client_enabled (nfields s) c h 0 x Hwc Hh' Hx).
        destruct (decide (x = h)) as [-> | Hne].
        -- rewrite (bool_decide_eq_true_2 (h ∈ h :: hs)) by set_solver.
           unfold count_delta, redundant. simpl.
           destruct (is_enabled c h); simpl; lia.
        -- destruct (bool_decide (x ∈ hs)) eqn:E1.
           ++ apply bool_decide_eq_true_1 in E1.
              rewrite (bool_decide_eq_true_2 (x ∈ h :: hs)) by set_solver. lia.
           ++ apply bool_decide_eq_false_1 in E1.
              rewrite (bool_decide_eq_false_2 (x ∈ h :: hs)) by set_solver. lia.
    + rewrite Hcalls. unfold teardown_calls. simpl.
      rewrite activate_calls_disable. f_equal.
      apply bind_ext_in. intros x Hx.
      rewrite Hcnt1 by done. rewrite Hen1; [done | | intros ->; done].
      rewrite Forall_forall in Hhs. by destruct (Hhs x Hx).
Qed.

Lemma all_handles_in_range (s : smodule) (h : Z) : h ∈ all_handles s ↔ in_range s h.
Proof. unfold all_handles, in_range. rewrite elem_of_seqZ. lia. Qed.

Lemma filter_ne_id (p : ptr) (l : list ptr) : p ∉ l → filter (λ q, q ≠ p) l = l.
Proof.
  induction l as [| x l IH]; intros Hp; [done |].
  rewrite filter_cons, decide_True by set_solver. f_equal. apply IH. set_solver.
Qed.

Lemma filter_ne_middle (p : ptr) (l1 l2 : list ptr) :
  p ∉ l1 → p ∉ l2 → filter (λ q, q ≠ p) (l1 ++ p :: l2) = l1 ++ l2.
Proof.
  intros H1 H2. rewrite filter_app, filter_cons, decide_False by (intros ?; done).
  by rewrite !filter_ne_id.
Qed.

Lemma client_free_spec (la : bool) (s : smodule) (p : ptr) (c : smodule_client) :
  wf s → heap s !! p = Some c →
  ∃ s', smodule_client_free la p s
        = Ok (0, s', teardown_calls c s (all_handles s) ++ [EpollDel (sock_fd c)])
        ∧ torn_down p c s s'.
Proof.
  intros Hwf Hp.
  assert (Hhs : Forall (in_range s) (all_handles s))
    by (apply Forall_forall; intros x; apply all_handles_in_range).
  destruct (disable_handles_spec p (all_handles s) (NoDup_seqZ _ _) s c Hwf Hp Hhs)
    as [Hda Hcalls].
  pose proof (free_loop_eq la p (all_handles s) s Hwf ltac:(by eexists) Hhs) as Hloop.
  destruct (disable_handles p (all_handles s) s) as [s1 o1] eqn:Ed. simpl in *.
  destruct Hda as [D1 D2 [D3 D3'] D4 D5 [D6 D6'] D7 (c' & D8 & D8' & D8'') D9].
  destruct (wf_registry s Hwf) as (cs & Hc1 & Hc2 & Hc3 & Hc4 & Hc5).
  pose proof (wf_registered_ptrs s cs Hc1 Hc4) as Hreg.
  assert (Hheap : delete p (heap s1) = delete p (heap s)).
  { apply map_eq. intros q. destruct (decide (q = p)) as [-> | Hne].
    - by rewrite !lookup_delete_eq.
    - rewrite !lookup_delete_ne by done. by apply D7. }
  assert (Hcount : ∀ h, in_range s h →
            enabled_count s1 h = enabled_count s h - (if is_enabled c h then 1 else 0)).
  { intros h Hh. rewrite D9 by (by destruct Hh).
    rewrite bool_decide_eq_true_2 by (by apply all_handles_in_range).
    by rewrite andb_true_r. }
  unfold smodule_client_free. fold (all_handles s). munfoldM. rewrite Hp. simpl.
  fold (all_handles s). rewrite Hloop. simpl.
  destruct (decide (p ∈ cs)) as [Hin | Hnotin].
  - apply list_elem_of_split_l in Hin as (l1 & l2 & -> & Hl1).
    assert (p ∉ l2).
    { apply NoDup_app in Hc2 as (_ & _ & Hc2). by apply NoDup_cons in Hc2 as [Hc2 _]. }
    rewrite (remove_client_found s1 l1 l2 p) by (try done; congruence). simpl.
    eexists. split; [by rewrite Hcalls |].
    pose proof (wf_remove_post s1 l1 l2 p D1) as Hwf'.
    rewrite (wf_registered_ptrs s1 (l1 ++ p :: l2)) in Hwf' by congruence.
    specialize (Hwf' eq_refl).
    split; simpl; try done.
    + rewrite Hreg, filter_ne_middle by done.
      apply (wf_registered_ptrs _ (l1 ++ l2)); done.
  - rewrite (remove_client_missing s1 cs p) by (try done; congruence). simpl.
    eexists. split; [by rewrite Hcalls |].
    assert (Hreg1 : registered_ptrs s1 = cs)
      by (apply wf_registered_ptrs; congruence).
    split; simpl; try done.
    + apply wf_delete_unregistered; [done | by rewrite Hreg1].
    + rewrite Hreg, filter_ne_id by done. exact Hreg1.
Qed.

(** ** The fan-out of [smodule_poll_thread] *)

Lemma bind_Ok {A B} (m : M A) (f : A → M B) (s s' : smodule) (y : B) (o : list action) :
  (m ≫= f) s = Ok (y, s', o) →
  ∃ x s1 o1 o2, m s = Ok (x, s1, o1) ∧ f x s1 = Ok (y, s', o2) ∧ o = o1 ++ o2.
Proof.
  unfold mbind, M_bind. destruct (m s) as [[[x s1] o1] |]; [| done].
  destruct (f x s1) as [[[y' s2] o2] |] eqn:E; [| done].
  intros [= <- <- <-]. by exists x, s1, o1, o2.
Qed.

Lemma lift_Ok {A} (r : result A) (s s' : smodule) (x : A) (o : list action) :
  lift r s = Ok (x, s', o) → r = Ok x ∧ s' = s ∧ o = [].
Proof. unfold lift. destruct r; [| done]. by intros [= <- <- <-]. Qed.

Lemma deref_Ok (p : ptr) (s s' : smodule) (c : smodule_client) (o : list action) :
  deref p s = Ok (c, s', o) → heap s !! p = Some c ∧ s' = s ∧ o = [].
Proof. unfold deref. destruct (heap s !! p); [| done]. by intros [= <- <- <-]. Qed.

Lemma send_events_spec (fails : ptr → Z → bool) (p : ptr) (c : smodule_client)
    (events : list sensors_event_t) (idx : list Z) (s s' : smodule) (o : list action) :
  heap s !! p = Some c →
  send_events fails p c events idx s = Ok (tt, s', o) →
  s' = s ∧ Forall (wanted s) o.
Proof.
  intros Hp. revert o. induction idx as [| j idx IH]; intros o Hrun.
  - injection Hrun as <- <-. by split.
  - simpl in Hrun.
    apply bind_Ok in Hrun as (ev & s1 & o1 & o2 & (Hev & -> & ->)%lift_Ok & Hrun & ->).
    apply bind_Ok in Hrun as (en & s1 & o1 & o3 & (Hen & -> & ->)%lift_Ok & Hrun & ->).
    simpl. destruct en; [| by apply IH].
    apply bind_Ok in Hrun as ([] & s1 & o1 & o4 & Hemit & Hrun & ->).
    injection Hemit as <- <-.
    apply aget_Ok in Hen as [Hge Hen].
    assert (wanted s (SendEvent p (sock_fd c) ev)) by (by exists c).
    destruct (fails p j).
    + injection Hrun as <- <-. split; [done |]. by repeat constructor.
    + destruct (IH _ Hrun) as [-> Hall]. split; [done |]. by constructor.
Qed.

Lemma mfor_state_inv (P : smodule → action → Prop) (body : Z → M unit) (idx : list Z) :
  (∀ i s s' o, body i s = Ok (tt, s', o) → s' = s ∧ Forall (P s) o) →
  ∀ s s' o, mfor idx body s = Ok (tt, s', o) → s' = s ∧ Forall (P s) o.
Proof.
  intros Hbody. induction idx as [| i idx IH]; intros s s' o Hrun.
  - injection Hrun as <- <-. by split.
  - simpl in Hrun.
    apply bind_Ok in Hrun as ([] & s1 & o1 & o2 & H1 & H2 & ->).
    apply Hbody in H1 as [-> H1]. apply IH in H2 as [-> H2].
    split; [done |]. by apply Forall_app.
Qed.

Lemma poll_round_spec (n : Z) (events : list sensors_event_t) (fails : ptr → Z → bool)
    (s s' : smodule) (o : list action) :
  smodule_poll_round n events fails s = Ok (tt, s', o) →
  s' = s ∧ Forall (wanted s) o.
Proof.
  unfold smodule_poll_round. destruct (n <=? 0).
  { intros [= <- <-]. by split. }
  intros Hrun.
  apply bind_Ok in Hrun as (s0 & s1 & o1 & o2 & Hget & Hrun & ->).
  injection Hget as <- <- <-. simpl.
  revert Hrun. apply (mfor_state_inv (λ s a, wanted s a)).
  clear. intros i s0 s' o Hrun.
  apply bind_Ok in Hrun as (p & s1 & o1 & o2 & (Hp & -> & ->)%lift_Ok & Hrun & ->).
  destruct p as [p |]; [| done].
  apply bind_Ok in Hrun as (c & s1 & o1 & o3 & (Hc & -> & ->)%deref_Ok & Hrun & ->).
  simpl. destruct (client_sensors_enabled c <=? 0).
  - injection Hrun as <- <-. by split.
  - by apply (send_events_spec fails p c events (seqZ 0 n) s0 s' o3 Hc).
Qed.

(** ** Commands in closed form *)

Lemma handle_cmd_eq (la : bool) (s : smodule) (p : ptr) (c : smodule_client)
    (x : sensors_proxy_cmd) :
  wf s → heap s !! p = Some c → (uses_handle x = true → in_range s (handle x)) →
  handle_cmd la p x s = Ok (tt, cmd_post p c x s, cmd_calls p c x s).
Proof.
  intros Hwf Hp Hh. unfold handle_cmd, cmd_post, cmd_calls, uses_handle in *.
  destruct (cmd x =? SENSORS_PROXY_CMD_ACTIVATE) eqn:E1.
  - specialize (Hh eq_refl). unfold mbind, M_bind.
    rewrite (update_activate_eq la s p c _ _ Hwf Hh Hp).
    rewrite (update_delay_eq la _ p).
    + done.
    + by apply wf_activate_post.
    + unfold in_range. by rewrite activate_post_handle_last.
    + by apply activate_post_live.
  - destruct (cmd x =? SENSORS_PROXY_CMD_SET_DELAY) eqn:E2; [| done].
    specialize (Hh eq_refl). apply in_range_fields in Hh as Hh'.
    destruct (wf_heap s Hwf p c Hp) as [Hce Hcd].
    unfold mbind at 1 2 3, M_bind, deref, lift, store. rewrite Hp.
    rewrite aset_in by lia. fold (store_delay p c (handle x) (set_delay_ns x) s).
    rewrite (update_delay_eq la _ p).
    + done.
    + by apply wf_store_delay.
    + done.
    + unfold store_delay. simpl. rewrite lookup_insert_eq. by eexists.
Qed.

Lemma update_activate_out (la : bool) (s : smodule) (p : ptr) (c : smodule_client) (h v : Z) :
  wf s → heap s !! p = Some c → ¬ in_range s h →
  smodule_client_update_activate la p h v s
  = Crash (if la then AssertFailed else OutOfBounds).
Proof.
  intros Hwf Hp Hh. unfold smodule_client_update_activate. munfold. rewrite Hp.
  assert ((0 <=? h) && (h <=? handle_last s) = false) as ->.
  { unfold in_range in Hh.
    destruct (Z.leb_spec 0 h), (Z.leb_spec h (handle_last s)); try done. lia. }
  destruct la; simpl; [done |].
  rewrite aget_out; [done |]. rewrite (wf_enabled s Hwf), <- in_range_fields. done.
Qed.

Lemma store_delay_out (la : bool) (s : smodule) (p : ptr) (c : smodule_client)
    (x : sensors_proxy_cmd) :
  wf s → heap s !! p = Some c →
  cmd x = SENSORS_PROXY_CMD_SET_DELAY → ¬ in_range s (handle x) →
  handle_cmd la p x s = Crash OutOfBounds.
Proof.
  intros Hwf Hp Hc Hh. unfold handle_cmd. rewrite Hc. simpl.
  munfold. rewrite Hp.
  destruct (wf_heap s Hwf p c Hp) as [Hce Hcd].
  rewrite aset_out; [done |]. rewrite Hcd, <- in_range_fields. done.
Qed.

Lemma handle_cmd_dangling (la : bool) (s : smodule) (p : ptr) (x : sensors_proxy_cmd) :
  heap s !! p = None → uses_handle x = true →
  handle_cmd la p x s = Crash BadPointer.
Proof.
  intros Hp Hc. unfold handle_cmd, uses_handle in *.
  destruct (cmd x =? SENSORS_PROXY_CMD_ACTIVATE).
  - unfold smodule_client_update_activate. munfold. by rewrite Hp.
  - simpl in Hc. rewrite Hc. munfold. by rewrite Hp.
Qed.

Lemma handle_cmd_Ok (la : bool) (s s' : smodule) (p : ptr) (x : sensors_proxy_cmd)
    (o : list action) :
  wf s → handle_cmd la p x s = Ok (tt, s', o) →
  (uses_handle x = false ∧ s' = s ∧ o = [])
  ∨ (∃ c, uses_handle x = true ∧ heap s !! p = Some c ∧ in_range s (handle x)
          ∧ s' = cmd_post p c x s ∧ o = cmd_calls p c x s).
Proof.
  intros Hwf Hrun. destruct (uses_handle x) eqn:Eu.
  - right. destruct (heap s !! p) as [c |] eqn:Hp.
    + exists c. destruct (decide (in_range s (handle x))) as [Hh | Hh].
      * rewrite (handle_cmd_eq la s p c x Hwf Hp (λ _, Hh)) in Hrun.
        injection Hrun as <- <-. done.
      * exfalso. unfold uses_handle in Eu.
        destruct (cmd x =? SENSORS_PROXY_CMD_ACTIVATE) eqn:E1.
        -- unfold handle_cmd in Hrun. rewrite E1 in Hrun. unfold mbind, M_bind in Hrun.
           by rewrite (update_activate_out la s p c _ _ Hwf Hp Hh) in Hrun.
        -- simpl in Eu. apply Z.eqb_eq in Eu.
           by rewrite (store_delay_out la s p c x Hwf Hp Eu Hh) in Hrun.
    + by rewrite (handle_cmd_dangling la s p x Hp Eu) in Hrun.
  - left. unfold handle_cmd, uses_handle in *.
    destruct (cmd x =? SENSORS_PROXY_CMD_ACTIVATE); [done |].
    destruct (cmd x =? SENSORS_PROXY_CMD_SET_DELAY); [done |].
    by injection Hrun as <- <-.
Qed.

Lemma wf_cmd_post (s : smodule) (p : ptr) (c : smodule_client) (x : sensors_proxy_cmd) :
  wf s → heap s !! p = Some c → wf (cmd_post p c x s).
Proof.
  intros Hwf Hp. unfold cmd_post.
  destruct (cmd x =? SENSORS_PROXY_CMD_ACTIVATE).
  { by apply wf_delay_post, wf_activate_post. }
  destruct (cmd x =? SENSORS_PROXY_CMD_SET_DELAY); [| done].
  by apply wf_delay_post, wf_store_delay.
Qed.

(** ** Events of a client socket and steps of the server *)

Lemma client_event_command (la : bool) (p : ptr) (x : sensors_proxy_cmd) :
  smodule_client_handle_event la p (EvIn (Received x)) = handle_cmd la p x.
Proof. done. Qed.

Lemma client_event_reset (la : bool) (p : ptr) (ev : client_event) (s : smodule) :
  is_reset ev = true →
  smodule_client_handle_event la p ev s
  = (smodule_client_free la p ;; mret tt) s.
Proof.
  unfold is_reset, smodule_client_handle_event.
  destruct ev as [r | e]; [destruct (recv_all r) as [x | e]; [done |] |];
    by intros ->.
Qed.

Lemma client_event_ignored (la : bool) (p : ptr) (ev : client_event) (s : smodule) :
  is_reset ev = false → command_of ev = None →
  smodule_client_handle_event la p ev s = Ok (tt, s, []).
Proof.
  unfold is_reset, command_of, smodule_client_handle_event.
  destruct ev as [[x | e |] | e]; simpl; try done; by intros ->.
Qed.

Lemma client_free_dangling (la : bool) (p : ptr) (s : smodule) :
  heap s !! p = None → smodule_client_free la p s = Crash BadPointer.
Proof. intros Hp. unfold smodule_client_free. munfoldM. by rewrite Hp. Qed.

Lemma client_event_reset_Ok (la : bool) (p : ptr) (ev : client_event) (s s' : smodule)
    (o : list action) :
  wf s → is_reset ev = true →
  smodule_client_handle_event la p ev s = Ok (tt, s', o) →
  ∃ c, heap s !! p = Some c ∧ torn_down p c s s'
       ∧ o = teardown_calls c s (all_handles s) ++ [EpollDel (sock_fd c)].
Proof.
  intros Hwf Hr Hrun. rewrite client_event_reset in Hrun by done.
  destruct (heap s !! p) as [c |] eqn:Hp.
  - destruct (client_free_spec la s p c Hwf Hp) as (s1 & Hfree & Htd).
    unfold mbind, M_bind in Hrun. rewrite Hfree in Hrun. simpl in Hrun.
    injection Hrun as <- <-. exists c. by rewrite app_nil_r.
  - unfold mbind, M_bind in Hrun. by rewrite client_free_dangling in Hrun.
Qed.

Lemma listen_event_eq (epollin : bool) (env : accept_env) (s : smodule) :
  wf s →
  smodule_handle_event epollin env s =
    if epollin && negb (accept_fd env <? 0) then
      if alloc_ok env then
        Ok (tt, add_post (next_ptr s) (registered_ptrs s) (new_post env s),
            EpollAdd (accept_fd env)
              :: handshake (send_ok env) (next_ptr s) (accept_fd env) s)
      else Ok (tt, s, [Close (accept_fd env)])
    else Ok (tt, s, []).
Proof.
  intros Hwf. unfold smodule_handle_event. destruct epollin; [| done].
  unfold mbind, M_bind. rewrite (client_new_eq env s Hwf).
  destruct (accept_fd env <? 0); [done |]. simpl.
  destruct (alloc_ok env); [| done].
  destruct (wf_registry s Hwf) as (cs & Hc1 & Hc2 & Hc3 & Hc4 & Hc5).
  rewrite (add_client_eq (new_post env s) cs (next_ptr s)) by done.
  rewrite (wf_registered_ptrs s cs Hc1 Hc4). simpl. by rewrite app_nil_r.
Qed.

Lemma step_wf (la : bool) (i : input) (s s' : smodule) (o : list action) :
  wf s → step la i s = Ok (tt, s', o) → wf s'.
Proof.
  intros Hwf Hrun. destruct i as [epollin env | p ev | n events fails]; simpl in Hrun.
  - rewrite (listen_event_eq epollin env s Hwf) in Hrun.
    destruct (epollin && negb (accept_fd env <? 0)); [| by injection Hrun as <- <-].
    destruct (alloc_ok env); [| by injection Hrun as <- <-].
    injection Hrun as <- <-.
    pose proof (wf_new_post env s Hwf) as Hwf1.
    pose proof (wf_add_post (new_post env s) (next_ptr s) Hwf1) as Hadd.
    assert (registered_ptrs (new_post env s) = registered_ptrs s) as Hreg by done.
    rewrite Hreg in Hadd. apply Hadd.
    + simpl. rewrite lookup_insert_eq. by eexists.
    + rewrite <- Hreg. by apply new_post_unregistered.
  - destruct (is_reset ev) eqn:Er.
    + by destruct (client_event_reset_Ok la p ev s s' o Hwf Er Hrun) as (c & _ & [] & _).
    + destruct (command_of ev) as [x |] eqn:Ec.
      * destruct ev as [[y | |] |]; try done. injection Ec as ->.
        rewrite client_event_command in Hrun.
        apply handle_cmd_Ok in Hrun as [(_ & -> & _) | (c & _ & Hp & _ & -> & _)];
          [done | | done].
        by apply wf_cmd_post.
      * rewrite client_event_ignored in Hrun by done. by injection Hrun as <- <-.
  - by apply poll_round_spec in Hrun as [-> _].
Qed.

Lemma smodule_new_wf (sl : list sensor_t) (s : smodule) : smodule_new sl = Some s → wf s.
Proof.
  unfold smodule_new. destruct (Z.of_nat (length sl) <=? 0); [done |].
  intros [= <-].
  assert (∀ a, a ≤ fold_left (λ hl x, if hl <? s_handle x then s_handle x else hl) sl a)
    as Hhl.
  { clear. induction sl as [| x sl IH]; intros a; simpl.
    - lia.
    - destruct (a <? s_handle x) eqn:E.
      + apply Z.ltb_lt in E. etrans; [| apply IH]. lia.
      + apply IH. }
  specialize (Hhl 0). fold (last_handle sl) in Hhl.
  split; simpl; unfold nfields; simpl; try done.
  - by rewrite length_replicate.
  - by rewrite length_replicate.
  - intros p [c Hc]. done.
  - exists []. split_and!; try done; [apply NoDup_nil_2 | simpl; lia | set_solver].
Qed.

Lemma run_wf (la : bool) (ins : list input) :
  ∀ s s' os, wf s → run la ins s = Ok (s', os) → wf s'.
Proof.
  induction ins as [| i ins IH]; intros s s' os Hwf Hrun; simpl in Hrun.
  - by injection Hrun as <- <-.
  - destruct (step la i s) as [[[[] s1] o] |] eqn:Hstep; [| done]. simpl in Hrun.
    destruct (run la ins s1) as [[s2 os'] |] eqn:Hrest; [| done]. simpl in Hrun.
    injection Hrun as <- <-. eapply IH; [| exact Hrest]. by eapply step_wf.
Qed.

Lemma after_wf (la : bool) (ins : list input) (s : smodule) : wf s → wf (after la ins s).
Proof.
  intros Hwf. unfold after. destruct (run la ins s) as [[s' os] |] eqn:E; [| done].
  by eapply run_wf.
Qed.

(** ** Idempotence of activation requests *)

(** A request to enable a handle that the session already has enabled,
    or to disable one that it has disabled, is a no-op of
    [smodule_client_update_activate]: the device is not called, and the
    state (the reference counts and every session) is left as it was. *)
Theorem redundant_activate_is_nop (la : bool) (s : smodule) (p : ptr)
    (c : smodule_client) (h v : Z) :
  wf s → in_range s h → heap s !! p = Some c →
  is_enabled c h = negb (v =? 0) →
  smodule_client_update_activate la p h v s = Ok (tt, s, []).
Proof.
  intros Hwf Hh Hp Hen.
  rewrite (update_activate_eq la s p c h v Hwf Hh Hp).
  unfold activate_post, activate_calls, redundant. rewrite Hen.
  by destruct (negb (v =? 0)).
Qed.

(** The whole ACTIVATE command goes on to recompute the delay of the
    handle; for a redundant request that is all it does. *)
Lemma redundant_activate_command (la : bool) (s : smodule) (p : ptr)
    (c : smodule_client) (x : sensors_proxy_cmd) :
  wf s → in_range s (handle x) → heap s !! p = Some c →
  cmd x = SENSORS_PROXY_CMD_ACTIVATE →
  is_enabled c (handle x) = negb (activate_enabled x =? 0) →
  handle_cmd la p x s = Ok (tt, delay_post (handle x) s, delay_calls (handle x) s).
Proof.
  intros Hwf Hh Hp Hc Hen.
  rewrite (handle_cmd_eq la s p c x Hwf Hp (λ _, Hh)).
  unfold cmd_post, cmd_calls. rewrite Hc. simpl.
  unfold activate_post, activate_calls, redundant. rewrite Hen.
  by destruct (negb (activate_enabled x =? 0)).
Qed.

(** ** The delay is set again when a sensor is activated *)

(** C9. When an enabling request takes [enabled_count] from 0 to 1,
    [activate] is called and, if the stored delay of the handle is not
    zero, [setDelay] is called with it right after; with a stored delay of
    zero the activation makes no [setDelay] call. *)
Theorem activation_reissues_delay (la : bool) (s : smodule) (p : ptr)
    (c : smodule_client) (h v : Z) :
  wf s → in_range s h → heap s !! p = Some c →
  v ≠ 0 → is_enabled c h = false → enabled_count s h = 0 →
  ∃ s', smodule_client_update_activate la p h v s
        = Ok (tt, s',
              DevActivate h v ::
                (if effective_delay s h =? 0 then []
                 else [DevSetDelay h (effective_delay s h)]))
        ∧ enabled_count s' h = 1
        ∧ effective_delay s' h = effective_delay s h.
Proof.
  intros Hwf Hh Hp Hv Hen Hcnt.
  rewrite (update_activate_eq la s p c h v Hwf Hh Hp).
  eexists. split_and!.
  - unfold activate_calls, redundant. rewrite Hen, Hcnt.
    apply Z.eqb_neq in Hv. rewrite Hv. done.
  - rewrite (activate_post_count s p c h v h Hwf Hh) by (by destruct Hh).
    rewrite decide_True by done. unfold count_delta, redundant.
    rewrite Hen, Hcnt. apply Z.eqb_neq in Hv. by rewrite Hv.
  - unfold effective_delay. by destruct (activate_post_delay s p c h v) as [-> _].
Qed.

(** ** Handles of commands are not checked *)

(** C10. A command that names a handle is carried out without a fault
    exactly when the handle lies in [0, handle_last]: there is no check
    that would turn a bad handle into an ignored command.  For SET_DELAY
    the store into the delay array of the session comes first, so the
    outcome is the out-of-bounds store whether or not assertions are
    compiled in; for ACTIVATE the assertion, if compiled in, fires before
    the arrays are touched. *)
Theorem command_handle_unchecked (la : bool) (s : smodule) (p : ptr)
    (c : smodule_client) (x : sensors_proxy_cmd) :
  wf s → heap s !! p = Some c → uses_handle x = true →
  ((∃ r, handle_cmd la p x s = Ok r) ↔ in_range s (handle x))
  ∧ (¬ in_range s (handle x) →
     handle_cmd la p x s =
       if cmd x =? SENSORS_PROXY_CMD_SET_DELAY then Crash OutOfBounds
       else Crash (if la then AssertFailed else OutOfBounds)).
Proof.
  intros Hwf Hp Hu.
  assert (Hout : ¬ in_range s (handle x) →
     handle_cmd la p x s =
       if cmd x =? SENSORS_PROXY_CMD_SET_DELAY then Crash OutOfBounds
       else Crash (if la then AssertFailed else OutOfBounds)).
  { intros Hh. unfold uses_handle in Hu.
    destruct (cmd x =? SENSORS_PROXY_CMD_SET_DELAY) eqn:E2.
    - apply Z.eqb_eq in E2. by apply (store_delay_out la s p c).
    - rewrite orb_false_r in Hu. unfold handle_cmd. rewrite Hu.
      unfold mbind, M_bind. by rewrite (update_activate_out la s p c _ _ Hwf Hp Hh). }
  split; [| done]. split.
  - intros [r Hr]. destruct (decide (in_range s (handle x))) as [Hh | Hh]; [done |].
    rewrite (Hout Hh) in Hr. by destruct (cmd x =? SENSORS_PROXY_CMD_SET_DELAY).
  - intros Hh. eexists. by apply (handle_cmd_eq la s p c x Hwf Hp).
Qed.

(** ** The lowest requested delay *)

Lemma delay_step_cases (h m0 : Z) (c : smodule_client) :
  m0 ≤ LLONG_MAX →
  (delay_step h m0 c = requested_delay c h ∧ asks below_sentinel h c = true
   ∧ requested_delay c h < m0)
  ∨ (delay_step h m0 c = m0
     ∧ (asks below_sentinel h c = true → m0 ≤ requested_delay c h)).
Proof.
  intros Hm0. unfold delay_step, asks, below_sentinel.
  destruct (is_enabled c h); simpl; [| by right].
  destruct (Z.ltb_spec 0 (requested_delay c h)); simpl; [| by right].
  destruct (Z.ltb_spec (requested_delay c h) m0); simpl.
  - left. split_and!; [done | apply Z.ltb_lt; lia | done].
  - right. split; [done | lia].
Qed.

Lemma delay_fold_spec (h : Z) (l : list smodule_client) :
  ∀ m0, m0 ≤ LLONG_MAX →
    let r := fold_left (delay_step h) l m0 in
    r ≤ m0
    ∧ (∀ c, c ∈ l → asks below_sentinel h c = true → r ≤ requested_delay c h)
    ∧ (r = m0 ∨ ∃ c, c ∈ l ∧ asks below_sentinel h c = true ∧ r = requested_delay c h).
Proof.
  induction l as [| c l IH]; intros m0 Hm0; simpl.
  - split_and!; [lia | set_solver | by left].
  - destruct (delay_step_cases h m0 c Hm0) as [(E & Ha & Hlt) | (E & Hge)]; rewrite E.
    + destruct (IH (requested_delay c h) ltac:(lia)) as (H1 & H2 & H3).
      split_and!.
      * lia.
      * intros c' [-> | Hc']%elem_of_cons Ha'; [done | by apply H2].
      * right. destruct H3 as [-> | (c' & Hc' & Ha' & ->)].
        -- exists c. split_and!; [set_solver | done | done].
        -- exists c'. split_and!; [set_solver | done | done].
    + destruct (IH m0 Hm0) as (H1 & H2 & H3). split_and!.
      * done.
      * intros c' [-> | Hc']%elem_of_cons Ha'; [| by apply H2].
        specialize (Hge Ha'). lia.
      * destruct H3 as [-> | (c' & Hc' & Ha' & ->)]; [by left | right].
        exists c'. split_and!; [set_solver | done | done].
Qed.

Lemma requests_elem (counts : Z → bool) (s : smodule) (h d : Z) :
  d ∈ requests counts s h
  ↔ ∃ c, c ∈ registered s ∧ asks counts h c = true ∧ d = requested_delay c h.
Proof.
  unfold requests. rewrite list_elem_of_fmap. split.
  - intros (c & -> & Hc). apply list_elem_of_filter in Hc as [Ha Hc]. by exists c.
  - intros (c & Hc & Ha & ->). exists c. split; [done |].
    by apply list_elem_of_filter.
Qed.

Lemma delay_min_none (s : smodule) (h : Z) :
  requests below_sentinel s h = [] → delay_min_of s h = LLONG_MAX.
Proof.
  intros Hnone. unfold delay_min_of.
  destruct (delay_fold_spec h (registered s) LLONG_MAX ltac:(done)) as (_ & _ & H3).
  destruct H3 as [-> | (c & Hc & Ha & _)]; [done |].
  assert (requested_delay c h ∈ requests below_sentinel s h) as Hin
    by (apply requests_elem; by exists c).
  rewrite Hnone in Hin. by apply elem_of_nil in Hin.
Qed.

Lemma delay_min_some (s : smodule) (h m : Z) :
  is_minimum m (requests below_sentinel s h) →
  delay_min_of s h = m ∧ 0 < m < LLONG_MAX.
Proof.
  intros [Hin Hmin]. unfold delay_min_of.
  destruct (delay_fold_spec h (registered s) LLONG_MAX ltac:(done)) as (_ & H2 & H3).
  apply requests_elem in Hin as (c & Hc & Ha & ->).
  assert (Hrange : 0 < requested_delay c h < LLONG_MAX).
  { unfold asks, below_sentinel in Ha.
    apply andb_prop in Ha as [_ Ha]. apply andb_prop in Ha as [H0 H1].
    apply Z.ltb_lt in H0, H1. lia. }
  split; [| done].
  specialize (H2 c Hc Ha).
  destruct H3 as [E | (c' & Hc' & Ha' & E)]; [lia |].
  assert (requested_delay c h ≤ requested_delay c' h)
    by (apply Hmin, requests_elem; by exists c').
  lia.
Qed.

(** C7 (as the code has it). [update_delay] takes the minimum over the
    requested delays of the registered sessions that have the handle
    enabled, where a request counts if it is positive and below
    [LLONG_MAX]; without such a request neither the stored delay nor the
    device is touched; otherwise [setDelay] is called and the delay stored
    exactly when the minimum differs from the stored delay or the stored
    delay is zero. *)
Theorem update_delay_min (la : bool) (s : smodule) (p : ptr) (h : Z) :
  wf s → in_range s h → is_Some (heap s !! p) →
  update_delay_policy below_sentinel la s p h.
Proof.
  intros Hwf Hh Hp. unfold update_delay_policy.
  rewrite (update_delay_eq la s p h Hwf Hh Hp).
  eexists _, _. split; [done |]. unfold delay_post, delay_calls, delay_changes. split.
  - intros Hnone. rewrite (delay_min_none s h Hnone), Z.eqb_refl. done.
  - intros m Hm. destruct (delay_min_some s h m Hm) as [-> Hrange].
    assert ((m =? LLONG_MAX) = false) as -> by (apply Z.eqb_neq; lia). simpl.
    destruct (decide (m ≠ effective_delay s h ∨ effective_delay s h = 0)) as [Hd | Hd].
    + assert ((effective_delay s h =? 0) || negb (m =? effective_delay s h) = true) as ->;
        [| done].
      destruct Hd as [Hd | Hd].
      * apply Z.eqb_neq in Hd. rewrite Hd. by rewrite orb_true_r.
      * apply Z.eqb_eq in Hd. by rewrite Hd.
    + assert ((effective_delay s h =? 0) || negb (m =? effective_delay s h) = false) as ->;
        [| done].
      apply orb_false_intro.
      * apply Z.eqb_neq. intros E. apply Hd. by right.
      * apply negb_false_iff, Z.eqb_eq.
        destruct (decide (m = effective_delay s h)); [done |]. exfalso. apply Hd. by left.
Qed.

(** ** The example states, and the properties above at concrete inputs *)

Lemma demo_boot_new : smodule_new demo_sensors = Some demo_boot.
Proof. reflexivity. Qed.

Lemma demo_boot_wf : wf demo_boot.
Proof. apply (smodule_new_wf demo_sensors), demo_boot_new. Qed.

Lemma redundant_activate_is_nop_witness :
  smodule_client_update_activate true 1%nat 3 1 demo_enabled = Ok (tt, demo_enabled, []).
Proof.
  eapply (redundant_activate_is_nop true demo_enabled 1%nat _ 3 1).
  - apply after_wf, demo_boot_wf.
  - vm_compute. split; discriminate.
  - reflexivity.
  - reflexivity.
Defined.

Lemma activation_reissues_delay_witness :
  ∃ s', smodule_client_update_activate true 1%nat 3 1 demo_idle
        = Ok (tt, s', [DevActivate 3 1; DevSetDelay 3 (ms 50)])
        ∧ enabled_count s' 3 = 1
        ∧ effective_delay s' 3 = ms 50.
Proof.
  eapply (activation_reissues_delay true demo_idle 1%nat _ 3 1).
  - apply after_wf, demo_boot_wf.
  - vm_compute. split; discriminate.
  - reflexivity.
  - discriminate.
  - reflexivity.
  - reflexivity.
Defined.

Lemma command_handle_unchecked_witness :
  ((∃ r, handle_cmd true 1%nat (SET_DELAY 4 (ms 10)) demo_enabled = Ok r)
   ↔ in_range demo_enabled 4)
  ∧ (¬ in_range demo_enabled 4 →
     handle_cmd true 1%nat (SET_DELAY 4 (ms 10)) demo_enabled = Crash OutOfBounds).
Proof.
  eapply (command_handle_unchecked true demo_enabled 1%nat _ (SET_DELAY 4 (ms 10))).
  - apply after_wf, demo_boot_wf.
  - reflexivity.
  - reflexivity.
Defined.

Lemma update_delay_min_witness : update_delay_policy below_sentinel true demo_three 1%nat 3.
Proof.
  apply (update_delay_min true demo_three 1%nat 3).
  - apply after_wf, demo_boot_wf.
  - vm_compute. split; discriminate.
  - vm_compute. eexists. reflexivity.
Defined.

(** ** The sentinel of the delay loop *)

(** C7, as stated, fails for a request of [LLONG_MAX] ns: it is positive
    and the only request, so it is the minimum and differs from the stored
    delay 0, yet the code takes it for "no request" and calls nothing. *)
Lemma update_delay_positive_counterexample :
  requests positive demo_sentinel 3 = [LLONG_MAX]
  ∧ effective_delay demo_sentinel 3 = 0
  ∧ smodule_client_update_delay true 1%nat 3 demo_sentinel = Ok (tt, demo_sentinel, [])
  ∧ ¬ update_delay_policy positive true demo_sentinel 1%nat 3.
Proof.
  assert (Hreq : requests positive demo_sentinel 3 = [LLONG_MAX]) by (vm_compute; reflexivity).
  assert (Hrun : smodule_client_update_delay true 1%nat 3 demo_sentinel
                 = Ok (tt, demo_sentinel, [])) by (vm_compute; reflexivity).
  split_and!; [done | reflexivity | done |].
  intros (s' & o & Hrun' & _ & Hmin).
  rewrite Hrun in Hrun'. injection Hrun' as <- <-.
  specialize (Hmin LLONG_MAX). rewrite Hreq in Hmin.
  assert (Hm : is_minimum LLONG_MAX [LLONG_MAX]).
  { split; [set_solver |]. intros d ->%list_elem_of_singleton. lia. }
  specialize (Hmin Hm).
  destruct (decide (LLONG_MAX ≠ effective_delay demo_sentinel 3
                    ∨ effective_delay demo_sentinel 3 = 0)) as [_ | Hn].
  - by destruct Hmin as [Hcalls _].
  - apply Hn. right. reflexivity.
Qed.

(** ** Tear-down of a client *)

(** C5, as stated, fails for a read error other than a connection reset:
    the event changes nothing, so the client that had sensor 3 enabled
    stays in the registry and the sensor keeps its reference. *)
Lemma read_error_counterexample :
  heap demo_enabled !! 1%nat
    = Some {| sock_fd := 10; client_sensors_enabled := 1;
              client_sensor_enabled := [false; false; false; true];
              client_sensor_delay_ns := [0; 0; 0; 0] |}
  ∧ smodule_client_handle_event true 1%nat (EvIn (RecvError EIO)) demo_enabled
    = Ok (tt, demo_enabled, [])
  ∧ registered_ptrs demo_enabled = [1%nat]
  ∧ enabled_count demo_enabled 3 = 1
  ∧ ¬ torn_down_by true demo_enabled 1%nat
        {| sock_fd := 10; client_sensors_enabled := 1;
           client_sensor_enabled := [false; false; false; true];
           client_sensor_delay_ns := [0; 0; 0; 0] |}
        (EvIn (RecvError EIO)).
Proof.
  split_and!; [reflexivity | reflexivity | reflexivity | reflexivity |].
  intros (s' & Hrun & Htd). injection Hrun as <- _.
  pose proof (td_heap _ _ _ _ Htd) as Hheap.
  assert (heap demo_enabled !! 1%nat = None) as Hgone
    by (rewrite Hheap; apply lookup_delete_eq).
  discriminate Hgone.
Qed.

(** C5 (as the code has it). A failed read of a command tears the client
    down when [errno] is [ECONNRESET], which is also what a shutdown of the
    peer is turned into: every handle the client had enabled loses one
    reference, [activate(handle, 0)] is called for those that drop from 1
    to 0, and the client leaves the registry and the heap.  After any other
    read error the state is left as it was and nothing is called. *)
Theorem teardown_on_reset (la : bool) (s : smodule) (p : ptr) (c : smodule_client)
    (r : recv_outcome) (e : Z) :
  wf s → heap s !! p = Some c → recv_all r = inr e →
  if e =? ECONNRESET then torn_down_by la s p c (EvIn r)
  else smodule_client_handle_event la p (EvIn r) s = Ok (tt, s, []).
Proof.
  intros Hwf Hp Hr. destruct (e =? ECONNRESET) eqn:Ee.
  - unfold torn_down_by. rewrite client_event_reset by (simpl; by rewrite Hr).
    destruct (client_free_spec la s p c Hwf Hp) as (s' & Hfree & Htd).
    exists s'. split; [| done]. unfold mbind, M_bind. rewrite Hfree. simpl.
    by rewrite app_nil_r.
  - apply client_event_ignored.
    + simpl. by rewrite Hr.
    + by destruct r.
Qed.

Lemma teardown_on_reset_witness :
  torn_down_by true demo_enabled 1%nat
    {| sock_fd := 10; client_sensors_enabled := 1;
       client_sensor_enabled := [false; false; false; true];
       client_sensor_delay_ns := [0; 0; 0; 0] |}
    (EvIn PeerShutdown).
Proof.
  apply (teardown_on_reset true demo_enabled 1%nat _ PeerShutdown ECONNRESET).
  - apply after_wf, demo_boot_wf.
  - reflexivity.
  - reflexivity.
Defined.

(** A tear-down never touches the stored delays and never calls
    [setDelay]. *)
Lemma teardown_keeps_delay (la : bool) (s s' : smodule) (p : ptr) (ev : client_event)
    (o : list action) :
  wf s → is_reset ev = true →
  smodule_client_handle_event la p ev s = Ok (tt, s', o) →
  sensor_delay_ns s' = sensor_delay_ns s ∧ ∀ h ns, DevSetDelay h ns ∉ o.
Proof.
  intros Hwf Hr Hrun.
  destruct (client_event_reset_Ok la p ev s s' o Hwf Hr Hrun) as (c & Hp & Htd & ->).
  split; [by destruct Htd |].
  intros h ns [Hin | Hin]%elem_of_app.
  - unfold teardown_calls in Hin. apply list_elem_of_bind in Hin as (x & Hin & _).
    destruct (is_enabled c x && (enabled_count s x =? 1)); set_solver.
  - set_solver.
Qed.

(** ** Three sessions and their delays *)

(** C2 (where the code departs from it). While the three sessions enable
    the sensor, 50 ms and then 20 ms are pushed to the device, and the
    stored delay is the minimum, 20 ms.  When the 20 ms session
    disables the sensor by a command, the delay is recomputed and 50 ms is
    pushed to the device.  When it disconnects instead, the client is
    removed but the delay is not recomputed: nothing is pushed and the
    stored delay stays at 20 ms. *)
Theorem min_delay_after_leave :
  drop 6 (actions_of true demo_three_inputs demo_boot)
  = [[DevActivate 3 1; DevSetDelay 3 (ms 50)]; [DevSetDelay 3 (ms 20)]; []]
  ∧ effective_delay demo_three 3 = ms 20
  ∧ requests below_sentinel demo_three 3 = [ms 50; ms 20; ms 100]
  ∧ outcome (command 2%nat (ACTIVATE 3 0)) demo_three
    = Some (ms 50, [1%nat; 2%nat; 3%nat], [DevSetDelay 3 (ms 50)])
  ∧ outcome (InClient 2%nat (EvIn PeerShutdown)) demo_three
    = Some (ms 20, [1%nat; 3%nat], [EpollDel 11]).
Proof. vm_compute. done. Qed.

(** ** Connections and the registry *)

(** C3 (where the code departs from it). [smodule_add_client] binds the
    first free slot and counts the client, but returns -1 also then.  With
    a full registry the ninth connection is neither closed nor given up:
    the registry is left as it was, the new client stays allocated and
    watched by epoll, and its commands are carried out. *)
Theorem add_client_result :
  (∃ s', smodule_add_client 1%nat (new_post (all_ok 10) demo_boot) = Ok (-1, s', [])
         ∧ registered_ptrs s' = [1%nat] ∧ client_count s' = 1)
  ∧ registered_ptrs demo_full
    = [1%nat; 2%nat; 3%nat; 4%nat; 5%nat; 6%nat; 7%nat; 8%nat]
  ∧ (∃ s' o, step true (connect 18) demo_full = Ok (tt, s', o)
             ∧ registered_ptrs s' = registered_ptrs demo_full
             ∧ is_Some (heap s' !! 9%nat)
             ∧ o = EpollAdd 18 :: handshake (λ _, true) 9%nat 18 demo_full
             ∧ ∃ s'', step true (command 9%nat (ACTIVATE 3 1)) s'
                      = Ok (tt, s'', [DevActivate 3 1])).
Proof.
  split_and!.
  - eexists. split_and!; [vm_compute; reflexivity | reflexivity | reflexivity].
  - reflexivity.
  - eexists _, _. split_and!; [vm_compute; reflexivity | reflexivity | | reflexivity |].
    + vm_compute. by eexists.
    + eexists. vm_compute. reflexivity.
Qed.

(** In every well-formed state the result of [smodule_add_client] is -1. *)
Lemma add_client_always_fails (s : smodule) (p : ptr) :
  wf s → ∃ s', smodule_add_client p s = Ok (-1, s', []).
Proof.
  intros Hwf. destruct (wf_registry s Hwf) as (cs & Hc1 & _ & Hc3 & _).
  eexists. by apply (add_client_eq s cs).
Qed.

(** C4 (where the code departs from it). The handshake is sent before the
    client is put into the registry, but its result is not looked at: a
    client whose handshake failed at the first [send] is registered all
    the same, and once it has enabled a sensor it is sent events. *)
Theorem failed_handshake_is_registered :
  actions_of true
    [InListen true (no_handshake 10); command 1%nat (ACTIVATE 3 1);
     InPoll 1 [demo_event 3] (λ _ _, false)] demo_boot
  = [[EpollAdd 10; SendCount 1%nat 10 3]; [DevActivate 3 1];
     [SendEvent 1%nat 10 (demo_event 3)]]
  ∧ registered_ptrs (after true [InListen true (no_handshake 10)] demo_boot) = [1%nat].
Proof. vm_compute. done. Qed.

(** When [smodule_client_new] returns, all of the handshake has been sent
    and the new client is not yet in the registry. *)
Lemma handshake_before_registration (env : accept_env) (s : smodule) :
  wf s → (accept_fd env <? 0) = false → alloc_ok env = true →
  smodule_client_new env s
  = Ok (Some (next_ptr s), new_post env s,
        EpollAdd (accept_fd env)
          :: handshake (send_ok env) (next_ptr s) (accept_fd env) s)
  ∧ next_ptr s ∉ registered_ptrs (new_post env s).
Proof.
  intros Hwf Hfd Halloc. rewrite (client_new_eq env s Hwf), Hfd, Halloc.
  split; [done | by apply new_post_unregistered].
Qed.

(** ** Isolation of the sessions *)

Lemma delay_post_frame (h : Z) (s : smodule) :
  heap (delay_post h s) = heap s
  ∧ sensors_enabled (delay_post h s) = sensors_enabled s
  ∧ clients (delay_post h s) = clients s
  ∧ client_count (delay_post h s) = client_count s
  ∧ handle_last (delay_post h s) = handle_last s.
Proof. unfold delay_post. by destruct (delay_changes s h). Qed.

Lemma cmd_post_heap (p q : ptr) (c : smodule_client) (x : sensors_proxy_cmd) (s : smodule) :
  heap s !! p = Some c →
  heap (cmd_post p c x s) !! q
  = if decide (q = p) then Some (cmd_client c x) else heap s !! q.
Proof.
  intros Hp. unfold cmd_post, cmd_client.
  destruct (cmd x =? SENSORS_PROXY_CMD_ACTIVATE).
  { destruct (delay_post_frame (handle x)
                (activate_post p c (handle x) (activate_enabled x) s)) as [-> _].
    destruct (decide (q = p)) as [-> | Hne].
    - by apply activate_post_heap_self.
    - by apply activate_post_heap_other. }
  destruct (cmd x =? SENSORS_PROXY_CMD_SET_DELAY).
  { destruct (delay_post_frame (handle x)
                (store_delay p c (handle x) (set_delay_ns x) s)) as [-> _].
    unfold store_delay. simpl. destruct (decide (q = p)) as [-> | Hne].
    - by rewrite lookup_insert_eq.
    - by rewrite lookup_insert_ne. }
  destruct (decide (q = p)) as [-> | Hne]; done.
Qed.

Lemma cmd_post_count (p : ptr) (c : smodule_client) (x : sensors_proxy_cmd) (s : smodule)
    (h : Z) :
  wf s → in_range s (handle x) → 0 ≤ h →
  enabled_count (cmd_post p c x s) h
  = enabled_count s h
    + (if decide (cmd x = SENSORS_PROXY_CMD_ACTIVATE ∧ h = handle x)
       then count_delta c (handle x) (activate_enabled x) else 0).
Proof.
  intros Hwf Hh Hh'. unfold cmd_post.
  destruct (Z.eqb_spec (cmd x) SENSORS_PROXY_CMD_ACTIVATE) as [E1 | E1].
  { unfold enabled_count at 1.
    destruct (delay_post_frame (handle x)
                (activate_post p c (handle x) (activate_enabled x) s)) as (_ & -> & _).
    fold (enabled_count (activate_post p c (handle x) (activate_enabled x) s) h).
    rewrite (activate_post_count s p c _ _ h Hwf Hh Hh').
    destruct (decide (h = handle x)) as [-> | Hne].
    - by rewrite decide_True.
    - rewrite decide_False; [done |]. by intros [_ ?]. }
  rewrite decide_False by (by intros [? _]).
  destruct (cmd x =? SENSORS_PROXY_CMD_SET_DELAY); [| lia].
  unfold enabled_count at 1.
  destruct (delay_post_frame (handle x)
              (store_delay p c (handle x) (set_delay_ns x) s)) as (_ & -> & _).
  unfold store_delay, enabled_count. simpl. lia.
Qed.

Lemma cmd_client_enabled (n : nat) (c : smodule_client) (x : sensors_proxy_cmd) (h : Z) :
  wf_client n c → 0 ≤ handle x < Z.of_nat n → 0 ≤ h →
  is_enabled (cmd_client c x) h
  = if decide (cmd x = SENSORS_PROXY_CMD_ACTIVATE ∧ h = handle x)
    then negb (activate_enabled x =? 0) else is_enabled c h.
Proof.
  intros Hwc Hh Hh'. unfold cmd_client.
  destruct (Z.eqb_spec (cmd x) SENSORS_PROXY_CMD_ACTIVATE) as [E1 | E1].
  { rewrite (activate_client_enabled n c _ _ h Hwc Hh Hh').
    destruct (decide (h = handle x)) as [-> | Hne].
    - by rewrite decide_True.
    - rewrite decide_False; [done |]. by intros [_ ?]. }
  rewrite decide_False by (by intros [? _]).
  by destruct (cmd x =? SENSORS_PROXY_CMD_SET_DELAY).
Qed.

Lemma new_client_disabled (fd : Z) (n : nat) (h : Z) : is_enabled (new_client fd n) h = false.
Proof.
  unfold is_enabled, new_client. simpl.
  destruct (replicate n false !! Z.to_nat h) as [b |] eqn:E; [| done].
  by apply lookup_replicate in E as [-> _].
Qed.

Lemma no_send_calls (l : list action) :
  Forall (λ a, is_send_event a = false) l →
  ∀ s, Forall (λ a, is_send_event a = true → wanted s a) l.
Proof. intros Hl s. eapply Forall_impl; [exact Hl |]. by intros a ->. Qed.

Lemma activate_calls_no_send (c : smodule_client) (h v : Z) (s : smodule) :
  Forall (λ a, is_send_event a = false) (activate_calls c h v s).
Proof.
  unfold activate_calls. destruct (redundant c h v); [done |].
  destruct (v =? 0).
  - destruct (enabled_count s h =? 1); by repeat constructor.
  - destruct (enabled_count s h =? 0); [| done].
    destruct (effective_delay s h =? 0); by repeat constructor.
Qed.

Lemma delay_calls_no_send (h : Z) (s : smodule) :
  Forall (λ a, is_send_event a = false) (delay_calls h s).
Proof. unfold delay_calls. destruct (delay_changes s h); by repeat constructor. Qed.

Lemma cmd_calls_no_send (p : ptr) (c : smodule_client) (x : sensors_proxy_cmd) (s : smodule) :
  Forall (λ a, is_send_event a = false) (cmd_calls p c x s).
Proof.
  unfold cmd_calls. destruct (cmd x =? SENSORS_PROXY_CMD_ACTIVATE).
  { apply Forall_app. split; [apply activate_calls_no_send | apply delay_calls_no_send]. }
  destruct (cmd x =? SENSORS_PROXY_CMD_SET_DELAY); [apply delay_calls_no_send | done].
Qed.

Lemma teardown_calls_no_send (c : smodule_client) (s : smodule) (hs : list Z) :
  Forall (λ a, is_send_event a = false) (teardown_calls c s hs).
Proof.
  unfold teardown_calls. induction hs as [| h hs IH]; [done |]. csimpl.
  apply Forall_app. split; [| done].
  destruct (is_enabled c h && (enabled_count s h =? 1)); by repeat constructor.
Qed.

Lemma handshake_no_send (ok : nat → bool) (p : ptr) (fd : Z) (s : smodule) :
  Forall (λ a, is_send_event a = false) (handshake ok p fd s).
Proof.
  unfold handshake. destruct (ok 0%nat), (ok 1%nat); by repeat constructor.
Qed.

(** Whatever input comes, an event is only sent to a client that has the
    sensor of the event enabled at that time. *)
Lemma step_sends_wanted (la : bool) (i : input) (s s' : smodule) (o : list action) :
  wf s → step la i s = Ok (tt, s', o) →
  Forall (λ a, is_send_event a = true → wanted s a) o.
Proof.
  intros Hwf Hrun. destruct i as [epollin env | p ev | n events fails]; simpl in Hrun.
  - apply no_send_calls. rewrite (listen_event_eq epollin env s Hwf) in Hrun.
    destruct (epollin && negb (accept_fd env <? 0)); [| by injection Hrun as <- <-].
    destruct (alloc_ok env); injection Hrun as <- <-; [| by repeat constructor].
    constructor; [done | apply handshake_no_send].
  - apply no_send_calls. destruct (is_reset ev) eqn:Er.
    + destruct (client_event_reset_Ok la p ev s s' o Hwf Er Hrun) as (c & _ & _ & ->).
      apply Forall_app. split; [apply teardown_calls_no_send | by repeat constructor].
    + destruct (command_of ev) as [x |] eqn:Ec.
      * destruct ev as [[y | |] |]; try done. injection Ec as ->.
        rewrite client_event_command in Hrun.
        apply handle_cmd_Ok in Hrun as [(_ & _ & ->) | (c & _ & _ & _ & _ & ->)];
          [done | apply cmd_calls_no_send | done].
      * rewrite client_event_ignored in Hrun by done. by injection Hrun as <- <-.
  - apply poll_round_spec in Hrun as [_ Hall].
    eapply Forall_impl; [exact Hall |]. by intros a Ha _.
Qed.

Lemma step_keeps_disabled (la : bool) (S : ptr) (H : Z) (i : input) (s s' : smodule)
    (o : list action) :
  wf s → 0 ≤ H → not_enabled S H s → ¬ enables S H i →
  step la i s = Ok (tt, s', o) → not_enabled S H s'.
Proof.
  intros Hwf HH Hinv Hne Hrun.
  destruct i as [epollin env | p ev | n events fails]; simpl in Hrun.
  - rewrite (listen_event_eq epollin env s Hwf) in Hrun.
    destruct (epollin && negb (accept_fd env <? 0)); [| by injection Hrun as <- <-].
    destruct (alloc_ok env); injection Hrun as <- <-; [| done].
    intros c Hc.
    assert (heap (add_post (next_ptr s) (registered_ptrs s) (new_post env s))
            = <[next_ptr s := new_client (accept_fd env) (nfields s)]> (heap s)) as Eh.
    { unfold add_post. by destruct (decide _). }
    rewrite Eh in Hc. destruct (decide (S = next_ptr s)) as [-> | Hn].
    + rewrite lookup_insert_eq in Hc. injection Hc as <-. apply new_client_disabled.
    + rewrite lookup_insert_ne in Hc by done. by apply Hinv.
  - destruct (is_reset ev) eqn:Er.
    + destruct (client_event_reset_Ok la p ev s s' o Hwf Er Hrun) as (c & _ & Htd & _).
      intros c' Hc'. rewrite (td_heap _ _ _ _ Htd) in Hc'.
      apply lookup_delete_Some in Hc' as [_ Hc']. by apply Hinv.
    + destruct (command_of ev) as [x |] eqn:Ec.
      * destruct ev as [[y | |] |]; try done. injection Ec as ->.
        rewrite client_event_command in Hrun.
        apply handle_cmd_Ok in Hrun as [(_ & -> & _) | (c & _ & Hp & Hh & -> & _)];
          [done | | done].
        intros c' Hc'. rewrite (cmd_post_heap p S c x s Hp) in Hc'.
        destruct (decide (S = p)) as [-> | Hn]; [| by apply Hinv].
        injection Hc' as <-.
        rewrite (cmd_client_enabled (nfields s) c x H (wf_heap s Hwf p c Hp))
          by (try done; by apply in_range_fields).
        destruct (decide (cmd x = SENSORS_PROXY_CMD_ACTIVATE ∧ H = handle x))
          as [[E1 E2] | _]; [| by apply Hinv].
        destruct (Z.eqb_spec (activate_enabled x) 0) as [_ | E3]; [done |].
        exfalso. apply Hne. simpl. done.
      * rewrite client_event_ignored in Hrun by done. by injection Hrun as <- <-.
  - by apply poll_round_spec in Hrun as [-> _].
Qed.

(** C8. A session that never enables handle [H] is never sent an event of
    sensor [H], whatever the other sessions do; and in the fan-out of a
    poll round an event goes only to sessions whose [sensor_enabled] array
    is set at the sensor of the event. *)
Theorem isolation (la : bool) (S : ptr) (H : Z) (s s' : smodule) (ins : list input)
    (os : list (list action)) :
  wf s → not_enabled S H s → Forall (λ i, ¬ enables S H i) ins →
  run la ins s = Ok (s', os) →
  Forall (Forall (λ a, ¬ sends_event_for S H a)) os
  ∧ (∀ n events fails s1 s2 o,
       smodule_poll_round n events fails s1 = Ok (tt, s2, o) → Forall (wanted s1) o).
Proof.
  intros Hwf Hinv Hins Hrun. split.
  - revert s os Hwf Hinv Hrun.
    induction Hins as [| i ins Hi Hins IH]; intros s os Hwf Hinv Hrun; simpl in Hrun.
    { injection Hrun as <- <-. done. }
    destruct (step la i s) as [[[[] s1] o] |] eqn:Hstep; [| done]. simpl in Hrun.
    destruct (run la ins s1) as [[s2 os'] |] eqn:Hrest; [| done]. simpl in Hrun.
    injection Hrun as <- <-.
    pose proof (step_wf la i s s1 o Hwf Hstep) as Hwf1.
    pose proof (step_sends_wanted la i s s1 o Hwf Hstep) as Hsends.
    constructor.
    + eapply Forall_impl; [exact Hsends |]. intros a Ha Hs.
      destruct a as [| | | | | p fd ev | | |]; try done.
      destruct Hs as [-> <-]. destruct (Ha eq_refl) as (c & Hc & _ & Hge & Hen).
      specialize (Hinv c Hc). unfold is_enabled in Hinv. by rewrite Hen in Hinv.
    + destruct (decide (0 ≤ H)) as [HH | HH].
      * apply (IH s1); [done | | done].
        by apply (step_keeps_disabled la S H i s s1 o).
      * clear IH Hinv Hstep Hsends Hi. revert s1 os' Hwf1 Hrest.
        induction Hins as [| j ins Hj Hins IH]; intros s1 os' Hwf1 Hrest; simpl in Hrest.
        { injection Hrest as <- <-. done. }
        destruct (step la j s1) as [[[[] s3] o3] |] eqn:Hstep; [| done]. simpl in Hrest.
        destruct (run la ins s3) as [[s4 os''] |] eqn:Hrest'; [| done]. simpl in Hrest.
        injection Hrest as <- <-.
        pose proof (step_sends_wanted la j s1 s3 o3 Hwf1 Hstep) as Hsends.
        constructor.
        -- eapply Forall_impl; [exact Hsends |]. intros a Ha Hs.
           destruct a as [| | | | | p fd ev | | |]; try done.
           destruct Hs as [-> <-]. destruct (Ha eq_refl) as (c & _ & _ & Hge & _). lia.
        -- apply (IH s3); [by eapply step_wf | done].
  - intros n events fails s1 s2 o Hpoll. by apply poll_round_spec in Hpoll as [_ ?].
Qed.

Lemma isolation_witness :
  Forall (Forall (λ a, ¬ sends_event_for 2%nat 3 a))
    [[EpollAdd 10; SendCount 1%nat 10 3;
      SendStrings 1%nat 10 (sensor_strings <$> demo_sensors);
      SendList 1%nat 10 demo_sensors];
     [EpollAdd 11; SendCount 2%nat 11 3;
      SendStrings 2%nat 11 (sensor_strings <$> demo_sensors);
      SendList 2%nat 11 demo_sensors];
     [DevActivate 3 1]; [DevActivate 1 1];
     [SendEvent 1%nat 10 (demo_event 3); SendEvent 2%nat 11 (demo_event 1)]]
  ∧ (∀ n events fails s1 s2 o,
       smodule_poll_round n events fails s1 = Ok (tt, s2, o) → Forall (wanted s1) o).
Proof.
  apply (isolation true 2%nat 3 demo_boot (after true demo_isolation demo_boot)
           demo_isolation).
  - apply demo_boot_wf.
  - intros c Hc. discriminate Hc.
  - repeat constructor; simpl; try tauto;
      intros (Hp & _ & Hh & _); (discriminate Hp || discriminate Hh).
  - vm_compute. reflexivity.
Defined.

(** ** Reference counting of activations *)

Lemma activations_app (H : Z) (o1 o2 : list action) :
  activations H (o1 ++ o2) = activations H o1 ++ activations H o2.
Proof. apply omap_app. Qed.

Lemma activations_delay_calls (H h : Z) (s : smodule) : activations H (delay_calls h s) = [].
Proof. unfold delay_calls. by destruct (delay_changes s h). Qed.

Lemma activations_activate_calls (H : Z) (c : smodule_client) (h v : Z) (s : smodule) :
  activations H (activate_calls c h v s)
  = if decide (h = H) then
      edge_calls (edge_of (enabled_count s h) (enabled_count s h + count_delta c h v))
    else [].
Proof.
  unfold activate_calls, count_delta. destruct (redundant c h v).
  { destruct (decide (h = H)); [| done]. rewrite Z.add_0_r. unfold edge_of.
    destruct (Z.eqb_spec (enabled_count s h) 0) as [-> | ?];
      destruct (Z.eqb_spec (enabled_count s h) 1) as [E | ?]; done. }
  unfold edge_of. destruct (v =? 0) eqn:Ev.
  - destruct (Z.eqb_spec (enabled_count s h) 1) as [-> | Hne]; simpl.
    + rewrite Ev. simpl. by destruct (decide (h = H)).
    + destruct (Z.eqb_spec (enabled_count s h) 0) as [-> | Hne0]; simpl;
        [by destruct (decide (h = H)) |].
      destruct (decide (h = H)); done.
  - destruct (Z.eqb_spec (enabled_count s h) 0) as [-> | Hne]; simpl.
    + rewrite Ev. simpl.
      destruct (effective_delay s h =? 0); simpl; by destruct (decide (h = H)).
    + destruct (Z.eqb_spec (enabled_count s h + 1) 1) as [? | _]; [lia |]. simpl.
      destruct (Z.eqb_spec (enabled_count s h) 1) as [-> | _]; simpl;
        by destruct (decide (h = H)).
Qed.

(** One command: [activate] is called for [H] exactly on an edge of
    [enabled_count[H]], with the polarity of the edge. *)
Lemma command_activations (la : bool) (H : Z) (p : ptr) (x : sensors_proxy_cmd)
    (s s' : smodule) (o : list action) :
  wf s → 0 ≤ H → handle_cmd la p x s = Ok (tt, s', o) →
  activations H o = edge_calls (edge_of (enabled_count s H) (enabled_count s' H)).
Proof.
  intros Hwf HH Hrun.
  assert (Hflat : ∀ n, edge_calls (edge_of n n) = []).
  { intros n. unfold edge_of.
    destruct (Z.eqb_spec n 0), (Z.eqb_spec n 1); simpl; try done; lia. }
  apply handle_cmd_Ok in Hrun as [(_ & -> & ->) | (c & Hu & Hp & Hh & -> & ->)];
    [by rewrite Hflat | | done].
  rewrite (cmd_post_count p c x s H Hwf Hh HH). unfold cmd_calls.
  destruct (Z.eqb_spec (cmd x) SENSORS_PROXY_CMD_ACTIVATE) as [E1 | E1].
  - rewrite activations_app, activations_delay_calls, app_nil_r.
    rewrite activations_activate_calls.
    destruct (decide (handle x = H)) as [<- | Hne].
    + by rewrite decide_True.
    + rewrite decide_False by (intros [_ ?]; done). by rewrite Z.add_0_r, Hflat.
  - rewrite decide_False by (by intros [? _]). rewrite Z.add_0_r, Hflat.
    destruct (cmd x =? SENSORS_PROXY_CMD_SET_DELAY); [| done].
    apply activations_delay_calls.
Qed.

(** One command keeps the state in step with the demand. *)
Lemma command_records_demand (la : bool) (H : Z) (D : gset ptr) (p : ptr)
    (x : sensors_proxy_cmd) (s s' : smodule) (o : list action) :
  wf s → 0 ≤ H → records_demand H D s →
  handle_cmd la p x s = Ok (tt, s', o) →
  records_demand H (request_on H D (p, x)) s'.
Proof.
  intros Hwf HH [Hcnt Hset] Hrun. unfold request_on. simpl.
  apply handle_cmd_Ok in Hrun as [(Hu & -> & _) | (c & Hu & Hp & Hh & -> & _)];
    [| | done].
  { unfold uses_handle in Hu. apply orb_false_elim in Hu as [-> _]. done. }
  pose proof (wf_heap s Hwf p c Hp) as Hwc.
  apply in_range_fields in Hh as Hh'.
  assert (Hcl : ∀ q c', heap (cmd_post p c x s) !! q = Some c' →
            is_enabled c' H
            = if decide (q = p ∧ cmd x = SENSORS_PROXY_CMD_ACTIVATE ∧ H = handle x)
              then negb (activate_enabled x =? 0)
              else default false ((λ c0, is_enabled c0 H) <$> heap s !! q)).
  { intros q c' Hq. rewrite (cmd_post_heap p q c x s Hp) in Hq.
    destruct (decide (q = p)) as [-> | Hne].
    - injection Hq as <-. rewrite (cmd_client_enabled (nfields s) c x H Hwc Hh' HH).
      rewrite Hp. simpl.
      destruct (decide (cmd x = SENSORS_PROXY_CMD_ACTIVATE ∧ H = handle x)) as [Hd | Hd].
      + by rewrite decide_True.
      + rewrite decide_False; [done |]. intros (_ & ? & ?). by apply Hd.
    - rewrite decide_False by (by intros [? _]). by rewrite Hq. }
  split.
  - rewrite (cmd_post_count p c x s H Hwf Hh HH), Hcnt.
    destruct (Z.eqb_spec (cmd x) SENSORS_PROXY_CMD_ACTIVATE) as [E1 | E1]; simpl;
      [| rewrite decide_False by (by intros [? _]); lia].
    destruct (Z.eqb_spec (handle x) H) as [E2 | E2]; simpl;
      [| rewrite decide_False by (by intros [_ ?]); lia].
    rewrite decide_True by done. subst H.
    unfold count_delta, redundant. specialize (Hset p c Hp).
    destruct (Z.eqb_spec (activate_enabled x) 0) as [Ev | Ev]; simpl.
    + destruct (is_enabled c (handle x)) eqn:Een; simpl.
      * assert (p ∈ D) by (by apply Hset).
        rewrite size_difference by set_solver. rewrite size_singleton.
        assert (size D ≠ 0%nat) by (apply size_non_empty_iff; set_solver). lia.
      * assert (p ∉ D) by (intros Hin; apply Hset in Hin; done).
        replace (D ∖ {[p]}) with D by set_solver. lia.
    + destruct (is_enabled c (handle x)) eqn:Een; simpl.
      * assert (p ∈ D) by (by apply Hset).
        replace (D ∪ {[p]}) with D by set_solver. lia.
      * assert (p ∉ D) by (intros Hin; apply Hset in Hin; done).
        rewrite size_union by set_solver. rewrite size_singleton. lia.
  - intros q c' Hq. rewrite (Hcl q c' Hq).
    rewrite (cmd_post_heap p q c x s Hp) in Hq.
    destruct (Z.eqb_spec (cmd x) SENSORS_PROXY_CMD_ACTIVATE) as [E1 | E1]; simpl.
    2: { rewrite decide_False by (by intros (_ & ? & _)).
         destruct (decide (q = p)) as [-> | Hne].
         - rewrite Hp. simpl. by apply Hset.
         - rewrite Hq. simpl. by apply Hset. }
    destruct (Z.eqb_spec (handle x) H) as [E2 | E2]; simpl.
    2: { rewrite decide_False by (by intros (_ & _ & ?)).
         destruct (decide (q = p)) as [-> | Hne].
         - rewrite Hp. simpl. by apply Hset.
         - rewrite Hq. simpl. by apply Hset. }
    destruct (decide (q = p)) as [-> | Hne].
    + rewrite decide_True by done.
      destruct (Z.eqb_spec (activate_enabled x) 0) as [Ev | Ev]; simpl; set_solver.
    + rewrite decide_False by (by intros [? _]). rewrite Hq. simpl.
      specialize (Hset q c' Hq).
      destruct (Z.eqb_spec (activate_enabled x) 0) as [Ev | Ev]; simpl; set_solver.
Qed.

Lemma idle_records_demand (H : Z) (s : smodule) : idle H s → records_demand H ∅ s.
Proof.
  intros [Hcnt Hoff]. split; [by rewrite size_empty |].
  intros p c Hp. rewrite (Hoff p c Hp). set_solver.
Qed.

Lemma run_commands_edges (la : bool) (H : Z) (reqs : list (ptr * sensors_proxy_cmd)) :
  ∀ (s s' : smodule) (D : gset ptr) (os : list (list action)),
    wf s → 0 ≤ H → records_demand H D s →
    run la (commands reqs) s = Ok (s', os) →
    counter_edges la H reqs s = demand_edges H D reqs
    ∧ Forall2 (λ e o, activations H o = edge_calls e) (counter_edges la H reqs s) os.
Proof.
  induction reqs as [| [p x] reqs IH]; intros s s' D os Hwf HH Hrec Hrun; simpl in Hrun.
  { injection Hrun as <- <-. by split. }
  simpl. fold (commands reqs) in Hrun.
  destruct (handle_cmd la p x s) as [[[[] s1] o] |] eqn:Hstep; [| done]. simpl in Hrun.
  destruct (run la (commands reqs) s1) as [[s2 os'] |] eqn:Hrest; [| done].
  simpl in Hrun. injection Hrun as <- <-.
  pose proof (step_wf la (command p x) s s1 o Hwf Hstep) as Hwf1.
  pose proof (command_records_demand la H D p x s s1 o Hwf HH Hrec Hstep) as Hrec1.
  destruct (IH s1 s2 _ os' Hwf1 HH Hrec1 Hrest) as [Hedges Hcalls].
  destruct Hrec as [Hcnt _]. destruct Hrec1 as [Hcnt1 _].
  split.
  - rewrite Hedges. by rewrite Hcnt, Hcnt1.
  - constructor; [| done]. by apply (command_activations la H p x).
Qed.

Lemma count_edge_calls (H : Z) (es : list edge) (os : list (list action)) :
  Forall2 (λ e o, activations H o = edge_calls e) es os →
  length (filter (λ b, b = true) (activations H (concat os)))
  = length (filter (λ e, e = Rise) es)
  ∧ length (filter (λ b, b = false) (activations H (concat os)))
    = length (filter (λ e, e = Fall) es).
Proof.
  induction 1 as [| e o es os He Hall [IH1 IH2]]; [done |].
  simpl. rewrite activations_app, !filter_app, !length_app, He, IH1, IH2.
  rewrite !filter_cons. by destruct e.
Qed.

(** C1. For a handle [H] that no session has enabled, and a sequence of
    commands in which the net demand for [H] leaves zero once and returns
    to zero once, [activate(H, true)] is called exactly once and
    [activate(H, false)] exactly once; and for every command of the
    sequence, [activate] is called for [H] when, and only when,
    [enabled_count[H]] goes from 0 to 1 (with true) or from 1 to 0 (with
    false). *)
Theorem activate_once_per_crossing (la : bool) (H : Z) (s s' : smodule)
    (reqs : list (ptr * sensors_proxy_cmd)) (os : list (list action)) :
  wf s → 0 ≤ H → idle H s →
  run la (commands reqs) s = Ok (s', os) →
  crosses_zero_once H reqs →
  length (filter (λ b, b = true) (activations H (concat os))) = 1%nat
  ∧ length (filter (λ b, b = false) (activations H (concat os))) = 1%nat
  ∧ Forall2 (λ e o, activations H o = edge_calls e) (counter_edges la H reqs s) os.
Proof.
  intros Hwf HH Hidle Hrun [Hrise Hfall].
  destruct (run_commands_edges la H reqs s s' ∅ os Hwf HH
              (idle_records_demand H s Hidle) Hrun) as [Hedges Hcalls].
  destruct (count_edge_calls H _ os Hcalls) as [H1 H2].
  rewrite Hedges in H1, H2. rewrite H1, H2. done.
Qed.

Lemma activate_once_per_crossing_witness :
  length (filter (λ b, b = true)
            (activations 3 (concat (actions_of true (commands demo_requests) demo_connected))))
  = 1%nat
  ∧ length (filter (λ b, b = false)
              (activations 3 (concat (actions_of true (commands demo_requests) demo_connected))))
    = 1%nat
  ∧ Forall2 (λ e o, activations 3 o = edge_calls e)
      (counter_edges true 3 demo_requests demo_connected)
      (actions_of true (commands demo_requests) demo_connected).
Proof.
  apply (activate_once_per_crossing true 3 demo_connected
           (after true (commands demo_requests) demo_connected) demo_requests).
  - apply after_wf, demo_boot_wf.
  - lia.
  - split; [reflexivity |].
    apply (bool_decide_unpack
             (map_Forall (λ _ c, is_enabled c 3 = false) (heap demo_connected))).
    vm_compute. exact I.
  - vm_compute. reflexivity.
  - split; vm_compute; reflexivity.
Defined.

Example demo_requests_calls :
  actions_of true (commands demo_requests) demo_connected
  = [[DevActivate 3 1]; []; []; []; []; []; []; [DevActivate 3 0]].
Proof. vm_compute. reflexivity. Qed.

(** * Further properties of the server *)

(** ** Reachable states *)

Lemma last_handle_bound (sl : list sensor_t) (x : sensor_t) :
  x ∈ sl → s_handle x ≤ last_handle sl.
Proof.
  unfold last_handle.
  assert (Hmono : ∀ (l : list sensor_t) a,
            a ≤ fold_left (λ hl y, if hl <? s_handle y then s_handle y else hl) l a).
  { induction l as [| y l IH]; intros a; simpl; [lia |].
    destruct (Z.ltb_spec a (s_handle y)); [etrans; [| apply IH]; lia | apply IH]. }
  generalize 0. induction sl as [| y sl IH]; intros a Hx; [by apply elem_of_nil in Hx |].
  simpl. apply elem_of_cons in Hx as [-> | Hx]; [| by apply IH].
  etrans; [| apply Hmono]. destruct (Z.ltb_spec a (s_handle y)); lia.
Qed.

Lemma step_handle_last (la : bool) (i : input) (s s' : smodule) (o : list action) :
  wf s → step la i s = Ok (tt, s', o) → handle_last s' = handle_last s.
Proof.
  intros Hwf Hrun. destruct i as [epollin env | p ev | n events fails]; simpl in Hrun.
  - rewrite (listen_event_eq epollin env s Hwf) in Hrun.
    destruct (epollin && negb (accept_fd env <? 0)); [| by injection Hrun as <- <-].
    destruct (alloc_ok env); injection Hrun as <- <-; [| done].
    unfold add_post. by destruct (decide _).
  - destruct (is_reset ev) eqn:Er.
    + destruct (client_event_reset_Ok la p ev s s' o Hwf Er Hrun) as (c & Hp & Htd & _).
      by destruct Htd.
    + destruct (command_of ev) as [x |] eqn:Ec.
      * destruct ev as [[y | |] |]; try done. injection Ec as ->.
        rewrite client_event_command in Hrun.
        apply handle_cmd_Ok in Hrun as [(_ & -> & _) | (c & _ & Hp & _ & -> & _)];
          [done | | done].
        unfold cmd_post. destruct (cmd x =? SENSORS_PROXY_CMD_ACTIVATE).
        { unfold delay_post, activate_post.
          destruct (delay_changes _ _), (redundant _ _ _); done. }
        destruct (cmd x =? SENSORS_PROXY_CMD_SET_DELAY); [| done].
        unfold delay_post. by destruct (delay_changes _ _).
      * rewrite client_event_ignored in Hrun by done. by injection Hrun as <- <-.
  - by apply poll_round_spec in Hrun as [-> _].
Qed.

Lemma run_handle_last (la : bool) (ins : list input) :
  ∀ s s' os, wf s → run la ins s = Ok (s', os) → handle_last s' = handle_last s.
Proof.
  induction ins as [| i ins IH]; intros s s' os Hwf Hrun; simpl in Hrun.
  - by injection Hrun as <- <-.
  - destruct (step la i s) as [[[[] s1] o] |] eqn:Hstep; [| done]. simpl in Hrun.
    destruct (run la ins s1) as [[s2 os'] |] eqn:Hrest; [| done]. simpl in Hrun.
    injection Hrun as <- <-.
    rewrite (IH s1 s2 os' (step_wf la i s s1 o Hwf Hstep) Hrest).
    by eapply step_handle_last.
Qed.

(** X1. In every state the server reaches after start-up the registry and the
    arrays are well-formed, and a command of a connected client that names
    a sensor of the device list with a non-negative handle is carried out
    without a fault. *)
Theorem listed_sensor_commands_run (la : bool) (sl : list sensor_t) (s0 s : smodule)
    (ins : list input) (os : list (list action)) (p : ptr) (x : sensors_proxy_cmd)
    (d : sensor_t) :
  smodule_new sl = Some s0 → run la ins s0 = Ok (s, os) →
  is_Some (heap s !! p) → d ∈ sl → 0 ≤ s_handle d → handle x = s_handle d →
  wf s ∧ ∃ s' o, handle_cmd la p x s = Ok (tt, s', o) ∧ wf s'.
Proof.
  intros Hnew Hrun [c Hp] Hd Hge Hx.
  pose proof (smodule_new_wf sl s0 Hnew) as Hwf0.
  pose proof (run_wf la ins s0 s os Hwf0 Hrun) as Hwf.
  split; [done |].
  assert (Hh : in_range s (handle x)).
  { unfold in_range. rewrite (run_handle_last la ins s0 s os Hwf0 Hrun), Hx.
    split; [done |]. unfold smodule_new in Hnew.
    destruct (Z.of_nat (length sl) <=? 0); [done |]. injection Hnew as <-. simpl.
    by apply last_handle_bound. }
  exists (cmd_post p c x s), (cmd_calls p c x s). split.
  - by apply handle_cmd_eq.
  - by apply wf_cmd_post.
Qed.

(** ** The reference counts and the state of the hardware *)

Lemma tracks_demand_sessions (H : Z) (D : gset ptr) (s : smodule) :
  tracks_demand H D s → D = enabled_sessions H s.
Proof.
  intros [[_ Hset] Hdom]. unfold enabled_sessions. apply set_eq. intros p.
  rewrite elem_of_dom. split.
  - intros Hp. destruct (proj1 (elem_of_dom _ _) (Hdom p Hp)) as [c Hc].
    exists c. apply map_lookup_filter_Some. split; [done |]. simpl. by apply (Hset p c).
  - intros [c Hc]. apply map_lookup_filter_Some in Hc as [Hc Hen]. by apply (Hset p c).
Qed.

Lemma activations_teardown (H : Z) (c : smodule_client) (s : smodule) (hs : list Z) :
  NoDup hs →
  activations H (teardown_calls c s hs)
  = if bool_decide (H ∈ hs) && is_enabled c H && (enabled_count s H =? 1)
    then [false] else [].
Proof.
  unfold teardown_calls. induction 1 as [| h hs Hnotin Hnd IH]; [done |].
  csimpl. rewrite activations_app, IH.
  destruct (decide (h = H)) as [-> | Hne].
  - rewrite (bool_decide_eq_true_2 (H ∈ H :: hs)) by set_solver.
    rewrite (bool_decide_eq_false_2 (H ∈ hs)) by done. simpl.
    destruct (is_enabled c H && (enabled_count s H =? 1)); simpl; [| done].
    by rewrite decide_True.
  - assert (activations H (if is_enabled c h && (enabled_count s h =? 1)
                           then [DevActivate h 0] else []) = []) as ->.
    { destruct (is_enabled c h && (enabled_count s h =? 1)); simpl; [| done].
      by rewrite decide_False. }
    simpl. destruct (bool_decide (H ∈ hs)) eqn:E.
    + apply bool_decide_eq_true_1 in E.
      by rewrite (bool_decide_eq_true_2 (H ∈ h :: hs)) by set_solver.
    + apply bool_decide_eq_false_1 in E.
      by rewrite (bool_decide_eq_false_2 (H ∈ h :: hs)) by set_solver.
Qed.

Lemma handshake_activations (H : Z) (ok : nat → bool) (p : ptr) (fd : Z) (s : smodule) :
  activations H (handshake ok p fd s) = [].
Proof. unfold handshake. by destruct (ok 0%nat), (ok 1%nat). Qed.

Lemma wanted_activations (H : Z) (s : smodule) (o : list action) :
  Forall (wanted s) o → activations H o = [].
Proof.
  induction 1 as [| a o Ha Hall IH]; [done |].
  destruct a; try done.
Qed.

Lemma edge_flat (n : Z) : edge_calls (edge_of n n) = [].
Proof.
  unfold edge_of. destruct (Z.eqb_spec n 0), (Z.eqb_spec n 1); simpl; try done; lia.
Qed.

(** One input keeps the counts in step with the sessions, changes the
    demand for [H] by at most one session, and calls [activate] for [H]
    exactly on an edge of the demand. *)
Lemma step_tracks_demand (la : bool) (H : Z) (D : gset ptr) (i : input)
    (s s' : smodule) (o : list action) :
  wf s → in_range s H → tracks_demand H D s →
  step la i s = Ok (tt, s', o) →
  ∃ D', tracks_demand H D' s'
        ∧ activations H o
          = edge_calls (edge_of (Z.of_nat (size D)) (Z.of_nat (size D')))
        ∧ (size D' ≤ size D + 1)%nat ∧ (size D ≤ size D' + 1)%nat.
Proof.
  intros Hwf HH [Hrec Hdom] Hrun. pose proof HH as [HH0 _].
  destruct i as [epollin env | p ev | n events fails]; simpl in Hrun.
  - rewrite (listen_event_eq epollin env s Hwf) in Hrun.
    destruct (epollin && negb (accept_fd env <? 0));
      [| injection Hrun as <- <-; exists D; rewrite edge_flat;
         split_and!; [by split | done | lia | lia]].
    destruct (alloc_ok env); injection Hrun as <- <-;
      [| exists D; rewrite edge_flat; split_and!; [by split | done | lia | lia]].
    exists D. rewrite edge_flat. split_and!; [| | lia | lia].
    + assert (Eh : heap (add_post (next_ptr s) (registered_ptrs s) (new_post env s))
                   = <[next_ptr s := new_client (accept_fd env) (nfields s)]> (heap s))
        by (unfold add_post; by destruct (decide _)).
      assert (Ec : enabled_count (add_post (next_ptr s) (registered_ptrs s)
                                    (new_post env s)) H = enabled_count s H)
        by (unfold add_post; by destruct (decide _)).
      destruct Hrec as [Hcnt Hset]. split; [split |].
      * by rewrite Ec.
      * intros q c. rewrite Eh. destruct (decide (q = next_ptr s)) as [-> | Hne].
        -- rewrite lookup_insert_eq. intros [= <-]. rewrite new_client_disabled.
           split; [done |]. intros Hin. apply Hdom, elem_of_dom, (wf_fresh s Hwf) in Hin. lia.
        -- rewrite lookup_insert_ne by done. apply Hset.
      * rewrite Eh, dom_insert_L. set_solver.
    + apply (handshake_activations H).
  - destruct (is_reset ev) eqn:Er.
    + destruct (client_event_reset_Ok la p ev s s' o Hwf Er Hrun) as (c & Hp & Htd & ->).
      destruct Hrec as [Hcnt Hset]. exists (D ∖ {[p]}).
      assert (Hsize : Z.of_nat (size (D ∖ {[p]}))
                      = Z.of_nat (size D) - (if is_enabled c H then 1 else 0)).
      { destruct (is_enabled c H) eqn:Een.
        - assert (p ∈ D) by (by apply (Hset p c)).
          rewrite size_difference by set_solver. rewrite size_singleton.
          assert (size D ≠ 0%nat) by (apply size_non_empty_iff; set_solver). lia.
        - assert (p ∉ D) by (intros Hin; apply (Hset p c) in Hin; congruence).
          replace (D ∖ {[p]}) with D by set_solver. lia. }
      split_and!.
      * split; [split |].
        -- rewrite (td_count _ _ _ _ Htd H HH), Hcnt. lia.
        -- intros q c'. rewrite (td_heap _ _ _ _ Htd).
           intros [Hne Hq]%lookup_delete_Some. rewrite (Hset q c' Hq). set_solver.
        -- rewrite (td_heap _ _ _ _ Htd), dom_delete_L. set_solver.
      * rewrite activations_app.
        rewrite (activations_teardown H c s (all_handles s) (NoDup_seqZ _ _)).
        rewrite bool_decide_eq_true_2 by (by apply all_handles_in_range).
        simpl. rewrite app_nil_r, Hsize, Hcnt.
        destruct (is_enabled c H) eqn:Een; simpl; [| by rewrite Z.sub_0_r, edge_flat].
        unfold edge_of.
        assert (size D ≠ 0%nat).
        { assert (p ∈ D) by (by apply (Hset p c)). apply size_non_empty_iff. set_solver. }
        destruct (Z.eqb_spec (Z.of_nat (size D)) 0) as [? | _]; [lia |]. simpl.
        destruct (Z.eqb_spec (Z.of_nat (size D)) 1) as [-> | ?]; [done |]. simpl.
        done.
      * destruct (is_enabled c H); lia.
      * destruct (is_enabled c H); lia.
    + destruct (command_of ev) as [x |] eqn:Ec.
      * destruct ev as [[y | |] |]; try done. injection Ec as ->.
        rewrite client_event_command in Hrun.
        pose proof (command_records_demand la H D p x s s' o Hwf HH0
                      (conj (proj1 Hrec) (proj2 Hrec)) Hrun) as Hrec'.
        pose proof (command_activations la H p x s s' o Hwf HH0 Hrun) as Hact.
        exists (request_on H D (p, x)).
        destruct Hrec as [Hcnt Hset]. destruct Hrec' as [Hcnt' Hset'].
        rewrite Hact, Hcnt, Hcnt'.
        apply handle_cmd_Ok in Hrun as [(Hu & -> & _) | (c & Hu & Hp & Hh & -> & _)];
          [| | done].
        -- unfold request_on, uses_handle in *. simpl in *.
           apply orb_false_elim in Hu as [-> _]. simpl. split_and!; try done; lia.
        -- assert (Hdom' : dom (heap (cmd_post p c x s)) = dom (heap s)).
           { apply set_eq. intros q. rewrite !elem_of_dom, (cmd_post_heap p q c x s Hp).
             destruct (decide (q = p)) as [-> | _]; [| done].
             split; intros _; by eexists. }
           assert (Hpd : p ∈ dom (heap s)) by (apply elem_of_dom; by eexists).
           unfold request_on in *. simpl in *.
           destruct ((cmd x =? SENSORS_PROXY_CMD_ACTIVATE) && (handle x =? H));
             [| split_and!; [split; [done | by rewrite Hdom'] | done | lia | lia]].
           destruct (activate_enabled x =? 0).
           ++ split_and!; [split; [done | rewrite Hdom'; set_solver] | done | |].
              ** assert (size (D ∖ {[p]}) ≤ size D)%nat
                   by (apply subseteq_size; set_solver). lia.
              ** pose proof (size_union_alt ({[p]} : gset ptr) D) as Hs.
                 assert (size D ≤ size ({[p]} ∪ D))%nat
                   by (apply subseteq_size; set_solver).
                 rewrite size_singleton in Hs. lia.
           ++ split_and!; [split; [done | rewrite Hdom'; set_solver] | done | |].
              ** pose proof (size_union_alt D ({[p]} : gset ptr)) as Hs.
                 assert (size (({[p]} : gset ptr) ∖ D) ≤ size ({[p]} : gset ptr))%nat
                   by (apply subseteq_size; set_solver).
                 rewrite size_singleton in *. lia.
              ** assert (size D ≤ size (D ∪ {[p]}))%nat
                   by (apply subseteq_size; set_solver). lia.
      * rewrite client_event_ignored in Hrun by done. injection Hrun as <- <-.
        exists D. rewrite edge_flat. split_and!; [by split | done | lia | lia].
  - apply poll_round_spec in Hrun as [-> Hall].
    exists D. rewrite (wanted_activations H s o Hall), edge_flat.
    split_and!; [by split | done | lia | lia].
Qed.

Lemma hw_active_app (H : Z) (b : bool) (o1 o2 : list action) :
  hw_active H b (o1 ++ o2) = hw_active H (hw_active H b o1) o2.
Proof.
  unfold hw_active. rewrite activations_app.
  destruct (activations H o2) as [| x l] using rev_ind; [by rewrite app_nil_r |].
  by rewrite app_assoc, !last_snoc.
Qed.

Lemma hw_active_edge (H : Z) (b : bool) (o : list action) (n n' : nat) :
  activations H o = edge_calls (edge_of (Z.of_nat n) (Z.of_nat n')) →
  (n' ≤ n + 1)%nat → (n ≤ n' + 1)%nat →
  b = (0 <? Z.of_nat n) → hw_active H b o = (0 <? Z.of_nat n').
Proof.
  intros Hact H1 H2 ->. unfold hw_active. rewrite Hact. unfold edge_of.
  destruct (Z.eqb_spec (Z.of_nat n) 0), (Z.eqb_spec (Z.of_nat n') 1),
    (Z.eqb_spec (Z.of_nat n) 1), (Z.eqb_spec (Z.of_nat n') 0); simpl; try lia.
  all: destruct (Z.ltb_spec 0 (Z.of_nat n)), (Z.ltb_spec 0 (Z.of_nat n')); lia.
Qed.

Lemma run_tracks_demand (la : bool) (H : Z) (ins : list input) :
  ∀ (s s' : smodule) (D : gset ptr) (b : bool) (os : list (list action)),
    wf s → in_range s H → tracks_demand H D s → b = (0 <? Z.of_nat (size D)) →
    run la ins s = Ok (s', os) →
    ∃ D', tracks_demand H D' s'
          ∧ hw_active H b (concat os) = (0 <? Z.of_nat (size D')).
Proof.
  induction ins as [| i ins IH]; intros s s' D b os Hwf HH Htr Hb Hrun; simpl in Hrun.
  { injection Hrun as <- <-. by exists D. }
  destruct (step la i s) as [[[[] s1] o] |] eqn:Hstep; [| done]. simpl in Hrun.
  destruct (run la ins s1) as [[s2 os'] |] eqn:Hrest; [| done]. simpl in Hrun.
  injection Hrun as <- <-.
  destruct (step_tracks_demand la H D i s s1 o Hwf HH Htr Hstep) as (D1 & Htr1 & Hact & L1 & L2).
  pose proof (hw_active_edge H b o _ _ Hact L1 L2 Hb) as Hhw.
  assert (HH1 : in_range s1 H)
    by (unfold in_range; by rewrite (step_handle_last la i s s1 o Hwf Hstep)).
  destruct (IH s1 s2 D1 _ os' (step_wf la i s s1 o Hwf Hstep) HH1 Htr1 eq_refl Hrest)
    as (D2 & Htr2 & Hhw2).
  exists D2. split; [done |]. simpl. by rewrite hw_active_app, Hhw.
Qed.

Lemma boot_tracks_demand (sl : list sensor_t) (s0 : smodule) (H : Z) :
  smodule_new sl = Some s0 → tracks_demand H ∅ s0.
Proof.
  unfold smodule_new. destruct (Z.of_nat (length sl) <=? 0); [done |]. intros [= <-].
  split; [split |]; simpl.
  - unfold enabled_count. simpl.
    destruct (replicate _ 0 !! Z.to_nat H) as [x |] eqn:E; [| done].
    by apply lookup_replicate in E as [-> _].
  - intros p c Hp. by rewrite lookup_empty in Hp.
  - set_solver.
Qed.

(** X2. In every state the server reaches after start-up, [enabled_count[H]]
    is the number of connected sessions that have handle [H] enabled. *)
Theorem count_is_number_of_sessions (la : bool) (sl : list sensor_t) (s0 s : smodule)
    (ins : list input) (os : list (list action)) (H : Z) :
  smodule_new sl = Some s0 → run la ins s0 = Ok (s, os) → in_range s H →
  enabled_count s H = Z.of_nat (size (enabled_sessions H s)).
Proof.
  intros Hnew Hrun HH.
  pose proof (smodule_new_wf sl s0 Hnew) as Hwf0.
  assert (HH0 : in_range s0 H)
    by (unfold in_range in *; by rewrite <- (run_handle_last la ins s0 s os Hwf0 Hrun)).
  destruct (run_tracks_demand la H ins s0 s ∅ false os Hwf0 HH0
              (boot_tracks_demand sl s0 H Hnew) eq_refl Hrun) as (D & Htr & _).
  rewrite <- (tracks_demand_sessions H D s Htr). by destruct Htr as [[? _] _].
Qed.

(** X3. After any run of the server from start-up, the last [activate] call
    made for handle [H] was an activation exactly if some connected session
    has [H] enabled, and there was no call or a deactivation last
    otherwise: the device is left active for [H] exactly while there is
    demand for it. *)
Theorem hardware_follows_demand (la : bool) (sl : list sensor_t) (s0 s : smodule)
    (ins : list input) (os : list (list action)) (H : Z) :
  smodule_new sl = Some s0 → run la ins s0 = Ok (s, os) → in_range s H →
  hw_active H false (concat os) = true
  ↔ ∃ p c, heap s !! p = Some c ∧ is_enabled c H = true.
Proof.
  intros Hnew Hrun HH.
  pose proof (smodule_new_wf sl s0 Hnew) as Hwf0.
  assert (HH0 : in_range s0 H)
    by (unfold in_range in *; by rewrite <- (run_handle_last la ins s0 s os Hwf0 Hrun)).
  destruct (run_tracks_demand la H ins s0 s ∅ false os Hwf0 HH0
              (boot_tracks_demand sl s0 H Hnew) eq_refl Hrun) as (D & Htr & ->).
  destruct Htr as [[_ Hset] Hdom]. rewrite Z.ltb_lt. split.
  - intros Hpos. assert (D ≠ ∅) as Hne by (intros ->; rewrite size_empty in Hpos; lia).
    apply set_choose_L in Hne as [p Hp].
    destruct (proj1 (elem_of_dom _ _) (Hdom p Hp)) as [c Hc].
    exists p, c. split; [done |]. by apply (Hset p c).
  - intros (p & c & Hc & Hen). assert (p ∈ D) by (by apply (Hset p c)).
    assert (size D ≠ 0%nat) by (apply size_non_empty_iff; set_solver). lia.
Qed.

(** ** The fan-out delivers *)

Lemma count_true_insert (l : list bool) (i : nat) (b : bool) :
  l !! i = Some (negb b) →
  Z.of_nat (length (filter (λ x, x = true) (<[i := b]> l)))
  = Z.of_nat (length (filter (λ x, x = true) l)) + (if b then 1 else -1).
Proof.
  intros Hi. pose proof (lookup_lt_Some _ _ _ Hi) as Hlt.
  rewrite insert_take_drop by done.
  rewrite <- (take_drop_middle l i (negb b) Hi) at 3.
  rewrite !filter_app, !filter_cons, !length_app.
  destruct b; simpl; lia.
Qed.

Lemma activate_client_counter (n : nat) (c : smodule_client) (h v : Z) :
  wf_client n c → 0 ≤ h < Z.of_nat n → counter_ok c → counter_ok (activate_client c h v).
Proof.
  intros [Hce Hcd] Hh Hok. unfold activate_client, redundant.
  destruct (eqb (is_enabled c h) (negb (v =? 0))) eqn:E; [done |].
  unfold counter_ok, client_set_enabled. simpl.
  destruct (lookup_lt_is_Some_2 (client_sensor_enabled c) (Z.to_nat h)) as [x Hx]; [lia |].
  unfold is_enabled in E. rewrite Hx in E. simpl in E.
  rewrite (count_true_insert _ _ (negb (v =? 0))).
  - rewrite Hok. done.
  - rewrite Hx, negb_involutive. f_equal.
    destruct x, (v =? 0); simpl in *; congruence.
Qed.

Lemma new_client_counter (fd : Z) (n : nat) : counter_ok (new_client fd n).
Proof.
  unfold counter_ok, new_client. simpl.
  induction n as [| n IH]; [done |]. simpl. by rewrite filter_cons.
Qed.

Lemma step_counters_ok (la : bool) (i : input) (s s' : smodule) (o : list action) :
  wf s → counters_ok s → step la i s = Ok (tt, s', o) → counters_ok s'.
Proof.
  intros Hwf Hok Hrun. destruct i as [epollin env | p ev | n events fails]; simpl in Hrun.
  - rewrite (listen_event_eq epollin env s Hwf) in Hrun.
    destruct (epollin && negb (accept_fd env <? 0)); [| by injection Hrun as <- <-].
    destruct (alloc_ok env); injection Hrun as <- <-; [| done].
    intros q c.
    assert (heap (add_post (next_ptr s) (registered_ptrs s) (new_post env s))
            = <[next_ptr s := new_client (accept_fd env) (nfields s)]> (heap s)) as ->
      by (unfold add_post; by destruct (decide _)).
    destruct (decide (q = next_ptr s)) as [-> | Hne].
    + rewrite lookup_insert_eq. intros [= <-]. apply new_client_counter.
    + rewrite lookup_insert_ne by done. apply Hok.
  - destruct (is_reset ev) eqn:Er.
    + destruct (client_event_reset_Ok la p ev s s' o Hwf Er Hrun) as (c & _ & Htd & _).
      intros q c'. rewrite (td_heap _ _ _ _ Htd).
      intros [_ Hq]%lookup_delete_Some. by apply (Hok q).
    + destruct (command_of ev) as [x |] eqn:Ec.
      * destruct ev as [[y | |] |]; try done. injection Ec as ->.
        rewrite client_event_command in Hrun.
        apply handle_cmd_Ok in Hrun as [(_ & -> & _) | (c & _ & Hp & Hh & -> & _)];
          [done | | done].
        intros q c'. rewrite (cmd_post_heap p q c x s Hp).
        destruct (decide (q = p)) as [-> | Hne]; [| apply Hok].
        intros [= <-]. unfold cmd_client.
        destruct (cmd x =? SENSORS_PROXY_CMD_ACTIVATE).
        { apply (activate_client_counter (nfields s)); [by apply (wf_heap s Hwf p) | |
            by apply (Hok p)]. by apply in_range_fields. }
        destruct (cmd x =? SENSORS_PROXY_CMD_SET_DELAY); [| by apply (Hok p)].
        unfold counter_ok. simpl. by apply (Hok p).
      * rewrite client_event_ignored in Hrun by done. by injection Hrun as <- <-.
  - by apply poll_round_spec in Hrun as [-> _].
Qed.

Lemma run_counters_ok (la : bool) (ins : list input) :
  ∀ s s' os, wf s → counters_ok s → run la ins s = Ok (s', os) → counters_ok s'.
Proof.
  induction ins as [| i ins IH]; intros s s' os Hwf Hok Hrun; simpl in Hrun.
  - by injection Hrun as <- <-.
  - destruct (step la i s) as [[[[] s1] o] |] eqn:Hstep; [| done]. simpl in Hrun.
    destruct (run la ins s1) as [[s2 os'] |] eqn:Hrest; [| done]. simpl in Hrun.
    injection Hrun as <- <-.
    apply (IH s1 s2 os'); [by eapply step_wf | by eapply step_counters_ok | done].
Qed.

Lemma counter_zero_disabled (c : smodule_client) (h : Z) :
  counter_ok c → client_sensors_enabled c ≤ 0 → is_enabled c h = false.
Proof.
  unfold counter_ok, is_enabled. intros -> Hle.
  destruct (client_sensor_enabled c !! Z.to_nat h) as [[] |] eqn:E; try done.
  assert (true ∈ filter (λ b, b = true) (client_sensor_enabled c)) as Hin.
  { apply list_elem_of_filter. split; [done |]. by eapply list_elem_of_lookup_2. }
  destruct (filter _ _); [by apply elem_of_nil in Hin | simpl in Hle; lia].
Qed.

Lemma send_events_all (p : ptr) (c : smodule_client) (s : smodule)
    (evs : list sensors_event_t) :
  wf_client (nfields s) c → Forall (λ ev, in_range s (sensor ev)) evs →
  ∀ pre rest : list sensors_event_t,
    send_events (λ _ _, false) p c (pre ++ evs ++ rest)
      (seqZ (Z.of_nat (length pre)) (Z.of_nat (length evs))) s
    = Ok (tt, s, deliveries evs p c).
Proof.
  intros [Hce Hcd]. induction 1 as [| ev evs Hev Hall IH]; intros pre rest; [done |].
  rewrite seqZ_cons by (simpl; lia). simpl. rewrite aget_middle.
  apply in_range_fields in Hev.
  destruct (aget_in (client_sensor_enabled c) (sensor ev)) as (en & Hen & Hge);
    [rewrite Hce; lia |].
  munfoldM. simpl. rewrite Hge. simpl.
  replace (Z.succ (Z.of_nat (length pre))) with (Z.of_nat (length (pre ++ [ev])))
    by (rewrite length_app; simpl; lia).
  replace (Z.pred (Z.of_nat (S (length evs)))) with (Z.of_nat (length evs)) by lia.
  specialize (IH (pre ++ [ev]) rest). rewrite <- app_assoc in IH. simpl in IH.
  assert (Hie : is_enabled c (sensor ev) = en) by (unfold is_enabled; by rewrite Hen).
  unfold deliveries in *. rewrite filter_cons, Hie.
  destruct en; simpl; by rewrite IH.
Qed.

Lemma deliveries_none (evs : list sensors_event_t) (p : ptr) (c : smodule_client) :
  (∀ h, is_enabled c h = false) → deliveries evs p c = [].
Proof.
  intros Hoff. unfold deliveries. induction evs as [| ev l IH]; [done |].
  rewrite filter_cons, decide_False; [done |]. by rewrite Hoff.
Qed.

Lemma fan_out_loop (s : smodule) (n : Z) (events : list sensors_event_t) (cs : list ptr) :
  wf s → counters_ok s → 0 ≤ n ≤ Z.of_nat (length events) →
  Forall (λ ev, in_range s (sensor ev)) (take (Z.to_nat n) events) →
  (∀ p, p ∈ cs → is_Some (heap s !! p)) →
  ∀ pre rest : list (option ptr),
    clients s = pre ++ (Some <$> cs) ++ rest →
    mfor (seqZ (Z.of_nat (length pre)) (Z.of_nat (length cs))) (λ i,
      p ← lift (aget (clients s) i);
      match p with
      | None => crash BadPointer
      | Some client =>
          c ← deref client;
          if client_sensors_enabled c <=? 0 then mret tt
          else send_events (λ _ _, false) client c events (seqZ 0 n)
      end) s
    = Ok (tt, s, cs ≫= (λ p, match heap s !! p with
                             | Some c => deliveries (take (Z.to_nat n) events) p c
                             | None => []
                             end)).
Proof.
  intros Hwf Hok Hn Hev. induction cs as [| p cs IH]; intros Hlive pre rest Hcl; [done |].
  rewrite seqZ_cons by (simpl; lia). simpl.
  destruct (Hlive p) as [c Hc]; [set_solver |].
  assert (Hget : aget (clients s) (Z.of_nat (length pre)) = Ok (Some p))
    by (rewrite Hcl; csimpl; apply aget_middle).
  replace (Z.succ (Z.of_nat (length pre))) with (Z.of_nat (length (pre ++ [Some p])))
    by (rewrite length_app; simpl; lia).
  replace (Z.pred (Z.of_nat (S (length cs)))) with (Z.of_nat (length cs)) by lia.
  specialize (IH ltac:(set_solver) (pre ++ [Some p]) rest).
  assert (Hcl' : clients s = (pre ++ [Some p]) ++ (Some <$> cs) ++ rest)
    by (by rewrite Hcl, <- app_assoc).
  specialize (IH Hcl').
  munfoldM. rewrite Hget. simpl. rewrite Hc. simpl.
  assert (Hsend : send_events (λ _ _, false) p c events (seqZ 0 n) s
                  = Ok (tt, s, deliveries (take (Z.to_nat n) events) p c)).
  { pose proof (send_events_all p c s (take (Z.to_nat n) events)
                  (wf_heap s Hwf p c Hc) Hev [] (drop (Z.to_nat n) events)) as Hs.
    simpl in Hs. rewrite take_drop, length_take in Hs.
    replace (Z.of_nat (Z.to_nat n `min` length events)) with n in Hs by lia. exact Hs. }
  destruct (Z.leb_spec (client_sensors_enabled c) 0) as [Hle | Hgt].
  - rewrite (deliveries_none _ p c)
      by (intros h; by apply counter_zero_disabled; [apply (Hok p) |]).
    simpl. munfoldM. rewrite IH. done.
  - rewrite Hsend. munfoldM. rewrite IH. done.
Qed.

(** X4. A poll round never changes the state of the server.  When every
    [send] succeeds and the events of the batch name sensors in range, each
    registered client, in registry order, is sent exactly the events of the
    batch whose sensor it has enabled, in the order of the batch. *)
Theorem poll_round_delivers (la : bool) (sl : list sensor_t) (s0 s : smodule)
    (ins : list input) (os : list (list action)) (n : Z)
    (events : list sensors_event_t) :
  smodule_new sl = Some s0 → run la ins s0 = Ok (s, os) →
  0 < n ≤ Z.of_nat (length events) →
  Forall (λ ev, in_range s (sensor ev)) (take (Z.to_nat n) events) →
  smodule_poll_round n events (λ _ _, false) s
  = Ok (tt, s, fan_out s (take (Z.to_nat n) events)).
Proof.
  intros Hnew Hrun Hn Hev.
  pose proof (smodule_new_wf sl s0 Hnew) as Hwf0.
  pose proof (run_wf la ins s0 s os Hwf0 Hrun) as Hwf.
  assert (Hok : counters_ok s).
  { apply (run_counters_ok la ins s0 s os Hwf0); [| done].
    unfold smodule_new in Hnew. destruct (Z.of_nat (length sl) <=? 0); [done |].
    injection Hnew as <-. intros p c Hp. simpl in Hp. by rewrite lookup_empty in Hp. }
  destruct (wf_registry s Hwf) as (cs & Hc1 & Hc2 & Hc3 & Hc4 & Hc5).
  unfold smodule_poll_round, fan_out.
  destruct (Z.leb_spec n 0); [lia |].
  rewrite (wf_registered_ptrs s cs Hc1 Hc4).
  unfold mbind at 1, M_bind at 1, get. rewrite Hc4.
  pose proof (fan_out_loop s n events cs Hwf Hok ltac:(lia) Hev Hc5 [] _ Hc1) as Hloop.
  change (Z.of_nat (length (@nil (option ptr)))) with 0 in Hloop.
  rewrite Hloop. done.
Qed.

(** ** The registry *)

(** X5. [smodule_remove_client] takes the client out of the registry and keeps
    the other clients in their order; it returns 0 then.  For a client
    that is not registered it returns -1 and changes nothing.  In either
    case only the registry is touched. *)
Theorem remove_client_spec (s : smodule) (p : ptr) :
  wf s →
  ∃ s', smodule_remove_client p s
        = Ok (if decide (p ∈ registered_ptrs s) then 0 else -1, s', [])
        ∧ registered_ptrs s' = filter (λ q, q ≠ p) (registered_ptrs s)
        ∧ clients s' = slots (registered_ptrs s')
        ∧ client_count s' = Z.of_nat (length (registered_ptrs s'))
        ∧ heap s' = heap s ∧ sensors_enabled s' = sensors_enabled s
        ∧ sensor_delay_ns s' = sensor_delay_ns s
        ∧ (p ∉ registered_ptrs s → s' = s).
Proof.
  intros Hwf. destruct (wf_registry s Hwf) as (cs & Hc1 & Hc2 & Hc3 & Hc4 & Hc5).
  rewrite (wf_registered_ptrs s cs Hc1 Hc4).
  destruct (decide (p ∈ cs)) as [Hin | Hnotin].
  - apply list_elem_of_split_l in Hin as (l1 & l2 & -> & Hl1).
    assert (p ∉ l2).
    { apply NoDup_app in Hc2 as (_ & _ & Hc2). by apply NoDup_cons in Hc2 as [Hc2 _]. }
    exists (remove_post l1 l2 s). rewrite (remove_client_found s l1 l2 p) by done.
    assert (Hreg : registered_ptrs (remove_post l1 l2 s) = l1 ++ l2)
      by (by apply wf_registered_ptrs).
    rewrite Hreg, filter_ne_middle by done. split_and!; try done.
    intros Hn. exfalso. apply Hn. set_solver.
  - exists s. rewrite (remove_client_missing s cs p) by done.
    rewrite (wf_registered_ptrs s cs Hc1 Hc4), filter_ne_id by done. done.
Qed.

Lemma set_registry_same (s : smodule) : set_registry (clients s) (client_count s) s = s.
Proof. by destruct s. Qed.

(** X6. Adding a client to a registry that is not full and removing it again
    gives back the state before; the client is added behind the clients
    that were registered. *)
Theorem add_remove_roundtrip (s : smodule) (p : ptr) :
  wf s → p ∉ registered_ptrs s → (length (registered_ptrs s) < SMODULE_CLIENT_MAX)%nat →
  ∃ s1, smodule_add_client p s = Ok (-1, s1, [])
        ∧ registered_ptrs s1 = registered_ptrs s ++ [p]
        ∧ smodule_remove_client p s1 = Ok (0, s, []).
Proof.
  intros Hwf Hp Hlt. destruct (wf_registry s Hwf) as (cs & Hc1 & Hc2 & Hc3 & Hc4 & Hc5).
  rewrite (wf_registered_ptrs s cs Hc1 Hc4) in *.
  exists (add_post p cs s). rewrite (add_client_eq s cs p Hc1 Hc3).
  unfold add_post. rewrite decide_True by done.
  split_and!; [done | |].
  - apply wf_registered_ptrs; simpl; [done |]. rewrite length_app. simpl. lia.
  - rewrite (remove_client_found _ cs [] p); simpl; try done.
    + unfold remove_post. simpl. rewrite app_nil_r, <- Hc1, <- Hc4.
      do 3 f_equal. by destruct s.
    + rewrite length_app. simpl. lia.
    + rewrite length_app. simpl. lia.
Qed.

(** X7. A full registry is left alone by [smodule_add_client]: no client is
    put in and none is dropped. *)
Theorem add_client_full (s : smodule) (p : ptr) :
  wf s → length (registered_ptrs s) = SMODULE_CLIENT_MAX →
  smodule_add_client p s = Ok (-1, s, []).
Proof.
  intros Hwf Hfull. destruct (wf_registry s Hwf) as (cs & Hc1 & Hc2 & Hc3 & Hc4 & Hc5).
  rewrite (wf_registered_ptrs s cs Hc1 Hc4) in *.
  rewrite (add_client_eq s cs p Hc1 Hc3). unfold add_post.
  rewrite decide_False by lia. done.
Qed.

(** ** Round trips of the activation and the delay *)

(** X8. Enabling a handle and disabling it again gives back the state before.
    The device is called only if no other session had the handle enabled:
    [activate] with the value of the request, [setDelay] if a delay is
    stored, and [activate] with 0. *)
Theorem enable_disable_roundtrip (la : bool) (s : smodule) (p : ptr)
    (c : smodule_client) (h v : Z) :
  wf s → in_range s h → heap s !! p = Some c → is_enabled c h = false → v ≠ 0 →
  (smodule_client_update_activate la p h v;;
   smodule_client_update_activate la p h 0) s
  = Ok (tt, s,
        if enabled_count s h =? 0 then
          DevActivate h v
            :: (if effective_delay s h =? 0 then []
                else [DevSetDelay h (effective_delay s h)])
            ++ [DevActivate h 0]
        else []).
Proof.
  intros Hwf Hh Hp Hen Hv. apply Z.eqb_neq in Hv.
  pose proof (wf_heap s Hwf p c Hp) as [Hce Hcd].
  apply in_range_fields in Hh as Hh'.
  unfold mbind, M_bind. rewrite (update_activate_eq la s p c h v Hwf Hh Hp).
  set (s1 := activate_post p c h v s).
  assert (Hp1 : heap s1 !! p = Some (activate_client c h v))
    by (by apply activate_post_heap_self).
  rewrite (update_activate_eq la s1 p _ h 0 (wf_activate_post s p c h v Hwf Hp)
             ltac:(unfold in_range, s1; by rewrite activate_post_handle_last) Hp1).
  assert (Hen1 : is_enabled (activate_client c h v) h = true).
  { rewrite (activate_client_enabled (nfields s) c h v h) by (try done; lia).
    rewrite decide_True by done. by rewrite Hv. }
  assert (Hcnt1 : enabled_count s1 h = enabled_count s h + 1).
  { unfold s1. rewrite (activate_post_count s p c h v h Hwf Hh) by lia.
    rewrite decide_True by done. unfold count_delta, redundant. by rewrite Hen, Hv. }
  do 2 f_equal.
  - f_equal. unfold activate_post at 1, redundant. rewrite Hen1. simpl.
    rewrite Hcnt1. unfold s1, activate_post, activate_client, redundant. rewrite Hen, Hv. simpl.
    destruct (lookup_lt_is_Some_2 (client_sensor_enabled c) (Z.to_nat h)) as [b Hb]; [lia |].
    unfold is_enabled in Hen. rewrite Hb in Hen. simpl in Hen. subst b.
    destruct (lookup_lt_is_Some_2 (sensors_enabled s) (Z.to_nat h)) as [n Hn];
      [rewrite (wf_enabled s Hwf); lia |].
    destruct s as [sl sc hl se sd cl cc hp np]. unfold set_sensors_enabled, set_heap. simpl in *.
    f_equal.
    + rewrite list_insert_insert_eq. apply list_insert_id.
      unfold enabled_count. simpl. rewrite Hn. simpl. f_equal. lia.
    + rewrite insert_insert_eq. apply insert_id. rewrite Hp. f_equal.
      destruct c as [fd ne en dl]. unfold client_set_enabled, set_client_sensor_enabled,
        set_client_sensors_enabled. simpl in *. f_equal; [lia |].
      rewrite list_insert_insert_eq. symmetry. by apply list_insert_id.
  - unfold activate_calls at 2, redundant. rewrite Hen1. simpl. rewrite Hcnt1.
    unfold activate_calls, redundant. rewrite Hen, Hv. simpl.
    assert (effective_delay s1 h = effective_delay s h) as Hd.
    { unfold effective_delay, s1. by destruct (activate_post_delay s p c h v) as [-> _]. }
    destruct (Z.eqb_spec (enabled_count s h) 0) as [E | E].
    + rewrite E. simpl. by destruct (effective_delay s h =? 0).
    + destruct (Z.eqb_spec (enabled_count s h + 1) 1); [lia | done].
Qed.

Lemma delay_min_range (s : smodule) (h : Z) :
  delay_min_of s h = LLONG_MAX ∨ 0 < delay_min_of s h < LLONG_MAX.
Proof.
  unfold delay_min_of.
  destruct (delay_fold_spec h (registered s) LLONG_MAX ltac:(done)) as (_ & _ & H3).
  destruct H3 as [-> | (c & _ & Ha & ->)]; [by left | right].
  unfold asks, below_sentinel in Ha.
  apply andb_prop in Ha as [_ Ha]. apply andb_prop in Ha as [H0 H1].
  apply Z.ltb_lt in H0, H1. lia.
Qed.

Lemma delay_post_min (s : smodule) (h : Z) :
  delay_min_of (delay_post h s) h = delay_min_of s h.
Proof.
  unfold delay_min_of, registered, registered_ptrs.
  by destruct (delay_post_frame h s) as (-> & _ & -> & -> & _).
Qed.

(** X9. Recomputing the delay of a handle a second time changes nothing and
    calls nothing: after [smodule_client_update_delay] the stored delay is
    the lowest request, unless there is no request that counts. *)
Theorem update_delay_idempotent (la : bool) (s : smodule) (p : ptr) (h : Z) :
  wf s → in_range s h → is_Some (heap s !! p) →
  ∃ s1 o1,
    smodule_client_update_delay la p h s = Ok (tt, s1, o1)
    ∧ smodule_client_update_delay la p h s1 = Ok (tt, s1, [])
    ∧ (requests below_sentinel s h ≠ [] →
       is_minimum (effective_delay s1 h) (requests below_sentinel s h)).
Proof.
  intros Hwf Hh Hp. apply in_range_fields in Hh as Hh'.
  exists (delay_post h s), (delay_calls h s).
  rewrite (update_delay_eq la s p h Hwf Hh Hp).
  assert (Hp1 : is_Some (heap (delay_post h s) !! p))
    by (by destruct (delay_post_frame h s) as (-> & _)).
  assert (Hh1 : in_range (delay_post h s) h)
    by (unfold in_range; by destruct (delay_post_frame h s) as (_ & _ & _ & _ & ->)).
  rewrite (update_delay_eq la _ p h (wf_delay_post s h Hwf) Hh1 Hp1).
  assert (Heff : delay_min_of s h ≠ LLONG_MAX →
                 effective_delay (delay_post h s) h = delay_min_of s h).
  { intros Hne. unfold delay_post, delay_changes.
    apply Z.eqb_neq in Hne as Hne'. rewrite Hne'. simpl.
    destruct (Z.eqb_spec (effective_delay s h) 0) as [E0 | E0]; simpl.
    - unfold effective_delay. simpl.
      by rewrite list_lookup_insert_eq by (rewrite (wf_delay s Hwf); lia).
    - destruct (Z.eqb_spec (delay_min_of s h) (effective_delay s h)) as [E | E]; simpl;
        [done |].
      unfold effective_delay. simpl.
      by rewrite list_lookup_insert_eq by (rewrite (wf_delay s Hwf); lia). }
  split_and!; [done | |].
  - do 2 f_equal.
    + f_equal. unfold delay_post at 1, delay_changes. rewrite delay_post_min.
      destruct (Z.eqb_spec (delay_min_of s h) LLONG_MAX) as [E | E]; [done |]. simpl.
      rewrite (Heff E), Z.eqb_refl.
      destruct (delay_min_range s h) as [? | ?]; [done |].
      destruct (Z.eqb_spec (delay_min_of s h) 0); [lia | done].
    + unfold delay_calls, delay_changes. rewrite delay_post_min.
      destruct (Z.eqb_spec (delay_min_of s h) LLONG_MAX) as [E | E]; [done |]. simpl.
      rewrite (Heff E), Z.eqb_refl.
      destruct (delay_min_range s h) as [? | ?]; [done |].
      destruct (Z.eqb_spec (delay_min_of s h) 0); [lia | done].
  - intros Hreq.
    destruct (delay_fold_spec h (registered s) LLONG_MAX ltac:(done)) as (_ & H2 & H3).
    fold (delay_min_of s h) in H2, H3.
    assert (∃ d, d ∈ requests below_sentinel s h) as [d Hd].
    { destruct (requests below_sentinel s h) as [| d l]; [done |]. exists d. set_solver. }
    apply requests_elem in Hd as (c & Hc & Ha & ->).
    assert (Hne : delay_min_of s h ≠ LLONG_MAX).
    { specialize (H2 c Hc Ha). unfold asks, below_sentinel in Ha.
      apply andb_prop in Ha as [_ Ha]. apply andb_prop in Ha as [_ H1].
      apply Z.ltb_lt in H1. lia. }
    rewrite (Heff Hne). destruct H3 as [? | (c' & Hc' & Ha' & E)]; [done |]. split.
    + apply requests_elem. by exists c'.
    + intros d (c'' & Hc'' & Ha'' & ->)%requests_elem. by apply H2.
Qed.

(** ** The delays given to the device *)

Lemma effective_delay_ok (s : smodule) (h : Z) :
  delays_ok s → 0 ≤ effective_delay s h < LLONG_MAX.
Proof.
  intros Hok. unfold effective_delay.
  destruct (sensor_delay_ns s !! Z.to_nat h) as [d |] eqn:E; simpl; [| done].
  by apply (Forall_lookup_1 _ _ _ _ Hok E).
Qed.

Lemma delay_post_ok (s : smodule) (h : Z) :
  delays_ok s → delays_ok (delay_post h s) ∧ Forall set_delay_ok (delay_calls h s).
Proof.
  intros Hok. unfold delay_post, delay_calls, delay_changes.
  destruct (Z.eqb_spec (delay_min_of s h) LLONG_MAX) as [E | E]; simpl; [done |].
  destruct ((effective_delay s h =? 0) || negb (delay_min_of s h =? effective_delay s h));
    [| done].
  destruct (delay_min_range s h) as [? | Hr]; [done |].
  split.
  - unfold delays_ok. simpl. apply Forall_insert; [done | lia].
  - constructor; [exact Hr | constructor].
Qed.

Lemma activate_calls_ok (s : smodule) (c : smodule_client) (h v : Z) :
  delays_ok s → Forall set_delay_ok (activate_calls c h v s).
Proof.
  intros Hok. unfold activate_calls. destruct (redundant c h v); [done |].
  destruct (v =? 0).
  - destruct (enabled_count s h =? 1); by repeat constructor.
  - destruct (enabled_count s h =? 0); [| done].
    pose proof (effective_delay_ok s h Hok).
    destruct (Z.eqb_spec (effective_delay s h) 0);
      [by repeat constructor |].
    constructor; [done |]. constructor; [simpl; lia | constructor].
Qed.

Lemma step_delays_ok (la : bool) (i : input) (s s' : smodule) (o : list action) :
  wf s → delays_ok s → step la i s = Ok (tt, s', o) →
  delays_ok s' ∧ Forall set_delay_ok o.
Proof.
  intros Hwf Hok Hrun. destruct i as [epollin env | p ev | n events fails]; simpl in Hrun.
  - rewrite (listen_event_eq epollin env s Hwf) in Hrun.
    destruct (epollin && negb (accept_fd env <? 0)); [| by injection Hrun as <- <-].
    destruct (alloc_ok env); injection Hrun as <- <-; [| by repeat constructor].
    split.
    + unfold delays_ok, add_post. by destruct (decide _).
    + constructor; [done |]. unfold handshake.
      destruct (send_ok env 0%nat), (send_ok env 1%nat); by repeat constructor.
  - destruct (is_reset ev) eqn:Er.
    + destruct (client_event_reset_Ok la p ev s s' o Hwf Er Hrun) as (c & _ & Htd & ->).
      split; [unfold delays_ok; by rewrite (td_delay _ _ _ _ Htd) |].
      apply Forall_app. split; [| by repeat constructor].
      unfold teardown_calls. apply Forall_forall. intros a Ha.
      apply list_elem_of_bind in Ha as (x & Ha & _).
      destruct (is_enabled c x && (enabled_count s x =? 1));
        [apply list_elem_of_singleton in Ha as -> | apply elem_of_nil in Ha]; done.
    + destruct (command_of ev) as [x |] eqn:Ec.
      * destruct ev as [[y | |] |]; try done. injection Ec as ->.
        rewrite client_event_command in Hrun.
        apply handle_cmd_Ok in Hrun as [(_ & -> & ->) | (c & _ & Hp & Hh & -> & ->)];
          [done | | done].
        unfold cmd_post, cmd_calls. destruct (cmd x =? SENSORS_PROXY_CMD_ACTIVATE).
        { assert (delays_ok (activate_post p c (handle x) (activate_enabled x) s)) as Hok1.
          { unfold delays_ok.
            by destruct (activate_post_delay s p c (handle x) (activate_enabled x)) as [-> _]. }
          destruct (delay_post_ok _ (handle x) Hok1) as [? ?].
          split; [done |]. apply Forall_app. split; [by apply activate_calls_ok | done]. }
        destruct (cmd x =? SENSORS_PROXY_CMD_SET_DELAY); [| done].
        by apply delay_post_ok.
      * rewrite client_event_ignored in Hrun by done. by injection Hrun as <- <-.
  - apply poll_round_spec in Hrun as [-> Hall]. split; [done |].
    eapply Forall_impl; [exact Hall |]. by intros [].
Qed.

(** X10. Whatever the clients ask for, every delay the server gives to the
    device with [setDelay] is positive and below [LLONG_MAX]. *)
Theorem set_delay_positive (la : bool) (sl : list sensor_t) (s0 s : smodule)
    (ins : list input) (os : list (list action)) (h ns : Z) :
  smodule_new sl = Some s0 → run la ins s0 = Ok (s, os) →
  DevSetDelay h ns ∈ concat os → 0 < ns < LLONG_MAX.
Proof.
  intros Hnew Hrun Hin.
  pose proof (smodule_new_wf sl s0 Hnew) as Hwf0.
  assert (Hok0 : delays_ok s0).
  { unfold smodule_new in Hnew. destruct (Z.of_nat (length sl) <=? 0); [done |].
    injection Hnew as <-. unfold delays_ok. simpl. by apply Forall_replicate. }
  clear Hnew. revert s0 os Hwf0 Hok0 Hrun Hin.
  induction ins as [| i ins IH]; intros s0 os Hwf0 Hok0 Hrun Hin; simpl in Hrun.
  { injection Hrun as <- <-. by apply elem_of_nil in Hin. }
  destruct (step la i s0) as [[[[] s1] o] |] eqn:Hstep; [| done]. simpl in Hrun.
  destruct (run la ins s1) as [[s2 os'] |] eqn:Hrest; [| done]. simpl in Hrun.
  injection Hrun as <- <-. simpl in Hin.
  destruct (step_delays_ok la i s0 s1 o Hwf0 Hok0 Hstep) as [Hok1 Hcalls].
  apply elem_of_app in Hin as [Hin | Hin].
  - rewrite Forall_forall in Hcalls. by apply (Hcalls _ Hin).
  - by apply (IH s1 os' (step_wf la i s0 s1 o Hwf0 Hstep) Hok1 Hrest).
Qed.

(** ** The handshake *)

Lemma length_strncpy (src : string) (n : nat) : length (strncpy src n) = n.
Proof. unfold strncpy. rewrite length_take, length_app, length_replicate. lia. Qed.

(** X11. [smodule_client_send_list] sends the count, one block of strings per
    sensor of the list and the list itself, in this order, and stops at
    the first [send] that fails; it returns 0 exactly if the three calls
    succeeded, and -1 otherwise.  The count is the number of blocks and of
    descriptors, and each block holds two buffers of [SENSORS_CHARS_MAX]
    chars.  The state of the server is not touched. *)
Theorem handshake_in_order (ok : nat → bool) (s : smodule) (p : ptr) (c : smodule_client) :
  wf s → heap s !! p = Some c →
  ∃ r k,
    smodule_client_send_list ok p s = Ok (r, s, take k (handshake_calls p (sock_fd c) s))
    ∧ (1 ≤ k ≤ 3)%nat
    ∧ (∀ j, (j + 1 < k)%nat → ok j = true)
    ∧ (r = 0 ∧ k = 3%nat ∧ ok 2%nat = true ∨ r = -1 ∧ ok (k - 1)%nat = false)
    ∧ sensor_count s = Z.of_nat (length (sensor_strings <$> sensor_list s))
    ∧ Forall (λ b, length (str_name b) = SENSORS_CHARS_MAX
                   ∧ length (str_vendor b) = SENSORS_CHARS_MAX)
        (sensor_strings <$> sensor_list s).
Proof.
  intros Hwf Hp. rewrite (send_list_eq ok s p c Hwf Hp).
  unfold handshake, handshake_result, handshake_calls.
  assert (Hblocks : Forall (λ b, length (str_name b) = SENSORS_CHARS_MAX
                                 ∧ length (str_vendor b) = SENSORS_CHARS_MAX)
                      (sensor_strings <$> sensor_list s)).
  { apply Forall_fmap, Forall_forall. intros d _. simpl. by rewrite !length_strncpy. }
  assert (Hcount : sensor_count s = Z.of_nat (length (sensor_strings <$> sensor_list s)))
    by (rewrite length_fmap; apply (wf_sensors s Hwf)).
  destruct (ok 0%nat) eqn:E0; [destruct (ok 1%nat) eqn:E1; [destruct (ok 2%nat) eqn:E2 |] |];
    [exists 0, 3%nat | exists (-1), 3%nat | exists (-1), 2%nat | exists (-1), 1%nat];
    (split_and!;
     [reflexivity | lia | lia
     | intros [| [| j]] Hj; first [assumption | simpl in Hj; lia]
     | first [by left | by right] | exact Hcount | exact Hblocks]).
Qed.

(** * Properties of the client *)

(** ** [recv_all] *)

Lemma recv_all_chunks (fd : Z) (chunks : list (list Ascii.ascii))
    (rets : list Client.recv_ret) (len : nat) (buf : list Ascii.ascii) :
  Forall (λ c, c ≠ []) chunks →
  (length buf + length (concat chunks) ≤ len)%nat →
  Client.recv_all fd ((Client.Chunk <$> chunks) ++ rets) len buf =
    match Client.recv_all fd rets len (buf ++ concat chunks) with
    | Some (ret, e, b, cs, rest) =>
        Some (ret, e, b, recv_calls fd len (length buf) chunks ++ cs, rest)
    | None => None
    end.
Proof.
  intros Hne. revert buf. induction Hne as [| c chunks Hc _ IH]; intros buf Hlen.
  - simpl. rewrite app_nil_r. by destruct (Client.recv_all fd rets len buf) as [[[[[??]?]?]?] |].
  - simpl in Hlen. rewrite length_app in Hlen.
    assert (0 < length c)%nat by (destruct c; [done | simpl; lia]).
    cbn [fmap list_fmap app Client.recv_all recv_calls concat].
    change (list_fmap _ _ Client.Chunk chunks) with (Client.Chunk <$> chunks).
    destruct (Nat.ltb_spec (length buf) len) as [_ | ?]; [| lia].
    unfold Client.recv. rewrite take_ge by lia.
    destruct (Z.leb_spec (Z.of_nat (length c)) 0) as [? | _]; [lia |].
    rewrite IH by (rewrite length_app; lia).
    rewrite length_app, <- (assoc_L (++)).
    by destruct (Client.recv_all fd rets len (buf ++ c ++ concat chunks)) as [[[[[??]?]?]?] |].
Qed.

(** X12. [recv_all] puts the records of a message together: when the peer
    delivers [len] bytes in any number of non-empty records, it returns 0
    with the bytes in the order of arrival, after one [recv] per record,
    and reads nothing beyond them. *)
Theorem recv_all_reassembles (fd : Z) (chunks : list (list Ascii.ascii))
    (rest : list Client.recv_ret) (len : nat) :
  Forall (λ c, c ≠ []) chunks →
  length (concat chunks) = len →
  Client.recv_all fd ((Client.Chunk <$> chunks) ++ rest) len [] =
    Some (0, None, concat chunks, recv_calls fd len 0 chunks, rest).
Proof.
  intros Hne Hlen. rewrite recv_all_chunks by (simpl; done || lia). simpl.
  destruct rest as [| r rest]; simpl;
    (destruct (Nat.ltb_spec (length (concat chunks)) len); [lia |]);
    by rewrite app_nil_r.
Qed.

(** X13. When the peer shuts the connection down or [recv] fails before [len]
    bytes are there, [recv_all] returns -1 at once; a shutdown is reported
    as [ECONNRESET], a failure with the [errno] of [recv].  The bytes read
    before stay in the buffer. *)
Theorem recv_all_fails (fd : Z) (chunks : list (list Ascii.ascii)) (r : Client.recv_ret)
    (e : Z) (rest : list Client.recv_ret) (len : nat) :
  Forall (λ c, c ≠ []) chunks →
  (length (concat chunks) < len)%nat →
  r = Client.Chunk [] ∧ e = ECONNRESET ∨ r = Client.Fail e →
  Client.recv_all fd ((Client.Chunk <$> chunks) ++ r :: rest) len [] =
    Some (-1, Some e, concat chunks,
          recv_calls fd len 0 chunks ++ [Client.SysRecv fd (len - length (concat chunks))],
          rest).
Proof.
  intros Hne Hlen Hr. rewrite recv_all_chunks by (simpl; done || lia). simpl.
  destruct (Nat.ltb_spec (length (concat chunks)) len); [| lia].
  by destruct Hr as [[-> ->] | ->]; simpl; rewrite ?take_nil.
Qed.

(** X14. However the peer behaves, [recv_all] never writes more than [len]
    bytes, and makes one [recv] per entry it consumes; it returns 0 only
    with exactly [len] bytes in the buffer and without touching [errno],
    and -1 only with fewer and with [errno] set. *)
Theorem recv_all_bounds (fd : Z) (rets : list Client.recv_ret) (len : nat)
    (ret : Z) (e : option Z) (buf : list Ascii.ascii) (cs : list Client.call)
    (rest : list Client.recv_ret) :
  Client.recv_all fd rets len [] = Some (ret, e, buf, cs, rest) →
  (length buf ≤ len)%nat
  ∧ rets = take (length cs) rets ++ rest
  ∧ (ret = 0 ∧ e = None ∧ length buf = len
     ∨ ret = -1 ∧ is_Some e ∧ (length buf < len)%nat).
Proof.
  assert (Hgen : ∀ rets b0 ret e buf cs rest,
    (length b0 ≤ len)%nat →
    Client.recv_all fd rets len b0 = Some (ret, e, buf, cs, rest) →
    (length buf ≤ len)%nat
    ∧ rets = take (length cs) rets ++ rest
    ∧ (ret = 0 ∧ e = None ∧ length buf = len
       ∨ ret = -1 ∧ is_Some e ∧ (length buf < len)%nat)).
  { clear. induction rets as [| r rets' IH]; intros b0 ret e buf cs rest Hb0 Hrun.
    - simpl in Hrun. destruct (Nat.ltb_spec (length b0) len); [done |].
      simplify_eq. split_and!; [lia | done | left; split_and!; [done | done | lia]].
    - simpl in Hrun. destruct (Nat.ltb_spec (length b0) len) as [Hlt | Hge].
      + destruct (Client.recv r (len - length b0)) as [n bs] eqn:Er.
        destruct (Z.leb_spec n 0).
        * simplify_eq. split_and!; [lia | done |].
          right. split_and!; [done | by eexists | done].
        * destruct (Client.recv_all fd rets' len (b0 ++ bs))
            as [[[[[ret' e'] buf'] cs'] rest'] |] eqn:Erec; [| done].
          simplify_eq.
          assert (length bs ≤ len - length b0)%nat.
          { destruct r; simpl in Er; simplify_eq; [| simpl; lia].
            rewrite length_take. lia. }
          apply IH in Erec as (? & Hrest & ?); [| rewrite length_app; lia].
          split_and!; [done | | done]. simpl. by f_equal.
      + simplify_eq. split_and!; [lia | done | left; split_and!; [done | done | lia]]. }
  intros Hrun. apply (Hgen rets [] ret e buf cs rest); [simpl; lia | done].
Qed.

(** ** [pollEvents] *)






(** X16. Asking for no event at all costs the connection: with [count = 0]
    the one [recv] has no room, returns 0 or fails, and [pollEvents]
    closes the socket. *)
Theorem pollEvents_zero_count (esz : nat) (r : Client.recv_ret)
    (rets : list Client.recv_ret) (x : Client.sensors_poll_context_t) :
  0 ≤ Client.sock_fd x →
  Client.pollEvents esz 0 (r :: rets) x =
    Some (0, Client.set_sock_fd (-1) x, [],
          [Client.SysRecv (Client.sock_fd x) 0; Client.SysClose (Client.sock_fd x)], rets).
Proof.
  intros Hfd. unfold Client.pollEvents.
  destruct (Z.leb_spec 0 (Client.sock_fd x)); [| lia].
  rewrite Nat.mul_0_r. simpl.
  destruct r as [bs | e]; simpl; rewrite ?take_0; simpl;
    by rewrite ?Nat.Div0.div_0_l.
Qed.

(** ** Requests on a client without a connection *)

Lemma serve_all_disconnected (esz : nat) (qs : list Client.request)
    (rets : list Client.recv_ret) (x : Client.sensors_poll_context_t) :
  Client.sock_fd x < 0 →
  Client.serve_all esz qs rets x =
    Some (replicate (length qs) 0, x, replicate (length qs) []).
Proof.
  intros Hfd. induction qs as [| q qs IH]; [done |].
  assert (Hq : Client.serve esz q rets x = Some (0, x, [], rets)).
  { destruct q; simpl; unfold Client.activate, Client.setDelay, Client.pollEvents;
      by destruct (Z.leb_spec 0 (Client.sock_fd x)); [lia |]. }
  simpl. by rewrite Hq, IH.
Qed.

(** X17. A client whose [sock_fd] is negative answers every request with 0 and
    makes no system call: no command is sent, no event is read, and the
    state never changes again (there is no reconnect). *)
Theorem disconnected_client_is_inert (esz : nat) (qs : list Client.request)
    (rets : list Client.recv_ret) (x x' : Client.sensors_poll_context_t)
    (rs : list Z) (css : list (list Client.call)) :
  Client.sock_fd x < 0 →
  Client.serve_all esz qs rets x = Some (rs, x', css) →
  x' = x ∧ Forall (λ r, r = 0) rs ∧ Forall (λ cs, cs = []) css
  ∧ length rs = length qs ∧ length css = length qs.
Proof.
  intros Hfd Hrun. rewrite serve_all_disconnected in Hrun by done. simplify_eq.
  split_and!; [done | | | by rewrite length_replicate..].
  - apply Forall_forall. by intros r [-> _]%elem_of_replicate.
  - apply Forall_forall. by intros r [-> _]%elem_of_replicate.
Qed.

(** X18. A failed [recv] in [pollEvents] ends the session for good: the call
    returns 0 events after closing the socket, and every later request
    returns 0 without a system call. *)
Theorem failed_poll_is_final (esz count : nat) (bad : Client.recv_ret) (e : Z)
    (qs : list Client.request) (rets : list Client.recv_ret)
    (x : Client.sensors_poll_context_t) :
  0 ≤ Client.sock_fd x →
  bad = Client.Chunk [] ∨ bad = Client.Fail e →
  Client.serve_all esz (Client.PollEvents count :: qs) (bad :: rets) x =
    Some (0 :: replicate (length qs) 0, Client.set_sock_fd (-1) x,
          [Client.SysRecv (Client.sock_fd x) (esz * count);
           Client.SysClose (Client.sock_fd x)] :: replicate (length qs) []).
Proof.
  intros Hfd Hbad.
  assert (Hpoll : Client.pollEvents esz count (bad :: rets) x =
    Some (0, Client.set_sock_fd (-1) x, [],
          [Client.SysRecv (Client.sock_fd x) (esz * count);
           Client.SysClose (Client.sock_fd x)], rets)).
  { unfold Client.pollEvents. destruct (Z.leb_spec 0 (Client.sock_fd x)); [| lia].
    simpl. rewrite Nat.sub_0_r.
    destruct Hbad as [-> | ->]; simpl; rewrite ?take_nil; simpl;
      by rewrite ?Nat.Div0.div_0_l. }
  cbn [Client.serve_all Client.serve]. rewrite Hpoll.
  by rewrite serve_all_disconnected.
Qed.

(** ** Requests of the client, served by the server *)

(** X19. [activate(handle, enabled)] on a connected client sends one record;
    when the server reads it for a session, the flag of the session for
    the handle becomes what the client asked for and [enabled_count]
    follows, whatever the bytes of the record that [activate] leaves
    unset.  The client returns 0 without waiting for any of this. *)
Theorem client_activate_served (la : bool) (stale h en : Z)
    (x : Client.sensors_poll_context_t) (s : smodule) (p : ptr) (c : smodule_client) :
  0 ≤ Client.sock_fd x → wf s → heap s !! p = Some c → in_range s h →
  ∃ cmd s' o c',
    Client.activate stale h en x = (0, [Client.SysSend (Client.sock_fd x) cmd])
    ∧ smodule_client_handle_event la p (EvIn (Received cmd)) s = Ok (tt, s', o)
    ∧ wf s' ∧ heap s' !! p = Some c'
    ∧ is_enabled c' h = negb (en =? 0)
    ∧ client_sensor_delay_ns c' = client_sensor_delay_ns c
    ∧ enabled_count s' h
      = enabled_count s h
        + (if is_enabled c h then (if en =? 0 then -1 else 0)
           else (if en =? 0 then 0 else 1)).
Proof.
  intros Hfd Hwf Hp Hh.
  set (cmd := {| cmd := SENSORS_PROXY_CMD_ACTIVATE; handle := h;
                 activate_enabled := en; set_delay_ns := stale |}).
  exists cmd, (cmd_post p c cmd s), (cmd_calls p c cmd s), (cmd_client c cmd).
  pose proof (wf_heap s Hwf p c Hp) as Hwc.
  apply in_range_fields in Hh as Hh'.
  split_and!.
  - unfold Client.activate. by destruct (Z.leb_spec 0 (Client.sock_fd x)); [| lia].
  - rewrite client_event_command. by apply handle_cmd_eq.
  - by apply wf_cmd_post.
  - rewrite (cmd_post_heap p p c cmd s Hp). by rewrite decide_True.
  - rewrite (cmd_client_enabled _ c cmd h Hwc) by (simpl; lia).
    by rewrite decide_True.
  - unfold cmd_client. simpl. apply activate_client_delay.
  - rewrite cmd_post_count by (done || (unfold in_range in Hh; simpl; lia)).
    rewrite decide_True by done. simpl. unfold count_delta, redundant.
    by destruct (is_enabled c h), (en =? 0).
Qed.

(** X20. [setDelay(handle, ns)] on a connected client sends one record; when
    the server reads it for a session, [ns] is stored whole as the
    request of the session for the handle, and neither the flags of the
    session nor any [enabled_count] changes. *)
Theorem client_setDelay_served (la : bool) (h ns : Z)
    (x : Client.sensors_poll_context_t) (s : smodule) (p : ptr) (c : smodule_client) :
  0 ≤ Client.sock_fd x → wf s → heap s !! p = Some c → in_range s h →
  ∃ cmd s' o c',
    Client.setDelay h ns x = (0, [Client.SysSend (Client.sock_fd x) cmd])
    ∧ smodule_client_handle_event la p (EvIn (Received cmd)) s = Ok (tt, s', o)
    ∧ wf s' ∧ heap s' !! p = Some c'
    ∧ requested_delay c' h = ns
    ∧ client_sensor_enabled c' = client_sensor_enabled c
    ∧ sensors_enabled s' = sensors_enabled s.
Proof.
  intros Hfd Hwf Hp Hh.
  set (cmd := {| cmd := SENSORS_PROXY_CMD_SET_DELAY; handle := h;
                 activate_enabled := Client.wrap32 ns; set_delay_ns := ns |}).
  exists cmd, (cmd_post p c cmd s), (cmd_calls p c cmd s), (cmd_client c cmd).
  pose proof (wf_heap s Hwf p c Hp) as [Hce Hcd].
  apply in_range_fields in Hh as Hh'.
  split_and!.
  - unfold Client.setDelay. by destruct (Z.leb_spec 0 (Client.sock_fd x)); [| lia].
  - rewrite client_event_command. by apply handle_cmd_eq.
  - by apply wf_cmd_post.
  - rewrite (cmd_post_heap p p c cmd s Hp). by rewrite decide_True.
  - unfold cmd_client, requested_delay. simpl.
    by rewrite list_lookup_insert_eq by lia.
  - done.
  - unfold cmd_post. simpl.
    by destruct (delay_post_frame h (store_delay p c h ns s)) as (_ & -> & _).
Qed.

(** ** The handshake, from the server to the client *)

Lemma int_of_bytes_of_int (n : Z) :
  - 2 ^ 31 ≤ n < 2 ^ 31 → Client.int_of_bytes (bytes_of_int n) = n.
Proof.
  intros Hn. unfold Client.int_of_bytes, bytes_of_int. cbn [fmap list_fmap seq fold_right].
  rewrite !Ascii.N_ascii_embedding.
  2-5: (apply N2Z.inj_lt; rewrite Z2N.id by (apply Z.mod_pos_bound; lia);
        apply Z.mod_pos_bound; lia).
  rewrite !Z2N.id by (apply Z.mod_pos_bound; lia).
  unfold Client.wrap32.
  change (8 * Z.of_nat 0) with 0. change (8 * Z.of_nat 1) with 8.
  change (8 * Z.of_nat 2) with 16. change (8 * Z.of_nat 3) with 24.
  change (2 ^ 0) with 1. change (2 ^ 8) with 256. change (2 ^ 16) with 65536.
  change (2 ^ 24) with 16777216. change (2 ^ 32) with 4294967296.
  change (2 ^ 31) with 2147483648 in *.
  Z.div_mod_to_equations. lia.
Qed.

Lemma length_bytes_of_int (n : Z) : length (bytes_of_int n) = 4%nat.
Proof. done. Qed.

Lemma recv_all_done (fd : Z) (rets : list Client.recv_ret) (len : nat)
    (buf : list Ascii.ascii) :
  (len ≤ length buf)%nat →
  Client.recv_all fd rets len buf = Some (0, None, buf, [], rets).
Proof.
  intros Hlen. destruct rets; simpl;
    by (destruct (Nat.ltb_spec (length buf) len); [lia |]).
Qed.

Lemma recv_all_one (fd : Z) (chunk : list Ascii.ascii) (rest : list Client.recv_ret)
    (len : nat) :
  chunk ≠ [] → length chunk = len →
  Client.recv_all fd (Client.Chunk chunk :: rest) len [] =
    Some (0, None, chunk, [Client.SysRecv fd len], rest).
Proof.
  intros Hne Hlen.
  pose proof (recv_all_chunks fd [chunk] rest len []) as H.
  cbn [fmap list_fmap app concat] in H. rewrite app_nil_r in H.
  rewrite H; [| by constructor | simpl; lia].
  rewrite recv_all_done by (simpl; lia). simpl. by rewrite Nat.sub_0_r.
Qed.

Lemma c_string_app (l m : list Ascii.ascii) :
  Ascii.zero ∉ l →
  Client.c_string (l ++ m) = (l ++.) <$> Client.c_string m.
Proof.
  induction l as [| a l IH]; intros Hl; simpl.
  - by destruct (Client.c_string m).
  - apply not_elem_of_cons in Hl as [Ha Hl].
    destruct (Ascii.eqb_spec a Ascii.zero) as [-> | _]; [done |].
    rewrite IH by done. by destruct (Client.c_string m).
Qed.

Lemma c_string_terminated (l m : list Ascii.ascii) :
  Ascii.zero ∉ l → Client.c_string (l ++ Ascii.zero :: m) = Some l.
Proof. intros Hl. rewrite c_string_app by done. simpl. by rewrite app_nil_r. Qed.

Lemma strncpy_short (str : string) (n : nat) :
  (length (chars str) < n)%nat →
  strncpy str n = chars str ++ Ascii.zero :: replicate (n - length (chars str) - 1) Ascii.zero.
Proof.
  intros Hlen. unfold strncpy. fold (chars str).
  rewrite take_app_ge by lia. f_equal.
  rewrite take_replicate.
  replace (Nat.min (n - length (chars str)) n) with (S (n - length (chars str) - 1)) by lia.
  done.
Qed.

Lemma strncpy_long (str : string) (n : nat) :
  (n ≤ length (chars str))%nat → strncpy str n = take n (chars str).
Proof. intros Hlen. unfold strncpy. fold (chars str). by rewrite take_app_le. Qed.

Lemma strings_image_drop (blocks : list sensors_strings_t) (i : nat)
    (b : sensors_strings_t) (m : list Ascii.ascii) :
  Forall (λ b, length (str_name b) = SENSORS_CHARS_MAX
               ∧ length (str_vendor b) = SENSORS_CHARS_MAX) blocks →
  blocks !! i = Some b →
  drop (Client.name_ptr i) (strings_image blocks ++ m)
  = str_name b ++ str_vendor b ++ strings_image (drop (S i) blocks) ++ m.
Proof.
  unfold Client.name_ptr, Client.sizeof_strings.
  intros Hall. revert i. induction Hall as [| b0 blocks [Hn Hv] _ IH]; intros i Hi; [done |].
  destruct i as [| i]; simpl in Hi.
  - simplify_eq. rewrite Nat.mul_0_r. simpl. unfold strings_image. simpl.
    by rewrite drop_0, <- !(assoc_L (++)).
  - specialize (IH i Hi). unfold strings_image in *.
    change (drop (S (S i)) (b0 :: blocks)) with (drop (S i) blocks).
    rewrite bind_cons, <- !(assoc_L (++)).
    replace (2 * SENSORS_CHARS_MAX * S i)%nat
      with (length (str_name b0) + (length (str_vendor b0)
            + 2 * SENSORS_CHARS_MAX * i))%nat by lia.
    rewrite <- !drop_drop, !drop_app_length. done.
Qed.

Lemma length_strings_image (blocks : list sensors_strings_t) :
  Forall (λ b, length (str_name b) = SENSORS_CHARS_MAX
               ∧ length (str_vendor b) = SENSORS_CHARS_MAX) blocks →
  length (strings_image blocks) = (Client.sizeof_strings * length blocks)%nat.
Proof.
  unfold Client.sizeof_strings, strings_image.
  induction 1 as [| b blocks [Hn Hv] _ IH]; [done |].
  rewrite bind_cons, !length_app, IH, Hn, Hv, length_cons. lia.
Qed.

Lemma sensor_strings_blocks (sl : list sensor_t) :
  Forall (λ b, length (str_name b) = SENSORS_CHARS_MAX
               ∧ length (str_vendor b) = SENSORS_CHARS_MAX) (sensor_strings <$> sl).
Proof. apply Forall_fmap, Forall_forall. intros d _. simpl. by rewrite !length_strncpy. Qed.

Lemma size_t_small (width : Z) (a n : nat) :
  (n ≤ Client.SENSORS_MAX)%nat →
  Z.of_nat (a * Client.SENSORS_MAX) < 2 ^ width →
  Client.size_t width (Z.of_nat a * Z.of_nat n) = (a * n)%nat.
Proof.
  intros Hn Hw. unfold Client.size_t. rewrite Z.mod_small by nia. lia.
Qed.

Lemma constructor_handshake (szs : nat) (width fd : Z)
    (layout : list sensor_t → list Ascii.ascii) (s : smodule) (p : ptr) (fd' : Z)
    (x : Client.sensors_poll_context_t) (rest : list Client.recv_ret) :
  wf s → 0 ≤ fd → fits szs width layout s x →
  Client.constructor szs width fd 0
    ((handshake_calls p fd' s ≫= wire layout) ++ rest) x
  = Some (Ok (connected fd layout s x,
              [Client.SysSocket; Client.SysConnect fd; Client.SysRecv fd 4;
               Client.SysRecv fd (Client.sizeof_strings * length (sensor_list s));
               Client.SysRecv fd (szs * length (sensor_list s))], rest)).
Proof.
  intros Hwf Hfd [Hsome Hmax Hszs Hlay Hw1 Hw2 Hcnt].
  pose proof (wf_sensors s Hwf) as Hn.
  pose proof (sensor_strings_blocks (sensor_list s)) as Hblocks.
  pose proof (length_strings_image _ Hblocks) as Himg. rewrite length_fmap in Himg.
  assert (0 < length (sensor_list s))%nat
    by (destruct (sensor_list s); [done | simpl; lia]).
  unfold Client.constructor, handshake_calls.
  cbn [mbind list_bind wire app].
  destruct (Z.ltb_spec fd 0); [lia |]. simpl negb. cbn match.
  unfold Client.recv_into.
  rewrite recv_all_one by done. cbn match.
  change ((length (bytes_of_int (sensor_count s)) <=? 4)%nat) with true. cbn match.
  simpl negb. cbn match.
  assert (Hc : Client.sensors_count
           {| Client.sock_fd := fd;
              Client.sensors_count_bytes :=
                Client.overwrite (bytes_of_int (sensor_count s)) (Client.sensors_count_bytes x);
              Client.sensors_strings_list := Client.sensors_strings_list x;
              Client.sensors_list := Client.sensors_list x;
              Client.string_ptrs := Client.string_ptrs x |} = sensor_count s).
  { unfold Client.sensors_count, Client.overwrite. cbn [Client.sensors_count_bytes].
    rewrite length_bytes_of_int, drop_ge, app_nil_r by lia.
    apply int_of_bytes_of_int. unfold Client.SENSORS_MAX in Hmax. lia. }
  rewrite Hc, Hn.
  rewrite !size_t_small by done.
  rewrite recv_all_one; [| | done].
  2: { intros Himg0. rewrite Himg0 in Himg. unfold Client.sizeof_strings in Himg.
       simpl in Himg. lia. }
  cbn match.
  destruct (Nat.leb_spec (length (strings_image (sensor_strings <$> sensor_list s)))
              (Client.sizeof_strings * Client.SENSORS_MAX)) as [_ | Hbad];
    [| rewrite Himg in Hbad; nia].
  simpl negb. cbn match.
  rewrite recv_all_one; [| | done].
  2: { intros Hlay0. rewrite Hlay0 in Hlay. simpl in Hlay. nia. }
  cbn match.
  destruct (Nat.leb_spec (length (layout (sensor_list s))) (szs * Client.SENSORS_MAX))
    as [_ | Hbad]; [| rewrite Hlay in Hbad; nia].
  simpl negb. cbn match.
  destruct (Z.ltb_spec (Z.of_nat Client.SENSORS_MAX) (Z.of_nat (length (sensor_list s))));
    [lia |].
  unfold connected. cbn [Client.sensors_count_bytes Client.sensors_strings_list
    Client.sensors_list Client.string_ptrs].
  rewrite Hn, Nat2Z.id.
  unfold Client.overwrite at 1. rewrite length_bytes_of_int, drop_ge, app_nil_r by lia.
  done.
Qed.

Lemma connected_strings (fd : Z) (layout : list sensor_t → list Ascii.ascii)
    (s : smodule) (x : Client.sensors_poll_context_t) (i : nat) (d : sensor_t) :
  sensor_list s !! i = Some d →
  ∃ m,
    Client.name_of (connected fd layout s x) i
    = Client.c_string (strncpy (name d) SENSORS_CHARS_MAX
                       ++ strncpy (vendor d) SENSORS_CHARS_MAX ++ m)
    ∧ Client.vendor_of (connected fd layout s x) i
      = Client.c_string (strncpy (vendor d) SENSORS_CHARS_MAX ++ m).
Proof.
  intros Hi. apply lookup_lt_Some in Hi as Hlt.
  assert (Hptr : Client.string_ptrs (connected fd layout s x) !! i
                 = Some (Client.name_ptr i, Client.vendor_ptr i)).
  { unfold connected. cbn [Client.string_ptrs].
    by rewrite list_lookup_fmap, lookup_seq_lt. }
  assert (Hb : (sensor_strings <$> sensor_list s) !! i = Some (sensor_strings d))
    by (by rewrite list_lookup_fmap, Hi).
  pose proof (strings_image_drop _ i _
    (drop (length (strings_image (sensor_strings <$> sensor_list s)))
       (Client.sensors_strings_list x))
    (sensor_strings_blocks (sensor_list s)) Hb) as Hdrop.
  eexists. unfold Client.name_of, Client.vendor_of. rewrite Hptr.
  unfold connected. cbn [Client.sensors_strings_list]. unfold Client.overwrite.
  split.
  - rewrite Hdrop. reflexivity.
  - unfold Client.vendor_ptr. fold (Client.name_ptr i).
    rewrite <- drop_drop, Hdrop. cbn [str_name str_vendor sensor_strings].
    rewrite <- (length_strncpy (name d) SENSORS_CHARS_MAX) at 1.
    by rewrite drop_app_length.
Qed.

(** X21. The handshake of the server, read by the constructor of the client:
    when the list of the server fits the arrays of the client, the
    constructor ends connected, with the count of the server, and every
    name and vendor shorter than [SENSORS_CHARS_MAX] chars is read back
    as the server has it. *)
Theorem handshake_round_trip (szs : nat) (width fd : Z)
    (layout : list sensor_t → list Ascii.ascii) (s : smodule) (p : ptr) (fd' : Z)
    (x : Client.sensors_poll_context_t) (rest : list Client.recv_ret) :
  wf s → 0 ≤ fd → fits szs width layout s x →
  ∃ x' cs,
    Client.constructor szs width fd 0
      ((handshake_calls p fd' s ≫= wire layout) ++ rest) x = Some (Ok (x', cs, rest))
    ∧ Client.sock_fd x' = fd
    ∧ Client.sensors__get_sensors_list x' = sensor_count s
    ∧ Forall (λ c, c ≠ Client.SysClose fd) cs
    ∧ ∀ i d, sensor_list s !! i = Some d →
        (short (chars (name d)) → Client.name_of x' i = Some (chars (name d)))
        ∧ (short (chars (vendor d)) → Client.vendor_of x' i = Some (chars (vendor d))).
Proof.
  intros Hwf Hfd Hfits. eexists _, _.
  split; [by apply constructor_handshake |].
  split; [done |]. split.
  { unfold Client.sensors__get_sensors_list, Client.sensors_count, connected.
    cbn [Client.sensors_count_bytes]. apply int_of_bytes_of_int.
    rewrite (wf_sensors s Hwf). pose proof (fits_max _ _ _ _ _ Hfits) as Hmax.
    unfold Client.SENSORS_MAX in Hmax. lia. }
  split.
  { by repeat (constructor; [done |]). }
  intros i d Hi.
  destruct (connected_strings fd layout s x i d Hi) as (m & -> & ->).
  split; intros [Hlen Hnul]; rewrite strncpy_short by done;
    rewrite <- (assoc_L (++)); by apply c_string_terminated.
Qed.

(** X22. A name of [SENSORS_CHARS_MAX] chars or more is cut by [strncpy] and
    sent without a terminator: the client reads the first
    [SENSORS_CHARS_MAX] chars of it followed by the vendor. *)
Theorem long_name_runs_into_vendor (szs : nat) (width fd : Z)
    (layout : list sensor_t → list Ascii.ascii) (s : smodule) (p : ptr) (fd' : Z)
    (x : Client.sensors_poll_context_t) (rest : list Client.recv_ret)
    (i : nat) (d : sensor_t) :
  wf s → 0 ≤ fd → fits szs width layout s x →
  sensor_list s !! i = Some d →
  (SENSORS_CHARS_MAX ≤ length (chars (name d)))%nat →
  Ascii.zero ∉ take SENSORS_CHARS_MAX (chars (name d)) →
  short (chars (vendor d)) →
  ∃ x' cs,
    Client.constructor szs width fd 0
      ((handshake_calls p fd' s ≫= wire layout) ++ rest) x = Some (Ok (x', cs, rest))
    ∧ Client.name_of x' i
      = Some (take SENSORS_CHARS_MAX (chars (name d)) ++ chars (vendor d)).
Proof.
  intros Hwf Hfd Hfits Hi Hlong Hnul [Hvlen Hvnul]. eexists _, _.
  split; [by apply constructor_handshake |].
  destruct (connected_strings fd layout s x i d Hi) as (m & -> & _).
  rewrite strncpy_long, strncpy_short by done.
  rewrite c_string_app by done.
  by rewrite <- (assoc_L (++)), <- app_comm_cons, c_string_terminated.
Qed.

(** ** The constructor of the client *)

Lemma recv_all_calls (fd : Z) (rets : list Client.recv_ret) (len : nat)
    (b0 : list Ascii.ascii) (ret : Z) (e : option Z) (buf : list Ascii.ascii)
    (cs : list Client.call) (rest : list Client.recv_ret) :
  Client.recv_all fd rets len b0 = Some (ret, e, buf, cs, rest) → Forall is_recv cs.
Proof.
  revert b0 ret e buf cs rest.
  induction rets as [| r rets' IH]; intros b0 ret e buf cs rest Hrun; simpl in Hrun.
  - destruct (length b0 <? len)%nat; [done |]. by simplify_eq.
  - destruct (length b0 <? len)%nat; [| by simplify_eq].
    destruct (Client.recv r (len - length b0)) as [n bs].
    destruct (n <=? 0).
    + simplify_eq. by constructor.
    + destruct (Client.recv_all fd rets' len (b0 ++ bs))
        as [[[[[ret' e'] buf'] cs'] rest'] |] eqn:Erec; [| done].
      simplify_eq. constructor; [done |]. by eapply IH.
Qed.

Lemma recv_into_calls (fd : Z) (rets : list Client.recv_ret) (len cap : nat)
    (ret : Z) (buf : list Ascii.ascii) (cs : list Client.call)
    (rest : list Client.recv_ret) :
  Client.recv_into fd rets len cap = Some (Ok (ret, buf, cs, rest)) → Forall is_recv cs.
Proof.
  unfold Client.recv_into. intros Hrun.
  destruct (Client.recv_all fd rets len []) as [[[[[ret' e'] buf'] cs'] rest'] |] eqn:Erec;
    [| done].
  destruct (length buf' <=? cap)%nat; [| done]. simplify_eq.
  by eapply recv_all_calls.
Qed.

Lemma last_snoc_app {A} (l1 l2 : list A) (x : A) : last (l1 ++ l2 ++ [x]) = Some x.
Proof. by rewrite (assoc_L (++)), last_snoc. Qed.

(** X23. Whenever the constructor returns without a fault, it leaves one
    of two states: a client that is connected on the descriptor of
    [socket], after [connect] succeeded and without any [close], with a
    count of at most [SENSORS_MAX] and one pair of pointers for each
    sensor counted; or a client whose [sock_fd] is negative and whose
    socket, if [socket] gave one, was closed by the last call. *)
Theorem constructor_fails_closed (szs : nat) (width sret cret : Z)
    (rets : list Client.recv_ret) (x x' : Client.sensors_poll_context_t)
    (cs : list Client.call) (rest : list Client.recv_ret) :
  Client.constructor szs width sret cret rets x = Some (Ok (x', cs, rest)) →
  (Client.sock_fd x' = sret ∧ 0 ≤ sret ∧ cret = 0
   ∧ Forall (λ c, c ≠ Client.SysClose sret) cs
   ∧ Client.sensors_count x' ≤ Z.of_nat Client.SENSORS_MAX
   ∧ length (Client.string_ptrs x') = Z.to_nat (Client.sensors_count x'))
  ∨ (Client.sock_fd x' < 0
     ∧ (sret < 0 ∧ cs = [Client.SysSocket]
        ∨ 0 ≤ sret ∧ last cs = Some (Client.SysClose sret))).
Proof.
  unfold Client.constructor. intros Hrun.
  destruct (Z.ltb_spec sret 0) as [Hneg | Hpos].
  { simplify_eq. right. simpl. split; [done |]. by left. }
  destruct (Z.eqb_spec cret 0) as [-> | Hc]; simpl negb in Hrun; cbn match in Hrun.
  2: { simplify_eq. right. simpl. split; [lia |]. by right. }
  destruct (Client.recv_into sret rets 4 4) as [[[[[ret1 b1] cs1] rets1] | f] |] eqn:E1;
    [| done..].
  destruct (ret1 =? 0); simpl negb in Hrun; cbn match in Hrun.
  2: { simplify_eq. right. simpl. split; [lia |]. right. split; [done |].
       apply (last_snoc_app [Client.SysSocket; Client.SysConnect sret]). }
  match type of Hrun with
  | context [Client.recv_into sret rets1 ?len ?cap] =>
      destruct (Client.recv_into sret rets1 len cap)
        as [[[[[ret2 b2] cs2] rets2] | f] |] eqn:E2; [| done..]
  end.
  destruct (ret2 =? 0); simpl negb in Hrun; cbn match in Hrun.
  2: { simplify_eq. right. simpl. split; [lia |]. right. split; [done |].
       rewrite (assoc_L (++) cs1). apply (last_snoc_app [Client.SysSocket; Client.SysConnect sret]). }
  match type of Hrun with
  | context [Client.recv_into sret rets2 ?len ?cap] =>
      destruct (Client.recv_into sret rets2 len cap)
        as [[[[[ret3 b3] cs3] rets3] | f] |] eqn:E3; [| done..]
  end.
  destruct (ret3 =? 0); simpl negb in Hrun; cbn match in Hrun.
  2: { simplify_eq. right. simpl. split; [lia |]. right. split; [done |].
       rewrite (assoc_L (++) cs2), (assoc_L (++) cs1). apply (last_snoc_app [Client.SysSocket; Client.SysConnect sret]). }
  match type of Hrun with
  | context [Z.of_nat Client.SENSORS_MAX <? ?n] =>
      destruct (Z.ltb_spec (Z.of_nat Client.SENSORS_MAX) n) as [? | Hmax]; [done |]
  end.
  simplify_eq. left. cbn [Client.sock_fd Client.string_ptrs].
  split_and!; [done | done | done | | exact Hmax |].
  - apply recv_into_calls in E1, E2, E3.
    assert (Hrecv : ∀ l, Forall is_recv l → Forall (λ c, c ≠ Client.SysClose sret) l).
    { intros l Hl. eapply Forall_impl; [exact Hl |]. by intros [] ?. }
    constructor; [done |]. constructor; [done |].
    rewrite !Forall_app. auto.
  - by rewrite length_fmap, length_seq.
Qed.

(** X24. The constructor does not compare the count it receives with
    [SENSORS_MAX]: when the peer announces more sensors and delivers
    their strings, the read runs past the end of
    [sensors_strings_list]. *)
Theorem count_above_max_overflows (szs : nat) (width fd : Z)
    (cnt strs : list Ascii.ascii) (rest : list Client.recv_ret)
    (x : Client.sensors_poll_context_t) :
  0 ≤ fd → length cnt = 4%nat → length (Client.sensors_count_bytes x) = 4%nat →
  Z.of_nat Client.SENSORS_MAX < Client.int_of_bytes cnt →
  Z.of_nat Client.sizeof_strings * Client.int_of_bytes cnt < 2 ^ width →
  Z.of_nat Client.sizeof_strings * Client.int_of_bytes cnt ≤ Z.of_nat (length strs) →
  Client.constructor szs width fd 0 (Client.Chunk cnt :: Client.Chunk strs :: rest) x
  = Some (Crash OutOfBounds).
Proof.
  intros Hfd Hcnt Hx Hmax Hw Hstrs. unfold Client.constructor.
  destruct (Z.ltb_spec fd 0); [lia |]. simpl negb. cbn match.
  unfold Client.recv_into.
  rewrite recv_all_one; [| by destruct cnt | done]. cbn match.
  rewrite Hcnt. change ((4 <=? 4)%nat) with true. cbn match. simpl negb. cbn match.
  unfold Client.sensors_count, Client.overwrite. cbn [Client.sensors_count_bytes].
  rewrite Hcnt, drop_ge, app_nil_r by lia.
  set (n := Client.int_of_bytes cnt) in *.
  unfold Client.size_t.
  rewrite Z.mod_small
    by (unfold Client.sizeof_strings, Client.SENSORS_MAX, SENSORS_CHARS_MAX in *; lia).
  set (len := Z.to_nat (Z.of_nat Client.sizeof_strings * n)).
  assert (Hlen : (Client.sizeof_strings * Client.SENSORS_MAX < len)%nat
                 ∧ (len ≤ length strs)%nat)
    by (unfold len, Client.sizeof_strings, Client.SENSORS_MAX, SENSORS_CHARS_MAX in *; lia).
  assert (Hall : Client.recv_all fd (Client.Chunk strs :: rest) len []
                 = Some (0, None, take len strs, [Client.SysRecv fd len], rest)).
  { cbn [Client.recv_all Client.recv length].
    destruct (Nat.ltb_spec 0 len); [| lia].
    rewrite Nat.sub_0_r, length_take.
    destruct (Z.leb_spec (Z.of_nat (len `min` length strs)) 0); [lia |].
    rewrite recv_all_done by (simpl; rewrite length_take; lia). done. }
  rewrite Hall. cbn match. rewrite length_take.
  destruct (Nat.leb_spec (len `min` length strs)
              (Client.sizeof_strings * Client.SENSORS_MAX)); [lia | done].
Qed.

(** * Start-up and shut-down of the server *)

(** X25. When [smodule_new] fails, it releases what it acquired, with three
    exceptions: the struct itself when [hw_get_module] fails, the array
    [sensors_enabled] when [epoll_create] fails, and the mutex when the
    thread cannot be created.  Nothing is released twice. *)
Theorem failed_start_releases (e : Boot.env) (tr : list Boot.sys) (r : Boot.resource) :
  Boot.smodule_new e = (None, tr) →
  NoDup (released tr)
  ∧ (r ∈ leaked tr →
     r = Boot.RSmod ∧ Boot.hw_get_module_ok e = false
     ∨ r = Boot.REnabled ∧ Boot.epoll_create_ok e = false
     ∨ r = Boot.RMutex ∧ Boot.pthread_create_ok e = false).
Proof.
  intros Hrun.
  assert (Hleak : NoDup (released tr)
    ∧ (leaked tr = []
       ∨ leaked tr = [Boot.RSmod] ∧ Boot.hw_get_module_ok e = false
       ∨ leaked tr = [Boot.REnabled] ∧ Boot.epoll_create_ok e = false
       ∨ leaked tr = [Boot.RMutex] ∧ Boot.pthread_create_ok e = false)).
  { revert Hrun. boot_cases e; intros Hrun; simplify_eq;
      (split; [by apply (bool_decide_unpack _) |]);
      first [by left | by (right; left) | by (right; right; left) | by (right; right; right)]. }
  destruct Hleak as [Hnd Hleak]. split; [done |]. intros Hr.
  destruct Hleak as [Hl | [[Hl ?] | [[Hl ?] | [Hl ?]]]]; rewrite Hl in Hr.
  - by apply elem_of_nil in Hr.
  - apply list_elem_of_singleton in Hr. auto.
  - apply list_elem_of_singleton in Hr. auto.
  - apply list_elem_of_singleton in Hr. auto.
Qed.

(** X26. When every step up to [epoll_create] succeeds and [epoll_create]
    fails, the jump goes to the label below the one that frees
    [sensors_enabled]: that array is the one resource left behind. *)
Theorem epoll_failure_leaks_enabled (e : Boot.env) :
  Boot.calloc_smod_ok e = true → Boot.hw_get_module_ok e = true →
  Boot.sensors_open_ok e = true → Boot.sensors e ≠ [] →
  Boot.calloc_sensors_enabled_ok e = true → Boot.calloc_sensor_delay_ns_ok e = true →
  Boot.epoll_create_ok e = false →
  (Boot.smodule_new e).1 = None ∧ leaked (Boot.smodule_new e).2 = [Boot.REnabled].
Proof.
  destruct e as [b1 b2 b3 sl b4 b5 b6 b7 b8 b9 b10 b11 b12]. simpl.
  intros -> -> -> Hsl -> -> ->. unfold Boot.smodule_new. simpl.
  unfold smodule_new. destruct sl as [| d sl]; [done |].
  destruct (Z.leb_spec (Z.of_nat (length (d :: sl))) 0) as [Hlen | _];
    [simpl in Hlen; lia |].
  done.
Qed.


(** * The further properties at concrete inputs *)

Lemma demo_run (ins : list input) :
  (match run true ins demo_boot with Ok _ => true | Crash _ => false end) = true →
  run true ins demo_boot = Ok (after true ins demo_boot, actions_of true ins demo_boot).
Proof.
  unfold after, actions_of. by destruct (run true ins demo_boot) as [[s os] | f].
Qed.

Lemma listed_sensor_commands_run_witness :
  wf demo_connected
  ∧ ∃ s' o, handle_cmd true 1%nat (ACTIVATE 3 1) demo_connected = Ok (tt, s', o) ∧ wf s'.
Proof.
  apply (listed_sensor_commands_run true demo_sensors demo_boot demo_connected
           [connect 10; connect 11; connect 12]
           (actions_of true [connect 10; connect 11; connect 12] demo_boot)
           1%nat (ACTIVATE 3 1) (demo_sensor 3)).
  - apply demo_boot_new.
  - apply demo_run. vm_compute. reflexivity.
  - exists (demo_session 10). vm_compute. reflexivity.
  - repeat constructor.
  - simpl. lia.
  - reflexivity.
Defined.

Lemma count_is_number_of_sessions_witness :
  enabled_count demo_three 3 = Z.of_nat (size (enabled_sessions 3 demo_three)).
Proof.
  apply (count_is_number_of_sessions true demo_sensors demo_boot demo_three
           demo_three_inputs (actions_of true demo_three_inputs demo_boot)).
  - apply demo_boot_new.
  - apply demo_run. vm_compute. reflexivity.
  - by vm_compute.
Defined.

Lemma hardware_follows_demand_witness :
  hw_active 3 false (concat (actions_of true demo_three_inputs demo_boot)) = true
  ↔ ∃ p c, heap demo_three !! p = Some c ∧ is_enabled c 3 = true.
Proof.
  apply (hardware_follows_demand true demo_sensors demo_boot demo_three demo_three_inputs).
  - apply demo_boot_new.
  - apply demo_run. vm_compute. reflexivity.
  - by vm_compute.
Defined.

Lemma poll_round_delivers_witness :
  smodule_poll_round 2 [demo_event 3; demo_event 1] (λ _ _, false) demo_enabled
  = Ok (tt, demo_enabled, fan_out demo_enabled (take 2 [demo_event 3; demo_event 1])).
Proof.
  apply (poll_round_delivers true demo_sensors demo_boot demo_enabled
           [connect 10; command 1%nat (ACTIVATE 3 1)]
           (actions_of true [connect 10; command 1%nat (ACTIVATE 3 1)] demo_boot)
           2 [demo_event 3; demo_event 1]).
  - apply demo_boot_new.
  - apply demo_run. vm_compute. reflexivity.
  - simpl. lia.
  - constructor; [by vm_compute | constructor; [by vm_compute | constructor]].
Defined.

Lemma remove_client_spec_witness :
  ∃ s', smodule_remove_client 2%nat demo_connected
        = Ok (if decide (2%nat ∈ registered_ptrs demo_connected) then 0 else -1, s', [])
        ∧ registered_ptrs s' = filter (λ q, q ≠ 2%nat) (registered_ptrs demo_connected)
        ∧ clients s' = slots (registered_ptrs s')
        ∧ client_count s' = Z.of_nat (length (registered_ptrs s'))
        ∧ heap s' = heap demo_connected
        ∧ sensors_enabled s' = sensors_enabled demo_connected
        ∧ sensor_delay_ns s' = sensor_delay_ns demo_connected
        ∧ (2%nat ∉ registered_ptrs demo_connected → s' = demo_connected).
Proof.
  apply (remove_client_spec demo_connected 2%nat).
  apply after_wf, demo_boot_wf.
Defined.

Lemma add_remove_roundtrip_witness :
  ∃ s1, smodule_add_client 9%nat demo_connected = Ok (-1, s1, [])
        ∧ registered_ptrs s1 = registered_ptrs demo_connected ++ [9%nat]
        ∧ smodule_remove_client 9%nat s1 = Ok (0, demo_connected, []).
Proof.
  apply (add_remove_roundtrip demo_connected 9%nat).
  - apply after_wf, demo_boot_wf.
  - apply (bool_decide_unpack _). vm_compute. exact I.
  - vm_compute. lia.
Defined.

Lemma add_client_full_witness :
  smodule_add_client 9%nat demo_full = Ok (-1, demo_full, []).
Proof.
  apply (add_client_full demo_full 9%nat).
  - apply after_wf, demo_boot_wf.
  - vm_compute. reflexivity.
Defined.

Lemma enable_disable_roundtrip_witness :
  (smodule_client_update_activate true 1%nat 3 1;;
   smodule_client_update_activate true 1%nat 3 0) demo_connected
  = Ok (tt, demo_connected,
        if enabled_count demo_connected 3 =? 0 then
          DevActivate 3 1
            :: (if effective_delay demo_connected 3 =? 0 then []
                else [DevSetDelay 3 (effective_delay demo_connected 3)])
            ++ [DevActivate 3 0]
        else []).
Proof.
  apply (enable_disable_roundtrip true demo_connected 1%nat (demo_session 10) 3 1).
  - apply after_wf, demo_boot_wf.
  - by vm_compute.
  - vm_compute. reflexivity.
  - reflexivity.
  - lia.
Defined.

Lemma update_delay_idempotent_witness :
  ∃ s1 o1,
    smodule_client_update_delay true 1%nat 3 demo_three = Ok (tt, s1, o1)
    ∧ smodule_client_update_delay true 1%nat 3 s1 = Ok (tt, s1, [])
    ∧ (requests below_sentinel demo_three 3 ≠ [] →
       is_minimum (effective_delay s1 3) (requests below_sentinel demo_three 3)).
Proof.
  apply (update_delay_idempotent true demo_three 1%nat 3).
  - apply after_wf, demo_boot_wf.
  - by vm_compute.
  - eexists. vm_compute. reflexivity.
Defined.

Lemma set_delay_positive_witness : 0 < ms 50 < LLONG_MAX.
Proof.
  apply (set_delay_positive true demo_sensors demo_boot demo_three demo_three_inputs
           (actions_of true demo_three_inputs demo_boot) 3 (ms 50)).
  - apply demo_boot_new.
  - apply demo_run. vm_compute. reflexivity.
  - vm_compute. repeat constructor.
Defined.

Lemma handshake_in_order_witness :
  ∃ r k,
    smodule_client_send_list (λ _, true) 1%nat demo_connected
    = Ok (r, demo_connected, take k (handshake_calls 1%nat 10 demo_connected))
    ∧ (1 ≤ k ≤ 3)%nat
    ∧ (∀ j, (j + 1 < k)%nat → (λ _ : nat, true) j = true)
    ∧ (r = 0 ∧ k = 3%nat ∧ (λ _ : nat, true) 2%nat = true
       ∨ r = -1 ∧ (λ _ : nat, true) (k - 1)%nat = false)
    ∧ sensor_count demo_connected
      = Z.of_nat (length (sensor_strings <$> sensor_list demo_connected))
    ∧ Forall (λ b, length (str_name b) = SENSORS_CHARS_MAX
                   ∧ length (str_vendor b) = SENSORS_CHARS_MAX)
        (sensor_strings <$> sensor_list demo_connected).
Proof.
  apply (handshake_in_order (λ _, true) demo_connected 1%nat (demo_session 10)).
  - apply after_wf, demo_boot_wf.
  - vm_compute. reflexivity.
Defined.

Lemma recv_all_reassembles_witness :
  Client.recv_all 7 ((Client.Chunk <$> [chars "ab"; chars "cd"]) ++ [Client.Fail EIO]) 4 []
  = Some (0, None, concat [chars "ab"; chars "cd"],
          recv_calls 7 4 0 [chars "ab"; chars "cd"], [Client.Fail EIO]).
Proof.
  apply (recv_all_reassembles 7 [chars "ab"; chars "cd"] [Client.Fail EIO] 4).
  - by repeat constructor.
  - reflexivity.
Defined.

Lemma recv_all_fails_witness :
  Client.recv_all 7 ((Client.Chunk <$> [chars "ab"]) ++ Client.Chunk [] :: []) 4 []
  = Some (-1, Some ECONNRESET, concat [chars "ab"],
          recv_calls 7 4 0 [chars "ab"]
          ++ [Client.SysRecv 7 (4 - length (concat [chars "ab"]))], []).
Proof.
  apply (recv_all_fails 7 [chars "ab"] (Client.Chunk []) ECONNRESET [] 4).
  - by repeat constructor.
  - simpl. lia.
  - by left.
Defined.

Lemma recv_all_bounds_witness :
  (length (chars "abcd") ≤ 4)%nat
  ∧ [Client.Chunk (chars "ab"); Client.Chunk (chars "cdef")]
    = take (length [Client.SysRecv 7 4; Client.SysRecv 7 2])
        [Client.Chunk (chars "ab"); Client.Chunk (chars "cdef")] ++ []
  ∧ (0 = 0 ∧ None = (None : option Z) ∧ length (chars "abcd") = 4%nat
     ∨ 0 = -1 ∧ is_Some (None : option Z) ∧ (length (chars "abcd") < 4)%nat).
Proof.
  apply (recv_all_bounds 7 [Client.Chunk (chars "ab"); Client.Chunk (chars "cdef")] 4
           0 None (chars "abcd") [Client.SysRecv 7 4; Client.SysRecv 7 2] []).
  reflexivity.
Defined.


Lemma pollEvents_zero_count_witness :
  Client.pollEvents 4 0 [Client.Chunk (chars "abcd")] demo_client
  = Some (0, Client.set_sock_fd (-1) demo_client, [],
          [Client.SysRecv (Client.sock_fd demo_client) 0;
           Client.SysClose (Client.sock_fd demo_client)], []).
Proof.
  apply (pollEvents_zero_count 4 (Client.Chunk (chars "abcd")) [] demo_client).
  simpl. lia.
Defined.

Lemma disconnected_client_is_inert_witness :
  demo_client0 = demo_client0
  ∧ Forall (λ r, r = 0) [0; 0; 0]
  ∧ Forall (λ cs : list Client.call, cs = []) [[]; []; []]
  ∧ length [0; 0; 0]
    = length [Client.Activate 0 3 1; Client.PollEvents 2; Client.SetDelay 3 (ms 50)]
  ∧ length [[]; []; [] : list Client.call]
    = length [Client.Activate 0 3 1; Client.PollEvents 2; Client.SetDelay 3 (ms 50)].
Proof.
  apply (disconnected_client_is_inert 4
           [Client.Activate 0 3 1; Client.PollEvents 2; Client.SetDelay 3 (ms 50)]
           [Client.Chunk (chars "abcd")] demo_client0 demo_client0).
  - simpl. lia.
  - reflexivity.
Defined.

Lemma failed_poll_is_final_witness :
  Client.serve_all 4 (Client.PollEvents 2 :: [Client.Activate 0 3 1; Client.SetDelay 3 (ms 50)])
    (Client.Fail EIO :: []) demo_client
  = Some (0 :: replicate (length [Client.Activate 0 3 1; Client.SetDelay 3 (ms 50)]) 0,
          Client.set_sock_fd (-1) demo_client,
          [Client.SysRecv (Client.sock_fd demo_client) (4 * 2);
           Client.SysClose (Client.sock_fd demo_client)]
          :: replicate (length [Client.Activate 0 3 1; Client.SetDelay 3 (ms 50)]) []).
Proof.
  apply (failed_poll_is_final 4 2 (Client.Fail EIO) EIO).
  - simpl. lia.
  - by right.
Defined.

Lemma client_activate_served_witness :
  ∃ cmd s' o c',
    Client.activate 0 3 1 demo_client
    = (0, [Client.SysSend (Client.sock_fd demo_client) cmd])
    ∧ smodule_client_handle_event true 1%nat (EvIn (Received cmd)) demo_connected
      = Ok (tt, s', o)
    ∧ wf s' ∧ heap s' !! 1%nat = Some c'
    ∧ is_enabled c' 3 = negb (1 =? 0)
    ∧ client_sensor_delay_ns c' = client_sensor_delay_ns (demo_session 10)
    ∧ enabled_count s' 3
      = enabled_count demo_connected 3
        + (if is_enabled (demo_session 10) 3 then (if 1 =? 0 then -1 else 0)
           else (if 1 =? 0 then 0 else 1)).
Proof.
  apply (client_activate_served true 0 3 1 demo_client demo_connected 1%nat
           (demo_session 10)).
  - simpl. lia.
  - apply after_wf, demo_boot_wf.
  - vm_compute. reflexivity.
  - by vm_compute.
Defined.

Lemma client_setDelay_served_witness :
  ∃ cmd s' o c',
    Client.setDelay 3 (ms 50) demo_client
    = (0, [Client.SysSend (Client.sock_fd demo_client) cmd])
    ∧ smodule_client_handle_event true 1%nat (EvIn (Received cmd)) demo_connected
      = Ok (tt, s', o)
    ∧ wf s' ∧ heap s' !! 1%nat = Some c'
    ∧ requested_delay c' 3 = ms 50
    ∧ client_sensor_enabled c' = client_sensor_enabled (demo_session 10)
    ∧ sensors_enabled s' = sensors_enabled demo_connected.
Proof.
  apply (client_setDelay_served true 3 (ms 50) demo_client demo_connected 1%nat
           (demo_session 10)).
  - simpl. lia.
  - apply after_wf, demo_boot_wf.
  - vm_compute. reflexivity.
  - by vm_compute.
Defined.

Lemma length_demo_layout (l : list sensor_t) :
  length (demo_layout l) = (4 * length l)%nat.
Proof.
  unfold demo_layout. induction l as [| d l IH]; [done |].
  rewrite bind_cons, length_app, IH, length_cons. simpl. lia.
Qed.

Lemma demo_fits (s : smodule) :
  sensor_list s ≠ [] → (length (sensor_list s) ≤ Client.SENSORS_MAX)%nat →
  fits 4 32 demo_layout s demo_client0.
Proof.
  intros Hsome Hmax.
  split; [done | done | lia | apply length_demo_layout | done | done | done].
Qed.

Lemma handshake_round_trip_witness :
  ∃ x' cs,
    Client.constructor 4 32 7 0
      ((handshake_calls 1%nat 10 demo_connected ≫= wire demo_layout) ++ []) demo_client0
    = Some (Ok (x', cs, []))
    ∧ Client.sock_fd x' = 7
    ∧ Client.sensors__get_sensors_list x' = sensor_count demo_connected
    ∧ Forall (λ c, c ≠ Client.SysClose 7) cs
    ∧ ∀ i d, sensor_list demo_connected !! i = Some d →
        (short (chars (name d)) → Client.name_of x' i = Some (chars (name d)))
        ∧ (short (chars (vendor d)) → Client.vendor_of x' i = Some (chars (vendor d))).
Proof.
  apply (handshake_round_trip 4 32 7 demo_layout demo_connected 1%nat 10 demo_client0 []).
  - apply after_wf, demo_boot_wf.
  - lia.
  - apply demo_fits; [discriminate | vm_compute; lia].
Defined.

Lemma long_name_runs_into_vendor_witness :
  ∃ x' cs,
    Client.constructor 4 32 7 0
      ((handshake_calls 1%nat 10 demo_long_boot ≫= wire demo_layout) ++ []) demo_client0
    = Some (Ok (x', cs, []))
    ∧ Client.name_of x' 0
      = Some (take SENSORS_CHARS_MAX (chars (name demo_long)) ++ chars (vendor demo_long)).
Proof.
  apply (long_name_runs_into_vendor 4 32 7 demo_layout demo_long_boot 1%nat 10
           demo_client0 [] 0 demo_long).
  - apply (smodule_new_wf [demo_long]). reflexivity.
  - lia.
  - apply demo_fits; [discriminate | vm_compute; lia].
  - reflexivity.
  - vm_compute. lia.
  - apply (bool_decide_unpack _). vm_compute. exact I.
  - split; [vm_compute; lia | apply (bool_decide_unpack _); vm_compute; exact I].
Defined.

Lemma constructor_fails_closed_witness :
  (Client.sock_fd (Client.set_sock_fd (-1) demo_client) = 7 ∧ 0 ≤ 7 ∧ 0 = 0
   ∧ Forall (λ c, c ≠ Client.SysClose 7)
       [Client.SysSocket; Client.SysConnect 7; Client.SysRecv 7 4; Client.SysClose 7]
   ∧ Client.sensors_count (Client.set_sock_fd (-1) demo_client)
     ≤ Z.of_nat Client.SENSORS_MAX
   ∧ length (Client.string_ptrs (Client.set_sock_fd (-1) demo_client))
     = Z.to_nat (Client.sensors_count (Client.set_sock_fd (-1) demo_client)))
  ∨ (Client.sock_fd (Client.set_sock_fd (-1) demo_client) < 0
     ∧ (7 < 0 ∧ [Client.SysSocket; Client.SysConnect 7; Client.SysRecv 7 4; Client.SysClose 7]
                = [Client.SysSocket]
        ∨ 0 ≤ 7
          ∧ last [Client.SysSocket; Client.SysConnect 7; Client.SysRecv 7 4; Client.SysClose 7]
            = Some (Client.SysClose 7))).
Proof.
  apply (constructor_fails_closed 4 32 7 0 [Client.Fail EIO] demo_client0
           (Client.set_sock_fd (-1) demo_client)
           [Client.SysSocket; Client.SysConnect 7; Client.SysRecv 7 4; Client.SysClose 7] []).
  reflexivity.
Defined.

Lemma count_above_max_overflows_witness :
  Client.constructor 4 32 7 0
    (Client.Chunk (bytes_of_int 33)
     :: Client.Chunk (replicate (Client.sizeof_strings * 33) Ascii.zero) :: []) demo_client0
  = Some (Crash OutOfBounds).
Proof.
  apply (count_above_max_overflows 4 32 7 (bytes_of_int 33)
           (replicate (Client.sizeof_strings * 33) Ascii.zero) [] demo_client0).
  - lia.
  - reflexivity.
  - reflexivity.
  - by vm_compute.
  - by vm_compute.
  - by vm_compute.
Defined.

Lemma failed_start_releases_witness :
  NoDup (released [Boot.Acquire Boot.RSmod])
  ∧ (Boot.RSmod ∈ leaked [Boot.Acquire Boot.RSmod] →
     Boot.RSmod = Boot.RSmod ∧ Boot.hw_get_module_ok demo_env_no_module = false
     ∨ Boot.RSmod = Boot.REnabled ∧ Boot.epoll_create_ok demo_env_no_module = false
     ∨ Boot.RSmod = Boot.RMutex ∧ Boot.pthread_create_ok demo_env_no_module = false).
Proof.
  apply (failed_start_releases demo_env_no_module [Boot.Acquire Boot.RSmod] Boot.RSmod).
  reflexivity.
Defined.

Lemma epoll_failure_leaks_enabled_witness :
  (Boot.smodule_new demo_env_no_epoll).1 = None
  ∧ leaked (Boot.smodule_new demo_env_no_epoll).2 = [Boot.REnabled].
Proof.
  apply (epoll_failure_leaks_enabled demo_env_no_epoll); (reflexivity || discriminate).
Defined.


(** * The sockets of the clients *)

Lemma no_close_impl (l : list action) (P : action → Prop) :
  Forall (λ a, is_close a = false) l →
  Forall (λ a, is_close a = true → P a) l.
Proof.
  intros Hl. eapply Forall_impl; [exact Hl |]. by intros a ->.
Qed.

Lemma activate_calls_no_close (c : smodule_client) (h v : Z) (s : smodule) :
  Forall (λ a, is_close a = false) (activate_calls c h v s).
Proof.
  unfold activate_calls. destruct (redundant c h v); [done |].
  destruct (v =? 0).
  - destruct (enabled_count s h =? 1); by repeat constructor.
  - destruct (enabled_count s h =? 0); [| done].
    destruct (effective_delay s h =? 0); by repeat constructor.
Qed.

Lemma delay_calls_no_close (h : Z) (s : smodule) :
  Forall (λ a, is_close a = false) (delay_calls h s).
Proof. unfold delay_calls. destruct (delay_changes s h); by repeat constructor. Qed.

Lemma cmd_calls_no_close (p : ptr) (c : smodule_client) (x : sensors_proxy_cmd)
    (s : smodule) :
  Forall (λ a, is_close a = false) (cmd_calls p c x s).
Proof.
  unfold cmd_calls. destruct (cmd x =? SENSORS_PROXY_CMD_ACTIVATE).
  { apply Forall_app. split; [apply activate_calls_no_close | apply delay_calls_no_close]. }
  destruct (cmd x =? SENSORS_PROXY_CMD_SET_DELAY); [apply delay_calls_no_close | done].
Qed.

Lemma teardown_calls_no_close (c : smodule_client) (s : smodule) (hs : list Z) :
  Forall (λ a, is_close a = false) (teardown_calls c s hs).
Proof.
  unfold teardown_calls. induction hs as [| h hs IH]; [done |]. csimpl.
  apply Forall_app. split; [| done].
  destruct (is_enabled c h && (enabled_count s h =? 1)); by repeat constructor.
Qed.

Lemma handshake_no_close (ok : nat → bool) (p : ptr) (fd : Z) (s : smodule) :
  Forall (λ a, is_close a = false) (handshake ok p fd s).
Proof.
  unfold handshake. destruct (ok 0%nat), (ok 1%nat); by repeat constructor.
Qed.

Lemma step_close (la : bool) (i : input) (s s' : smodule) (o : list action) :
  wf s → step la i s = Ok (tt, s', o) →
  Forall (λ a, is_close a = true →
               ∃ env, i = InListen true env ∧ a = Close (accept_fd env)
                      ∧ alloc_ok env = false) o.
Proof.
  intros Hwf Hrun. destruct i as [epollin env | p ev | n events fails]; simpl in Hrun.
  - rewrite (listen_event_eq epollin env s Hwf) in Hrun.
    destruct epollin; simpl in Hrun; [| by injection Hrun as <- <-].
    destruct (negb (accept_fd env <? 0)); [| by injection Hrun as <- <-].
    destruct (alloc_ok env) eqn:Ea; injection Hrun as <- <-.
    + constructor; [done |]. apply no_close_impl, handshake_no_close.
    + constructor; [| done]. intros _. by exists env.
  - apply no_close_impl. destruct (is_reset ev) eqn:Er.
    + destruct (client_event_reset_Ok la p ev s s' o Hwf Er Hrun) as (c & _ & _ & ->).
      apply Forall_app. split; [apply teardown_calls_no_close | by repeat constructor].
    + destruct (command_of ev) as [x |] eqn:Ec.
      * destruct ev as [[y | |] |]; try done. injection Ec as ->.
        rewrite client_event_command in Hrun.
        apply handle_cmd_Ok in Hrun as [(_ & _ & ->) | (c & _ & _ & _ & _ & ->)];
          [done | apply cmd_calls_no_close | done].
      * rewrite client_event_ignored in Hrun by done. by injection Hrun as <- <-.
  - apply poll_round_spec in Hrun as [_ Hall].
    eapply Forall_impl; [exact Hall |]. by intros [] ?.
Qed.

(** X28. The server closes a descriptor in one place only: when an
    allocation for a connection it has just accepted fails.  The socket of
    a client that was set up is never closed, not even when the client is
    torn down, which takes it out of the epoll set and frees its memory. *)
Theorem client_socket_never_closed (la : bool) (s0 s : smodule) (ins : list input)
    (os : list (list action)) (fd : Z) :
  wf s0 → run la ins s0 = Ok (s, os) → Close fd ∈ concat os →
  ∃ env, InListen true env ∈ ins ∧ accept_fd env = fd ∧ alloc_ok env = false.
Proof.
  intros Hwf Hrun. revert s0 os Hwf Hrun.
  induction ins as [| i ins IH]; intros s0 os Hwf Hrun Hin; simpl in Hrun.
  { injection Hrun as <- <-. by apply elem_of_nil in Hin. }
  destruct (step la i s0) as [[[[] s1] o] |] eqn:Hstep; [| done]. simpl in Hrun.
  destruct (run la ins s1) as [[s2 os'] |] eqn:Hrest; [| done]. simpl in Hrun.
  injection Hrun as <- <-. simpl in Hin. apply elem_of_app in Hin as [Hin | Hin].
  - pose proof (step_close la i s0 s1 o Hwf Hstep) as Hall.
    rewrite Forall_forall in Hall.
    destruct (Hall _ Hin eq_refl) as (env & -> & [= ->] & Ha).
    exists env. split_and!; [apply list_elem_of_here | done | done].
  - destruct (IH s1 os' (step_wf la i s0 s1 o Hwf Hstep) Hrest Hin) as (env & ? & ? & ?).
    exists env. split_and!; [by apply list_elem_of_further | done | done].
Qed.

(** * Sends that fail in a poll round *)

Lemma send_events_sent (fails : ptr → Z → bool) (p : ptr) (c : smodule_client)
    (s : smodule) (evs : list sensors_event_t) :
  wf_client (nfields s) c → Forall (λ ev, in_range s (sensor ev)) evs →
  ∀ pre rest : list sensors_event_t,
    send_events fails p c (pre ++ evs ++ rest)
      (seqZ (Z.of_nat (length pre)) (Z.of_nat (length evs))) s
    = Ok (tt, s, sent fails p c (Z.of_nat (length pre)) evs).
Proof.
  intros [Hce Hcd]. induction 1 as [| ev evs Hev Hall IH]; intros pre rest; [done |].
  rewrite seqZ_cons by (simpl; lia). simpl. rewrite aget_middle.
  apply in_range_fields in Hev.
  destruct (aget_in (client_sensor_enabled c) (sensor ev)) as (en & Hen & Hge);
    [rewrite Hce; lia |].
  munfoldM. simpl. rewrite Hge. simpl.
  replace (Z.succ (Z.of_nat (length pre))) with (Z.of_nat (length (pre ++ [ev])))
    by (rewrite length_app; simpl; lia).
  replace (Z.pred (Z.of_nat (S (length evs)))) with (Z.of_nat (length evs)) by lia.
  specialize (IH (pre ++ [ev]) rest). rewrite <- app_assoc in IH. simpl in IH.
  assert (Hie : is_enabled c (sensor ev) = en) by (unfold is_enabled; by rewrite Hen).
  rewrite Hie.
  replace (Z.of_nat (length pre) + 1) with (Z.of_nat (length (pre ++ [ev])))
    by (rewrite length_app; simpl; lia).
  destruct en; simpl; [| by rewrite IH].
  destruct (fails p (Z.of_nat (length pre))); simpl; [done |]. by rewrite IH.
Qed.

Lemma sent_prefix (fails : ptr → Z → bool) (p : ptr) (c : smodule_client) (j : Z)
    (evs : list sensors_event_t) :
  sent fails p c j evs `prefix_of` deliveries evs p c.
Proof.
  unfold deliveries. revert j. induction evs as [| ev evs IH]; intros j; [done |].
  simpl. rewrite filter_cons.
  destruct (is_enabled c (sensor ev)) eqn:Een.
  - rewrite decide_True by done. csimpl. apply prefix_cons.
    destruct (fails p j); [apply prefix_nil | apply IH].
  - rewrite decide_False by done. apply IH.
Qed.

Lemma sent_all (fails : ptr → Z → bool) (p : ptr) (c : smodule_client) (j : Z)
    (evs : list sensors_event_t) :
  (∀ i, fails p i = false) → sent fails p c j evs = deliveries evs p c.
Proof.
  intros Hok. unfold deliveries. revert j. induction evs as [| ev evs IH]; intros j; [done |].
  simpl. rewrite filter_cons, Hok.
  destruct (is_enabled c (sensor ev)) eqn:Een.
  - rewrite decide_True by done. csimpl. by rewrite IH.
  - rewrite decide_False by done. apply IH.
Qed.

Lemma sent_none (fails : ptr → Z → bool) (p : ptr) (c : smodule_client) (j : Z)
    (evs : list sensors_event_t) :
  (∀ h, is_enabled c h = false) → sent fails p c j evs = [].
Proof.
  intros Hoff. revert j. induction evs as [| ev evs IH]; intros j; [done |].
  simpl. by rewrite Hoff.
Qed.

Lemma fan_out_loop_fails (fails : ptr → Z → bool) (s : smodule) (n : Z)
    (events : list sensors_event_t) (cs : list ptr) :
  wf s → counters_ok s → 0 ≤ n ≤ Z.of_nat (length events) →
  Forall (λ ev, in_range s (sensor ev)) (take (Z.to_nat n) events) →
  (∀ p, p ∈ cs → is_Some (heap s !! p)) →
  ∀ pre rest : list (option ptr),
    clients s = pre ++ (Some <$> cs) ++ rest →
    mfor (seqZ (Z.of_nat (length pre)) (Z.of_nat (length cs))) (λ i,
      p ← lift (aget (clients s) i);
      match p with
      | None => crash BadPointer
      | Some client =>
          c ← deref client;
          if client_sensors_enabled c <=? 0 then mret tt
          else send_events fails client c events (seqZ 0 n)
      end) s
    = Ok (tt, s, cs ≫= (λ p, match heap s !! p with
                             | Some c => sent fails p c 0 (take (Z.to_nat n) events)
                             | None => []
                             end)).
Proof.
  intros Hwf Hok Hn Hev. induction cs as [| p cs IH]; intros Hlive pre rest Hcl; [done |].
  rewrite seqZ_cons by (simpl; lia). simpl.
  destruct (Hlive p) as [c Hc]; [set_solver |].
  assert (Hget : aget (clients s) (Z.of_nat (length pre)) = Ok (Some p))
    by (rewrite Hcl; csimpl; apply aget_middle).
  replace (Z.succ (Z.of_nat (length pre))) with (Z.of_nat (length (pre ++ [Some p])))
    by (rewrite length_app; simpl; lia).
  replace (Z.pred (Z.of_nat (S (length cs)))) with (Z.of_nat (length cs)) by lia.
  specialize (IH ltac:(set_solver) (pre ++ [Some p]) rest).
  assert (Hcl' : clients s = (pre ++ [Some p]) ++ (Some <$> cs) ++ rest)
    by (by rewrite Hcl, <- app_assoc).
  specialize (IH Hcl').
  munfoldM. rewrite Hget. simpl. rewrite Hc. simpl.
  assert (Hsend : send_events fails p c events (seqZ 0 n) s
                  = Ok (tt, s, sent fails p c 0 (take (Z.to_nat n) events))).
  { pose proof (send_events_sent fails p c s (take (Z.to_nat n) events)
                  (wf_heap s Hwf p c Hc) Hev [] (drop (Z.to_nat n) events)) as Hs.
    simpl in Hs. rewrite take_drop, length_take in Hs.
    replace (Z.of_nat (Z.to_nat n `min` length events)) with n in Hs by lia. exact Hs. }
  destruct (Z.leb_spec (client_sensors_enabled c) 0) as [Hle | Hgt].
  - rewrite (sent_none fails p c)
      by (intros h; by apply counter_zero_disabled; [apply (Hok p) |]).
    simpl. munfoldM. rewrite IH. done.
  - rewrite Hsend. munfoldM. rewrite IH. done.
Qed.

(** X29. A [send] that fails in a poll round ends the round for that
    client only: the state stays as it is, each registered client is sent
    the events it has enabled up to and including the first one whose
    [send] fails, and a client none of whose sends fails is sent all of
    its events, whatever happens to the sends of the others. *)
Theorem failed_send_stops_one_client (la : bool) (sl : list sensor_t) (s0 s : smodule)
    (ins : list input) (os : list (list action)) (n : Z)
    (events : list sensors_event_t) (fails : ptr → Z → bool) :
  smodule_new sl = Some s0 → run la ins s0 = Ok (s, os) →
  0 < n ≤ Z.of_nat (length events) →
  Forall (λ ev, in_range s (sensor ev)) (take (Z.to_nat n) events) →
  smodule_poll_round n events fails s
  = Ok (tt, s, registered_ptrs s ≫= (λ p,
         match heap s !! p with
         | Some c => sent fails p c 0 (take (Z.to_nat n) events)
         | None => []
         end))
  ∧ ∀ p c, heap s !! p = Some c →
      sent fails p c 0 (take (Z.to_nat n) events)
        `prefix_of` deliveries (take (Z.to_nat n) events) p c
      ∧ ((∀ j, fails p j = false) →
         sent fails p c 0 (take (Z.to_nat n) events)
         = deliveries (take (Z.to_nat n) events) p c).
Proof.
  intros Hnew Hrun Hn Hev.
  pose proof (smodule_new_wf sl s0 Hnew) as Hwf0.
  pose proof (run_wf la ins s0 s os Hwf0 Hrun) as Hwf.
  assert (Hok : counters_ok s).
  { apply (run_counters_ok la ins s0 s os Hwf0); [| done].
    unfold smodule_new in Hnew. destruct (Z.of_nat (length sl) <=? 0); [done |].
    injection Hnew as <-. intros p c Hp. simpl in Hp. by rewrite lookup_empty in Hp. }
  split; [| intros p c _; split; [apply sent_prefix | apply sent_all]].
  destruct (wf_registry s Hwf) as (cs & Hc1 & Hc2 & Hc3 & Hc4 & Hc5).
  unfold smodule_poll_round.
  destruct (Z.leb_spec n 0); [lia |].
  rewrite (wf_registered_ptrs s cs Hc1 Hc4).
  unfold mbind at 1, M_bind at 1, get. rewrite Hc4.
  pose proof (fan_out_loop_fails fails s n events cs Hwf Hok ltac:(lia) Hev Hc5 [] _ Hc1)
    as Hloop.
  change (Z.of_nat (length (@nil (option ptr)))) with 0 in Hloop.
  rewrite Hloop. done.
Qed.

Lemma client_socket_never_closed_witness :
  ∃ env, InListen true env ∈ [InListen true
                                {| accept_fd := 10; calloc_client_ok := true;
                                   calloc_enabled_ok := false; calloc_delay_ok := true;
                                   send_ok := λ _, true |}]
         ∧ accept_fd env = 10 ∧ alloc_ok env = false.
Proof.
  apply (client_socket_never_closed true demo_boot demo_boot
           [InListen true {| accept_fd := 10; calloc_client_ok := true;
                             calloc_enabled_ok := false; calloc_delay_ok := true;
                             send_ok := λ _, true |}]
           [[Close 10]] 10).
  - apply demo_boot_wf.
  - reflexivity.
  - repeat constructor.
Defined.

Lemma failed_send_stops_one_client_witness :
  smodule_poll_round 2 [demo_event 3; demo_event 3] (λ p _, bool_decide (p = 2%nat))
    demo_three
  = Ok (tt, demo_three, registered_ptrs demo_three ≫= (λ p,
         match heap demo_three !! p with
         | Some c => sent (λ p _, bool_decide (p = 2%nat)) p c 0
                       (take (Z.to_nat 2) [demo_event 3; demo_event 3])
         | None => []
         end))
  ∧ ∀ p c, heap demo_three !! p = Some c →
      sent (λ p _, bool_decide (p = 2%nat)) p c 0
        (take (Z.to_nat 2) [demo_event 3; demo_event 3])
        `prefix_of` deliveries (take (Z.to_nat 2) [demo_event 3; demo_event 3]) p c
      ∧ ((∀ j : Z, (λ (p : ptr) (_ : Z), bool_decide (p = 2%nat)) p j = false) →
         sent (λ p _, bool_decide (p = 2%nat)) p c 0
           (take (Z.to_nat 2) [demo_event 3; demo_event 3])
         = deliveries (take (Z.to_nat 2) [demo_event 3; demo_event 3]) p c).
Proof.
  apply (failed_send_stops_one_client true demo_sensors demo_boot demo_three
           demo_three_inputs (actions_of true demo_three_inputs demo_boot)
           2 [demo_event 3; demo_event 3] (λ p _, bool_decide (p = 2%nat))).
  - apply demo_boot_new.
  - apply demo_run. vm_compute. reflexivity.
  - simpl. lia.
  - constructor; [by vm_compute | constructor; [by vm_compute | constructor]].
Defined.

(** * Redundant ACTIVATE commands *)

Lemma delay_step_view (h m : Z) (c1 c2 : smodule_client) :
  view h c1 = view h c2 → delay_step h m c1 = delay_step h m c2.
Proof. unfold view, delay_step. by intros [= -> ->]. Qed.

Lemma delay_fold_views (h : Z) (l1 l2 : list smodule_client) (m : Z) :
  view h <$> l1 = view h <$> l2 →
  fold_left (delay_step h) l1 m = fold_left (delay_step h) l2 m.
Proof.
  revert l2 m. induction l1 as [| c1 l1 IH]; intros [| c2 l2] m Hv; try done.
  injection Hv as Hc1 Hc2 Hl. simpl.
  rewrite (delay_step_view h m c1 c2) by (unfold view; by rewrite Hc1, Hc2).
  by apply IH.
Qed.

Lemma delay_changes_views (s1 s2 : smodule) (h : Z) :
  view h <$> registered s1 = view h <$> registered s2 →
  effective_delay s1 h = effective_delay s2 h →
  delay_changes s1 h = delay_changes s2 h.
Proof.
  intros Hv He. unfold delay_changes, delay_min_of.
  by rewrite (delay_fold_views h _ _ LLONG_MAX Hv), He.
Qed.

Lemma delay_post_current (s : smodule) (h : Z) :
  wf s → in_range s h → delay_changes (delay_post h s) h = false.
Proof.
  intros Hwf Hh. apply in_range_fields in Hh.
  unfold delay_changes at 1. rewrite delay_post_min.
  destruct (Z.eqb_spec (delay_min_of s h) LLONG_MAX) as [E | E]; [done |]. simpl.
  assert (Heff : effective_delay (delay_post h s) h = delay_min_of s h).
  { unfold delay_post, delay_changes.
    apply Z.eqb_neq in E as E'. rewrite E'. simpl.
    destruct (Z.eqb_spec (effective_delay s h) 0) as [E0 | E0]; simpl.
    - unfold effective_delay. simpl.
      by rewrite list_lookup_insert_eq by (rewrite (wf_delay s Hwf); lia).
    - destruct (Z.eqb_spec (delay_min_of s h) (effective_delay s h)) as [E1 | E1]; simpl;
        [done |].
      unfold effective_delay. simpl.
      by rewrite list_lookup_insert_eq by (rewrite (wf_delay s Hwf); lia). }
  rewrite Heff, Z.eqb_refl.
  destruct (delay_min_range s h) as [? | ?]; [done |].
  destruct (Z.eqb_spec (delay_min_of s h) 0); [lia | done].
Qed.

Lemma delay_post_other (s : smodule) (h h' : Z) :
  0 ≤ h → 0 ≤ h' → h' ≠ h →
  effective_delay (delay_post h s) h' = effective_delay s h'.
Proof.
  intros Hh Hh' Hne. unfold delay_post. destruct (delay_changes s h); [| done].
  unfold effective_delay. simpl. by rewrite list_lookup_insert_ne by lia.
Qed.

Lemma cmd_post_registry (p : ptr) (c : smodule_client) (x : sensors_proxy_cmd)
    (s : smodule) :
  registered_ptrs (cmd_post p c x s) = registered_ptrs s.
Proof.
  unfold cmd_post, registered_ptrs.
  destruct (cmd x =? SENSORS_PROXY_CMD_ACTIVATE).
  { destruct (delay_post_frame (handle x)
                (activate_post p c (handle x) (activate_enabled x) s)) as (_ & _ & -> & -> & _).
    by destruct (activate_post_registry p c (handle x) (activate_enabled x) s)
      as (-> & -> & _). }
  destruct (cmd x =? SENSORS_PROXY_CMD_SET_DELAY); [| done].
  by destruct (delay_post_frame (handle x)
                 (store_delay p c (handle x) (set_delay_ns x) s)) as (_ & _ & -> & -> & _).
Qed.

Lemma cmd_post_effective (p : ptr) (c : smodule_client) (x : sensors_proxy_cmd)
    (s : smodule) (h : Z) :
  0 ≤ handle x → 0 ≤ h → h ≠ handle x →
  effective_delay (cmd_post p c x s) h = effective_delay s h.
Proof.
  intros Hx Hh Hne. unfold cmd_post.
  destruct (cmd x =? SENSORS_PROXY_CMD_ACTIVATE).
  { rewrite delay_post_other by done. unfold effective_delay.
    by destruct (activate_post_delay s p c (handle x) (activate_enabled x)) as (-> & _). }
  destruct (cmd x =? SENSORS_PROXY_CMD_SET_DELAY); [| done].
  by rewrite delay_post_other.
Qed.

Lemma view_cmd_client (n : nat) (c : smodule_client) (x : sensors_proxy_cmd) (h : Z) :
  wf_client n c → 0 ≤ handle x < Z.of_nat n → 0 ≤ h → h ≠ handle x →
  view h (cmd_client c x) = view h c.
Proof.
  intros Hwc Hx Hh Hne. unfold view. f_equal.
  - rewrite (cmd_client_enabled n c x h Hwc Hx Hh).
    rewrite decide_False; [done |]. by intros [_ ?].
  - unfold cmd_client, requested_delay.
    destruct (cmd x =? SENSORS_PROXY_CMD_ACTIVATE).
    { by destruct (activate_client_delay c (handle x) (activate_enabled x)) as [-> _]. }
    destruct (cmd x =? SENSORS_PROXY_CMD_SET_DELAY); [| done].
    simpl. by rewrite list_lookup_insert_ne by lia.
Qed.

Lemma cmd_post_views (p : ptr) (c : smodule_client) (x : sensors_proxy_cmd)
    (s : smodule) (h : Z) :
  wf s → heap s !! p = Some c → in_range s (handle x) → 0 ≤ h → h ≠ handle x →
  view h <$> registered (cmd_post p c x s) = view h <$> registered s.
Proof.
  intros Hwf Hp Hx Hh Hne. unfold registered. rewrite cmd_post_registry.
  apply in_range_fields in Hx.
  induction (registered_ptrs s) as [| q l IH]; [done |].
  csimpl.
  rewrite (cmd_post_heap p q c x s Hp).
  destruct (decide (q = p)) as [-> | Hq].
  - rewrite Hp. cbn [fmap list_fmap]. f_equal; [| exact IH].
    by apply (view_cmd_client (nfields s)); [apply (wf_heap s Hwf p) | ..].
  - destruct (heap s !! q); [cbn [fmap list_fmap]; f_equal |]; exact IH.
Qed.

Lemma listen_views (env : accept_env) (s : smodule) (h : Z) :
  wf s →
  fold_left (delay_step h)
    (registered (add_post (next_ptr s) (registered_ptrs s) (new_post env s))) LLONG_MAX
  = delay_min_of s h.
Proof.
  intros Hwf. unfold delay_min_of.
  pose proof (wf_new_post env s Hwf) as Hwf1.
  assert (Hreg : registered_ptrs (new_post env s) = registered_ptrs s) by done.
  assert (Hfresh : ∀ q, q ∈ registered_ptrs s → q ≠ next_ptr s).
  { intros q Hq ->. apply (new_post_unregistered env s Hwf). by rewrite Hreg. }
  assert (Hold : ∀ l : list ptr, (∀ q, q ∈ l → q ≠ next_ptr s) →
            omap (λ q, <[next_ptr s := new_client (accept_fd env) (nfields s)]> (heap s) !! q) l
            = omap (heap s !!.) l).
  { induction l as [| q l IH]; intros Hl; [done |].
    csimpl. rewrite IH by (intros q' Hq'; apply Hl; by right).
    rewrite lookup_insert_ne; [done |].
    intros E. by apply (Hl q); [left |]. }
  unfold add_post.
  destruct (decide (length (registered_ptrs s) < SMODULE_CLIENT_MAX)%nat) as [Hlt | Hge].
  - unfold registered.
    assert (Hptrs : registered_ptrs
                      (set_registry (slots (registered_ptrs s ++ [next_ptr s]))
                         (Z.of_nat (length (registered_ptrs s)) + 1) (new_post env s))
                    = registered_ptrs s ++ [next_ptr s]).
    { apply wf_registered_ptrs; [done |]. simpl. rewrite length_app. simpl. lia. }
    rewrite Hptrs.
    change (heap (set_registry ?a ?b (new_post env s)))
      with (<[next_ptr s := new_client (accept_fd env) (nfields s)]> (heap s)).
    rewrite omap_app, fold_left_app, (Hold _ Hfresh). csimpl.
    rewrite lookup_insert_eq. simpl.
    unfold delay_step at 1. by rewrite new_client_disabled.
  - unfold registered. rewrite Hreg.
    change (heap (new_post env s))
      with (<[next_ptr s := new_client (accept_fd env) (nfields s)]> (heap s)).
    by rewrite (Hold _ Hfresh).
Qed.

Lemma step_delays_current (la : bool) (i : input) (s s' : smodule) (o : list action) :
  wf s → delays_current s → is_teardown i = false →
  step la i s = Ok (tt, s', o) → delays_current s'.
Proof.
  intros Hwf Hcur Hno Hrun h Hh'.
  assert (Hh : in_range s h).
  { unfold in_range in *. by rewrite <- (step_handle_last la i s s' o Hwf Hrun). }
  specialize (Hcur h Hh). clear Hh'.
  destruct i as [epollin env | p ev | n events fails]; simpl in Hrun, Hno.
  - rewrite (listen_event_eq epollin env s Hwf) in Hrun.
    destruct (epollin && negb (accept_fd env <? 0)); [| by injection Hrun as <- <-].
    destruct (alloc_ok env); injection Hrun as <- <-; [| done].
    rewrite <- Hcur. unfold delay_changes, delay_min_of at 1 2.
    rewrite (listen_views env s h Hwf).
    assert (effective_delay (add_post (next_ptr s) (registered_ptrs s) (new_post env s)) h
            = effective_delay s h) as ->
      by (unfold add_post; by destruct (decide _)).
    done.
  - destruct (command_of ev) as [x |] eqn:Ec.
    + destruct ev as [[y | |] |]; try done. injection Ec as ->.
      rewrite client_event_command in Hrun.
      apply handle_cmd_Ok in Hrun as [(_ & -> & _) | (c & _ & Hp & Hx & -> & _)];
        [done | | done].
      destruct (decide (h = handle x)) as [-> | Hne].
      * unfold cmd_post.
        destruct (cmd x =? SENSORS_PROXY_CMD_ACTIVATE).
        { apply delay_post_current; [by apply wf_activate_post |].
          unfold in_range. by rewrite activate_post_handle_last. }
        destruct (cmd x =? SENSORS_PROXY_CMD_SET_DELAY); [| done].
        apply delay_post_current; [by apply wf_store_delay | done].
      * rewrite <- Hcur. destruct Hh as [Hh0 _]. destruct Hx as [Hx0 Hx1].
        apply delay_changes_views.
        -- by apply cmd_post_views.
        -- by apply cmd_post_effective.
    + rewrite client_event_ignored in Hrun by done. by injection Hrun as <- <-.
  - by apply poll_round_spec in Hrun as [-> _].
Qed.

Lemma run_delays_current (la : bool) (ins : list input) :
  ∀ s s' os, wf s → delays_current s → Forall (λ i, is_teardown i = false) ins →
    run la ins s = Ok (s', os) → delays_current s'.
Proof.
  induction ins as [| i ins IH]; intros s s' os Hwf Hcur Hno Hrun; simpl in Hrun.
  - by injection Hrun as <- <-.
  - destruct (step la i s) as [[[[] s1] o] |] eqn:Hstep; [| done]. simpl in Hrun.
    destruct (run la ins s1) as [[s2 os'] |] eqn:Hrest; [| done]. simpl in Hrun.
    injection Hrun as <- <-. apply Forall_cons in Hno as [Hi Hno].
    apply (IH s1 s2 os'); [by eapply step_wf | by eapply step_delays_current | done..].
Qed.

(** As long as no client has been torn down, a redundant ACTIVATE command
    is a no-op of the whole handler: the recomputation of the delay that
    follows every activate finds the stored delay up to date. *)
Lemma redundant_activate_without_teardown (la : bool) (sl : list sensor_t)
    (s0 s : smodule) (ins : list input) (os : list (list action)) (p : ptr)
    (c : smodule_client) (x : sensors_proxy_cmd) :
  smodule_new sl = Some s0 → run la ins s0 = Ok (s, os) →
  Forall (λ i, is_teardown i = false) ins →
  heap s !! p = Some c → in_range s (handle x) →
  cmd x = SENSORS_PROXY_CMD_ACTIVATE →
  is_enabled c (handle x) = negb (activate_enabled x =? 0) →
  smodule_client_handle_event la p (EvIn (Received x)) s = Ok (tt, s, []).
Proof.
  intros Hnew Hrun Hno Hp Hh Hc Hen.
  pose proof (smodule_new_wf sl s0 Hnew) as Hwf0.
  pose proof (run_wf la ins s0 s os Hwf0 Hrun) as Hwf.
  assert (Hcur0 : delays_current s0).
  { unfold smodule_new in Hnew. destruct (Z.of_nat (length sl) <=? 0); [done |].
    injection Hnew as <-. by intros h _. }
  pose proof (run_delays_current la ins s0 s os Hwf0 Hcur0 Hno Hrun) as Hcur.
  rewrite client_event_command.
  rewrite (redundant_activate_command la s p c x Hwf Hh Hp Hc Hen).
  unfold delay_post, delay_calls. by rewrite (Hcur _ Hh).
Qed.

(** C6 (where the code departs from it). With sensor 3 enabled by three
    sessions, a second ACTIVATE(3, 1) of the first session changes nothing
    and calls nothing.  After the session that asked for 20 ms has
    disconnected, the same redundant command still leaves the sessions and
    [enabled_count] alone, and [smodule_client_update_activate] alone is
    still a no-op, but the command now calls [setDelay(3, 50 ms)]: the
    tear-down did not recompute the delay, and the recomputation that
    follows every activate makes up for it.  Had the session disabled the
    sensor by a command instead, the redundant command would call
    nothing. *)
Theorem redundant_activate_after_leave :
  step true (command 1%nat (ACTIVATE 3 1)) demo_three = Ok (tt, demo_three, [])
  ∧ (∃ c, heap demo_left !! 1%nat = Some c ∧ is_enabled c 3 = true)
  ∧ smodule_client_update_activate true 1%nat 3 1 demo_left = Ok (tt, demo_left, [])
  ∧ (∃ s', step true (command 1%nat (ACTIVATE 3 1)) demo_left
           = Ok (tt, s', [DevSetDelay 3 (ms 50)])
           ∧ heap s' = heap demo_left
           ∧ sensors_enabled s' = sensors_enabled demo_left
           ∧ registered_ptrs s' = registered_ptrs demo_left
           ∧ effective_delay demo_left 3 = ms 20 ∧ effective_delay s' 3 = ms 50)
  ∧ step true (command 1%nat (ACTIVATE 3 1)) demo_disabled = Ok (tt, demo_disabled, []).
Proof.
  split_and!.
  - vm_compute. reflexivity.
  - eexists. split; [vm_compute; reflexivity | reflexivity].
  - vm_compute. reflexivity.
  - eexists. split_and!; [vm_compute; reflexivity | reflexivity..].
  - vm_compute. reflexivity.
Qed.

(** * A count that wraps the sizes of the handshake *)

(** X30. When the count the client receives is so large that both
    [sizeof(...) * sensors_count] wrap to zero in [size_t], the two reads
    that follow ask for nothing and succeed at once, and the loop that
    stores the pointers runs past the [SENSORS_MAX] elements of
    [sensors_list]. *)
Theorem wrapped_count_overflows (szs : nat) (width fd : Z) (cnt : list Ascii.ascii)
    (rest : list Client.recv_ret) (x : Client.sensors_poll_context_t) :
  0 ≤ fd → length cnt = 4%nat → length (Client.sensors_count_bytes x) = 4%nat →
  Z.of_nat Client.SENSORS_MAX < Client.int_of_bytes cnt →
  Client.size_t width (Z.of_nat Client.sizeof_strings * Client.int_of_bytes cnt) = 0%nat →
  Client.size_t width (Z.of_nat szs * Client.int_of_bytes cnt) = 0%nat →
  Client.constructor szs width fd 0 (Client.Chunk cnt :: rest) x = Some (Crash OutOfBounds).
Proof.
  intros Hfd Hcnt Hx Hmax Hw1 Hw2. unfold Client.constructor.
  destruct (Z.ltb_spec fd 0); [lia |]. simpl negb. cbn match.
  unfold Client.recv_into.
  rewrite recv_all_one; [| by destruct cnt | done]. cbn match.
  rewrite Hcnt. change ((4 <=? 4)%nat) with true. cbn match. simpl negb. cbn match.
  unfold Client.sensors_count, Client.overwrite. cbn [Client.sensors_count_bytes].
  rewrite Hcnt, drop_ge, app_nil_r by lia.
  rewrite Hw1, Hw2.
  rewrite (recv_all_done fd rest 0 []) by (simpl; lia).
  cbn [length Nat.leb]. cbn match. simpl negb. cbn match.
  rewrite (recv_all_done fd rest 0 []) by (simpl; lia).
  cbn [length Nat.leb]. cbn match. simpl negb. cbn match.
  by destruct (Z.ltb_spec (Z.of_nat Client.SENSORS_MAX) (Client.int_of_bytes cnt)); [| lia].
Qed.

Lemma wrapped_count_overflows_witness :
  Client.constructor 68 32 7 0 (Client.Chunk (bytes_of_int (2 ^ 30)) :: []) demo_client0
  = Some (Crash OutOfBounds).
Proof.
  apply (wrapped_count_overflows 68 32 7 (bytes_of_int (2 ^ 30)) [] demo_client0).
  - lia.
  - reflexivity.
  - reflexivity.
  - by vm_compute.
  - by vm_compute.
  - by vm_compute.
Defined.
